(** * GPUQueue ([jh.py]): a directory-backed job queue and its runner

    A shallow embedding of [src/jh.py].  The Python code talks to the
    operating system through [os], [os.path], [shutil], [open] and
    [subprocess]; those library calls are modelled first (text, paths, a
    file system with symbolic links, exceptions), and the classes [Job],
    [JobQueue] and [JobRunner] are then transcribed method by method on top
    of them, in a state-and-exception monad. *)

From stdpp Require Import gmap strings list fin_maps.
From Stdlib Require Import ZArith Ascii String DecimalString DecimalPos
  OrderedTypeEx.

Local Open Scope string_scope.
Local Open Scope list_scope.
Local Open Scope stdpp_scope.

(** ** Python text

    A Python [str] is modelled by a Rocq [string]; the character with code
    [n] stands for the code point [n], so the model covers text in the
    Latin-1 range. *)
Module PyStr.

Definition LF : ascii := "010"%char.
Definition CR : ascii := "013"%char.
Definition nl : string := String LF "".

(** [str.isspace] on one character: code points 9..13, 28..32, 133, 160. *)
Definition is_space (c : ascii) : bool :=
  let n := nat_of_ascii c in
  ((9 <=? n)%nat && (n <=? 13)%nat) || ((28 <=? n)%nat && (n <=? 32)%nat)
  || (n =? 133)%nat || (n =? 160)%nat.

Fixpoint lstrip (s : string) : string :=
  match s with
  | "" => ""
  | String c s' => if is_space c then lstrip s' else s
  end.

Fixpoint rstrip (s : string) : string :=
  match s with
  | "" => ""
  | String c s' =>
      match rstrip s' with
      | "" => if is_space c then "" else String c ""
      | r => String c r
      end
  end.

(** [s.strip()] *)
Definition strip (s : string) : string := lstrip (rstrip s).

(** [s.replace(old, new)] for a non-empty [old]: scan from the left, replace
    each occurrence and resume after it ([skip] counts the characters of the
    occurrence still to be passed over). *)
Fixpoint replace_from (old new : string) (skip : nat) (s : string) : string :=
  match s with
  | "" => ""
  | String c s' =>
      match skip with
      | S k => replace_from old new k s'
      | O =>
          if String.prefix old s
          then new +:+ replace_from old new (String.length old - 1) s'
          else String c (replace_from old new 0 s')
      end
  end.

Definition replace (old new s : string) : string := replace_from old new 0 s.

(** [old in s] *)
Fixpoint contains (old s : string) : bool :=
  String.prefix old s ||
  match s with
  | "" => false
  | String _ s' => contains old s'
  end.

(** [s.split(sep)] for a one-character separator: never returns []. *)
Fixpoint split (sep : ascii) (s : string) : list string :=
  match s with
  | "" => [""]
  | String c s' =>
      if decide (c = sep) then "" :: split sep s'
      else match split sep s' with
           | h :: t => String c h :: t
           | [] => [String c ""]
           end
  end.

(** [sep.join(l)] *)
Fixpoint join (sep : string) (l : list string) : string :=
  match l with
  | [] => ""
  | [x] => x
  | x :: l' => x +:+ sep +:+ join sep l'
  end.

Definition startswith (p s : string) : bool := String.prefix p s.

Fixpoint endswith_char (c : ascii) (s : string) : bool :=
  match s with
  | "" => false
  | String d "" => bool_decide (d = c)
  | String _ s' => endswith_char c s'
  end.

(** Text-mode reading translates ["\r\n"] and ["\r"] to ["\n"]. *)
Fixpoint universal_newlines (s : string) : string :=
  match s with
  | "" => ""
  | String c s' =>
      if decide (c = CR) then
        match s' with
        | String d s'' =>
            if decide (d = LF) then String LF (universal_newlines s'')
            else String LF (universal_newlines s')
        | "" => String LF ""
        end
      else String c (universal_newlines s')
  end.

(** [f.readline()] on the unread rest of a text file: the line, with its
    terminator when there is one, and what is left; [""] at end of file. *)
Fixpoint readline (s : string) : string * string :=
  match s with
  | "" => ("", "")
  | String c s' =>
      if decide (c = LF) then (nl, s')
      else let (l, r) := readline s' in (String c l, r)
  end.

(** [str(n)] for an integer. *)
Definition str_of_int (n : Z) : string := NilZero.string_of_int (Z.to_int n).

Definition digit_val (c : ascii) : option Z :=
  let n := nat_of_ascii c in
  if (48 <=? n)%nat && (n <=? 57)%nat then Some (Z.of_nat (n - 48)) else None.

(** Decimal digits, single underscores allowed between two digits. *)
Fixpoint parse_digits (s : string) (acc : Z) (after_digit : bool) : option Z :=
  match s with
  | "" => if after_digit then Some acc else None
  | String c s' =>
      if decide (c = "_"%char) then
        if after_digit then parse_digits s' acc false else None
      else
        match digit_val c with
        | Some d => parse_digits s' (10 * acc + d)%Z true
        | None => None
        end
  end.

(** White space for [int]: the code points 9..13, 32, 133 and 160.  The
    separators 28..31, which [str.strip] removes, are not among them. *)
Definition is_int_space (c : ascii) : bool :=
  let n := nat_of_ascii c in
  ((9 <=? n)%nat && (n <=? 13)%nat) || (n =? 32)%nat
  || (n =? 133)%nat || (n =? 160)%nat.

Fixpoint lstrip_by (sp : ascii → bool) (s : string) : string :=
  match s with
  | "" => ""
  | String c s' => if sp c then lstrip_by sp s' else s
  end.

Fixpoint rstrip_by (sp : ascii → bool) (s : string) : string :=
  match s with
  | "" => ""
  | String c s' =>
      match rstrip_by sp s' with
      | "" => if sp c then "" else String c ""
      | r => String c r
      end
  end.

(** [int(s)]: [None] stands for [ValueError].  White space at both ends is
    passed over, then come an optional sign and the digits. *)
Definition int_of_str (s : string) : option Z :=
  match lstrip_by is_int_space (rstrip_by is_int_space s) with
  | String "-" r => Z.opp <$> parse_digits r 0 false
  | String "+" r => parse_digits r 0 false
  | t => parse_digits t 0 false
  end.

Definition SQ : ascii := "039"%char.
Definition DQ : ascii := "034"%char.
Definition BS : ascii := "092"%char.
Definition TAB : ascii := "009"%char.

(** [str.isprintable] on one character of the Latin-1 range. *)
Definition is_printable (c : ascii) : bool :=
  let n := nat_of_ascii c in
  ((32 <=? n)%nat && (n <? 127)%nat)
  || ((161 <=? n)%nat && negb (n =? 173)%nat).

Definition hex_digit (n : nat) : ascii :=
  ascii_of_nat (if (n <? 10)%nat then 48 + n else 87 + n).

Fixpoint has_char (c : ascii) (s : string) : bool :=
  match s with
  | "" => false
  | String d s' => bool_decide (d = c) || has_char c s'
  end.

(** One character inside [repr(s)], [quote] being the quote in use. *)
Definition repr_char (quote c : ascii) : string :=
  if decide (c = quote ∨ c = BS) then String BS (String c "")
  else if decide (c = TAB) then String BS "t"
  else if decide (c = LF) then String BS "n"
  else if decide (c = CR) then String BS "r"
  else if is_printable c then String c ""
  else let n := nat_of_ascii c in
       String BS (String "x" (String (hex_digit (n / 16))
                                     (String (hex_digit (n mod 16)) ""))).

Fixpoint repr_body (quote : ascii) (s : string) : string :=
  match s with
  | "" => ""
  | String c s' => repr_char quote c +:+ repr_body quote s'
  end.

(** [repr(s)] for a [str]: between single quotes, or between double quotes
    when [s] holds a single quote and no double quote. *)
Definition repr_str (s : string) : string :=
  let quote := if has_char SQ s && negb (has_char DQ s) then DQ else SQ in
  String quote (repr_body quote s +:+ String quote "").

(** Comparison of [str] values: lexicographic on code points. *)
Definition str_le (a b : string) : bool :=
  match String.compare a b with Gt => false | _ => true end.

End PyStr.

Import PyStr.

(** ** Jobs *)

(** [class Job]: the attributes set by [__init__].  In every job the queue
    handles, the text attributes are [str] values and [gpus] is [None] or a
    list of integers. *)
Record Job := mkJob {
  code_dir : string;
  data_dir : string;
  cmd : string;
  gpus : option (list Z);
  job_dir : string;
  n_runs : Z;
  time : string;
  status : string;
  name : string
}.

Definition with_status (s : string) (j : Job) : Job :=
  mkJob (code_dir j) (data_dir j) (cmd j) (gpus j) (job_dir j) (n_runs j)
        (time j) s (name j).

(** ** The operating system *)

Inductive node :=
| File (content : string)
| Dir
| Link (target : string).

Inductive errno := ENOENT | ENOTDIR | EISDIR | EEXIST | ELOOP.

(** Python exceptions.  [OSError (Some ENOENT) _] is a [FileNotFoundError],
    [OSError (Some ENOTDIR) _] a [NotADirectoryError], and so on: Python
    picks the subclass from the error number.  [OSError None _] is an
    [OSError] without error number ([shutil.Error], the refusal of
    [shutil.rmtree] to work on a link).  [RecursionError] is raised when
    the calls nest deeper than the interpreter allows.
    [KeyboardInterrupt], raised when the user interrupts the program, is
    the one exception here that is not an instance of [Exception]. *)
Inductive exn :=
| OSError (code : option errno) (msg : string)
| ValueError (msg : string)
| UnicodeDecodeError (msg : string)
| RecursionError (msg : string)
| KeyboardInterrupt.

Definition is_FileNotFoundError (e : exn) : bool :=
  match e with OSError (Some ENOENT) _ => true | _ => false end.
Definition is_FileExistsError (e : exn) : bool :=
  match e with OSError (Some EEXIST) _ => true | _ => false end.
Definition is_OSError (e : exn) : bool :=
  match e with OSError _ _ => true | _ => false end.
(** [except Exception] does not catch [KeyboardInterrupt], which derives
    from [BaseException] only. *)
Definition is_Exception (e : exn) : bool :=
  match e with KeyboardInterrupt => false | _ => true end.

(** [e.errno == errno.ENOTDIR] *)
Definition errno_is_ENOTDIR (e : exn) : bool :=
  match e with OSError (Some ENOTDIR) _ => true | _ => false end.

(** [str(e)] *)
Definition exn_str (e : exn) : string :=
  match e with
  | OSError _ m | ValueError m | UnicodeDecodeError m
  | RecursionError m => m
  | KeyboardInterrupt => ""
  end.

Definition strerror (e : errno) : string :=
  match e with
  | ENOENT => "[Errno 2] No such file or directory"
  | ENOTDIR => "[Errno 20] Not a directory"
  | EISDIR => "[Errno 21] Is a directory"
  | EEXIST => "[Errno 17] File exists"
  | ELOOP => "[Errno 40] Too many levels of symbolic links"
  end.

(** The [OSError] of a failed system call on [path]; its text ends with
    [repr(path)]. *)
Definition os_error (e : errno) (path : string) : exn :=
  OSError (Some e) (strerror e +:+ ": " +:+ repr_str path).

(** A line a process sends to its standard output, as [run_job] meets it:
    bytes that decode to a text, or bytes that are not UTF-8, given by what
    the [UnicodeDecodeError] of [decode] says about them (the codec, the
    byte, its position, the cause). *)
Inductive out_line :=
| Utf8 (text : string)
| NotUtf8 (reason : string).

(** What the reader of the output meets after the last line.  The process
    closes its output and exits with a code; or it never does: it runs for
    ever, or it blocks on its standard error, a pipe that [run_job] opens
    and never reads, once that pipe is full; or the user interrupts the
    program while it waits for the next line. *)
Inductive proc_end :=
| Exit (code : Z)
| Block
| Interrupt.

(** What a launched shell does: the launch itself fails, or the process
    runs, sends lines to its standard output and comes to its end. *)
Inductive proc_outcome :=
| LaunchError (e : exn)
| Started (out : list out_line) (ending : proc_end).

(** Accesses to the state the queue's lock protects, each recorded with
    whether the lock was held at that moment (a ghost record, for the
    locking discipline). *)
Inductive access := IndexRead | IndexWrite | StatusRead | StatusWrite.

(** The state of the program and of its surroundings.  A file system maps
    the path of a node, given by its components from the root, to the node;
    the root itself is always a directory.  [jobs], [lock_held] and
    [queue_dir] are the attributes of the one [JobQueue] object; [jobs]
    keeps the insertion order of the Python dict.  [recursion_limit] is
    the number of calls of [shutil.copytree] that the interpreter lets nest
    in one another below the first (some 495 of them under the default
    limit of 1000 frames). *)
Record world := mkWorld {
  fs : gmap (list string) node;
  cwd : list string;
  home : string;
  environ : list (string * string);
  clock_time : string;
  clock_now : string;
  stdout : list string;
  queue_dir : string;
  jobs : list (string * Job);
  lock_held : bool;
  accesses : list (access * bool);
  recursion_limit : nat
}.

Definition set_fs (f : gmap (list string) node) (w : world) : world :=
  mkWorld f (cwd w) (home w) (environ w) (clock_time w) (clock_now w)
          (stdout w) (queue_dir w) (jobs w) (lock_held w) (accesses w)
          (recursion_limit w).
Definition set_stdout (o : list string) (w : world) : world :=
  mkWorld (fs w) (cwd w) (home w) (environ w) (clock_time w) (clock_now w)
          o (queue_dir w) (jobs w) (lock_held w) (accesses w)
          (recursion_limit w).
Definition set_jobs (d : list (string * Job)) (w : world) : world :=
  mkWorld (fs w) (cwd w) (home w) (environ w) (clock_time w) (clock_now w)
          (stdout w) (queue_dir w) d (lock_held w) (accesses w)
          (recursion_limit w).
Definition set_lock (b : bool) (w : world) : world :=
  mkWorld (fs w) (cwd w) (home w) (environ w) (clock_time w) (clock_now w)
          (stdout w) (queue_dir w) (jobs w) b (accesses w)
          (recursion_limit w).
Definition log_access (a : access) (w : world) : world :=
  mkWorld (fs w) (cwd w) (home w) (environ w) (clock_time w) (clock_now w)
          (stdout w) (queue_dir w) (jobs w) (lock_held w)
          (accesses w ++ [(a, lock_held w)]) (recursion_limit w).

(** *** The monad: state, exceptions, and blocking

    [Hang] is a call that never returns: it waits for a lock that is held,
    or for a process that sends nothing more and does not end. *)

Inductive result (A : Type) :=
| Ok (a : A) (w : world)
| Raise (e : exn) (w : world)
| Hang.
Arguments Ok {A} a w.
Arguments Raise {A} e w.
Arguments Hang {A}.

Definition M (A : Type) : Type := world → result A.

#[global] Instance M_ret : MRet M := λ A a w, Ok a w.
#[global] Instance M_bind : MBind M := λ A B f m w,
  match m w with
  | Ok a w' => f a w'
  | Raise e w' => Raise e w'
  | Hang => Hang
  end.

Definition raise {A} (e : exn) : M A := λ w, Raise e w.
Definition hang {A} : M A := λ _, Hang.
Definition get {A} (f : world → A) : M A := λ w, Ok (f w) w.
Definition modify (f : world → world) : M unit := λ w, Ok tt (f w).

(** [try: body except <class>: handler] *)
Definition try_except {A} (body : M A) (catches : exn → bool)
    (handler : exn → M A) : M A := λ w,
  match body w with
  | Raise e w' => if catches e then handler e w' else Raise e w'
  | r => r
  end.

(** [with self._lock: body].  A [threading.Lock] is not re-entrant:
    acquiring it while it is held blocks.  It is released however the body
    ends. *)
Definition with_lock {A} (body : M A) : M A := λ w,
  if lock_held w then Hang
  else match body (set_lock true w) with
       | Ok a w' => Ok a (set_lock false w')
       | Raise e w' => Raise e (set_lock false w')
       | Hang => Hang
       end.

(** [for x in l: body x] *)
Fixpoint for_each {A} (l : list A) (body : A → M unit) : M unit :=
  match l with
  | [] => mret tt
  | x :: l' => body x ;; for_each l' body
  end.

Definition print (s : string) : M unit := λ w,
  Ok tt (set_stdout (stdout w ++ [s +:+ nl]) w).
Definition sys_stdout_write (s : string) : M unit := λ w,
  Ok tt (set_stdout (stdout w ++ [s]) w).

(** *** [os.path]: text operations on paths *)

(** [os.path.join(a, b)] *)
Definition os_path_join (a b : string) : string :=
  if startswith "/" b then b
  else if decide (a = "") then b
  else if endswith_char "/" a then a +:+ b
  else a +:+ "/" +:+ b.

(** [(p[:i], p[i:])] for [i = p.rfind('/') + 1] *)
Fixpoint split_last (p : string) : string * string :=
  match p with
  | "" => ("", "")
  | String c p' =>
      let (h, t) := split_last p' in
      if decide (h = "") then
        if decide (c = "/"%char) then (String c "", t) else ("", String c t)
      else (String c h, t)
  end.

Fixpoint all_slashes (s : string) : bool :=
  match s with
  | "" => true
  | String c s' => bool_decide (c = "/"%char) && all_slashes s'
  end.

(** [s.rstrip('/')] *)
Fixpoint rstrip_slash (s : string) : string :=
  match s with
  | "" => ""
  | String c s' =>
      match rstrip_slash s' with
      | "" => if decide (c = "/"%char) then "" else String c ""
      | r => String c r
      end
  end.

(** [os.path.split(p)] *)
Definition os_path_split (p : string) : string * string :=
  let (h, t) := split_last p in
  (if negb (bool_decide (h = "")) && negb (all_slashes h)
   then rstrip_slash h else h, t).

(** [os.path.normpath(path)] *)
Definition normpath (path : string) : string :=
  if decide (path = "") then "." else
  let initial_slashes : nat :=
    if startswith "/" path then
      if startswith "//" path && negb (startswith "///" path) then 2 else 1
    else 0 in
  let new_comps :=
    foldl (λ acc comp,
             if decide (comp = "" ∨ comp = ".") then acc
             else if decide (comp ≠ ".."
                             ∨ (initial_slashes = 0 ∧ acc = [])
                             ∨ (acc ≠ [] ∧ last acc = Some ".."))
                  then acc ++ [comp]
                  else removelast acc)
          [] (split "/" path) in
  let p := (match initial_slashes with 0 => "" | 1 => "/" | _ => "//" end)
           +:+ join "/" new_comps in
  if decide (p = "") then "." else p.

(** [os.getcwd()] *)
Definition getcwd (w : world) : string := "/" +:+ join "/" (cwd w).

(** [os.path.abspath(path)] *)
Definition abspath (w : world) (path : string) : string :=
  normpath (if startswith "/" path then path
            else os_path_join (getcwd w) path).

Fixpoint drop_to_slash (s : string) : string :=
  match s with
  | "" => ""
  | String c s' => if decide (c = "/"%char) then s else drop_to_slash s'
  end.

(** [os.path.expanduser(path)]: ["~"] and ["~/..."] expand to the home
    directory; ["~name"] is left as it is, as for a user the system does
    not know. *)
Definition expanduser (w : world) (path : string) : string :=
  match path with
  | String "~" rest =>
      if bool_decide (rest = "") || startswith "/" rest then
        let r := rstrip_slash (home w) +:+ drop_to_slash rest in
        if decide (r = "") then "/" else r
      else path
  | _ => path
  end.

(** *** Path resolution *)

Definition node_at (f : gmap (list string) node) (k : list string)
    : option node :=
  if decide (k = []) then Some Dir else f !! k.

Inductive resolved := At (k : list string) | Fail (e : errno).

Definition components (p : string) : list string :=
  filter (λ c, c ≠ "" ∧ c ≠ ".") (split "/" p).

(** Walk the components [comps] from [cur].  To go on from [cur] it must be
    a directory; the node reached by the last component may be anything,
    also missing (the caller decides).  A link met on the way is expanded by
    [expand], and so is a link in last position when [follow] is set. *)
Fixpoint walk_with (expand : list string → list string → resolved)
    (f : gmap (list string) node) (follow : bool)
    (cur comps : list string) : resolved :=
  match comps with
  | [] => At cur
  | c :: rest =>
      match node_at f cur with
      | Some Dir =>
          if decide (c = "..") then
            walk_with expand f follow (removelast cur) rest
          else
            match f !! (cur ++ [c]) with
            | Some (Link t) =>
                if bool_decide (rest = []) && negb follow
                then At (cur ++ [c])
                else expand (if startswith "/" t then [] else cur)
                            (components t ++ rest)
            | _ => walk_with expand f follow (cur ++ [c]) rest
            end
      | Some (File _) | Some (Link _) => Fail ENOTDIR
      | None => Fail ENOENT
      end
  end.

(** At most [links] link expansions, then [ELOOP]. *)
Fixpoint walk (links : nat) (f : gmap (list string) node) (follow : bool)
    (cur comps : list string) {struct links} : resolved :=
  walk_with (match links with
             | O => λ _ _, Fail ELOOP
             | S l => walk l f follow
             end) f follow cur comps.

(** The node a path names.  A trailing slash makes the last component
    followed and required not to be a plain file. *)
Definition resolve (w : world) (follow : bool) (p : string) : resolved :=
  if decide (p = "") then Fail ENOENT else
  let dirlike := endswith_char "/" p in
  match walk 40 (fs w) (follow || dirlike)
             (if startswith "/" p then [] else cwd w) (components p) with
  | At k =>
      match node_at (fs w) k with
      | Some (File _) => if dirlike then Fail ENOTDIR else At k
      | _ => At k
      end
  | Fail e => Fail e
  end.

(** *** [os], [shutil], [open] *)

Definition os_path_exists (p : string) : M bool := λ w,
  Ok (match resolve w true p with
      | At k => match node_at (fs w) k with
                | Some (File _) | Some Dir => true
                | _ => false
                end
      | Fail _ => false
      end) w.

Definition os_path_isdir (p : string) : M bool := λ w,
  Ok (match resolve w true p with
      | At k => match node_at (fs w) k with Some Dir => true | _ => false end
      | Fail _ => false
      end) w.

Fixpoint strip_prefix (p l : list string) : option (list string) :=
  match p, l with
  | [], _ => Some l
  | a :: p', b :: l' => if decide (a = b) then strip_prefix p' l' else None
  | _ :: _, [] => None
  end.

(** Names of the entries of the directory at [k]. *)
Definition children (f : gmap (list string) node) (k : list string)
    : list string :=
  omap (λ kv : list string * node,
          match strip_prefix k kv.1 with
          | Some [n] => Some n
          | _ => None
          end) (map_to_list f).

(** The key of an existing directory, or the error [os.scandir] raises. *)
Definition resolve_dir (p : string) : M (list string) := λ w,
  match resolve w true p with
  | At k => match node_at (fs w) k with
            | Some Dir => Ok k w
            | Some (File _) => Raise (os_error ENOTDIR p) w
            | Some (Link _) => Raise (os_error ELOOP p) w
            | None => Raise (os_error ENOENT p) w
            end
  | Fail e => Raise (os_error e p) w
  end.

(** [os.listdir(p)] *)
Definition os_listdir (p : string) : M (list string) :=
  k ← resolve_dir p; get (λ w, children (fs w) k).

(** [open(p, 'r')]: the text of the file, as the reads will see it. *)
Definition open_r (p : string) : M string := λ w,
  match resolve w true p with
  | At k => match node_at (fs w) k with
            | Some (File c) => Ok (universal_newlines c) w
            | Some Dir => Raise (os_error EISDIR p) w
            | Some (Link _) => Raise (os_error ELOOP p) w
            | None => Raise (os_error ENOENT p) w
            end
  | Fail e => Raise (os_error e p) w
  end.

(** [open(p, 'rb').read()] *)
Definition open_rb (p : string) : M string := λ w,
  match resolve w true p with
  | At k => match node_at (fs w) k with
            | Some (File c) => Ok c w
            | Some Dir => Raise (os_error EISDIR p) w
            | Some (Link _) => Raise (os_error ELOOP p) w
            | None => Raise (os_error ENOENT p) w
            end
  | Fail e => Raise (os_error e p) w
  end.

(** [open(p, 'w')]: creates the file or empties it; the handle is the key
    of the file. *)
Definition open_w (p : string) : M (list string) := λ w,
  match resolve w true p with
  | At k => match node_at (fs w) k with
            | Some Dir => Raise (os_error EISDIR p) w
            | Some (Link _) => Raise (os_error ELOOP p) w
            | Some (File _) => Ok k (set_fs (<[k := File ""]> (fs w)) w)
            | None =>
                if endswith_char "/" p then Raise (os_error EISDIR p) w
                else Ok k (set_fs (<[k := File ""]> (fs w)) w)
            end
  | Fail e => Raise (os_error e p) w
  end.

(** [f.write(s)] on a handle from [open_w] *)
Definition file_write (h : list string) (s : string) : M unit := λ w,
  match fs w !! h with
  | Some (File c) => Ok tt (set_fs (<[h := File (c +:+ s)]> (fs w)) w)
  | _ => Ok tt w
  end.

(** [os.mkdir(p)] *)
Definition os_mkdir (p : string) : M unit := λ w,
  match resolve w false p with
  | At k => match node_at (fs w) k with
            | Some _ => Raise (os_error EEXIST p) w
            | None => Ok tt (set_fs (<[k := Dir]> (fs w)) w)
            end
  | Fail e => Raise (os_error e p) w
  end.

(** [os.makedirs(name)], as the library writes it; the recursion on the
    head of the path is bounded by [fuel]. *)
Definition makedirs_split (name : string) : string * string :=
  let (head, tail) := os_path_split name in
  if decide (tail = "") then os_path_split head else (head, tail).

Fixpoint makedirs_loop (fuel : nat) (name : string) : M unit :=
  let (head, tail) := makedirs_split name in
  ex ← os_path_exists head;
  if negb (bool_decide (head = "")) && negb (bool_decide (tail = ""))
     && negb ex
  then
    match fuel with
    | O => raise (os_error ENOENT name)
    | S fuel' =>
        try_except (makedirs_loop fuel' head) is_FileExistsError
                   (λ _, mret tt) ;;
        if decide (tail = ".") then mret tt else os_mkdir name
    end
  else os_mkdir name.

Definition os_makedirs (name : string) : M unit :=
  makedirs_loop (String.length name) name.

(** [shutil.rmtree(p)] *)
Definition shutil_rmtree (p : string) : M unit := λ w,
  match resolve w false p with
  | At k =>
      match node_at (fs w) k with
      | Some Dir =>
          Ok tt (set_fs (filter (λ kv : list string * node,
                                   ¬ k `prefix_of` kv.1) (fs w)) w)
      | Some (File _) => Raise (os_error ENOTDIR p) w
      | Some (Link _) =>
          Raise (OSError None "Cannot call rmtree on a symbolic link") w
      | None => Raise (os_error ENOENT p) w
      end
  | Fail e => Raise (os_error e p) w
  end.

(** [os.symlink(src, dst)]: [dst] must not exist, not even as a link whose
    target is missing. *)
Definition os_symlink (src dst : string) : M unit := λ w,
  match resolve w false dst with
  | At k => match node_at (fs w) k with
            | Some _ =>
                Raise (OSError (Some EEXIST)
                         (strerror EEXIST +:+ ": " +:+ repr_str src +:+ " -> "
                          +:+ repr_str dst)) w
            | None => Ok tt (set_fs (<[k := Link src]> (fs w)) w)
            end
  | Fail e => Raise (os_error e dst) w
  end.

(** [os.path.basename(p)] *)
Definition basename (p : string) : string := (split_last p).2.

(** What [shutil.copytree] finds at an entry of the source; it copies what
    a link points to, not the link, and fails on a link that leads
    nowhere. *)
Inductive entry := EFile (c : string) | EDir (k : list string)
                 | EFail (e : errno).

Definition entry_at (f : gmap (list string) node) (k : list string) : entry :=
  match f !! k with
  | Some (File c) => EFile c
  | Some Dir => EDir k
  | Some (Link t) =>
      match walk 40 f true (if startswith "/" t then [] else removelast k)
                 (components t) with
      | At k' => match node_at f k' with
                 | Some (File c) =>
                     if endswith_char "/" t then EFail ENOTDIR else EFile c
                 | Some Dir => EDir k'
                 | Some (Link _) => EFail ELOOP
                 | None => EFail ENOENT
                 end
      | Fail e => EFail e
      end
  | None => EFail ENOENT
  end.

Definition key_path (k : list string) : string := "/" +:+ join "/" k.

(** The names [shutil.copytree] copies from the directory at [k]: those
    the [ignore] callback does not return. *)
Definition listing (ignore : string → list string → list string)
    (f : gmap (list string) node) (k : list string) : list string :=
  let names := children f k in
  let ignored_names := ignore (key_path k) names in
  filter (λ n, n ∉ ignored_names) names.

(** The state of the copying loop of [shutil.copytree]: the file system,
    the errors collected so far, each with the source name, the destination
    name and the text of the [OSError], and whether the calls have nested
    deeper than the interpreter allows, which ends the copy there. *)
Record copied := mkCopied {
  copied_fs : gmap (list string) node;
  copy_errors : list (string * string * string);
  too_deep : bool
}.

(** The copying loop of [shutil.copytree] over the names of the directory
    [src], found at [ksrc], into the directory [dst], found at [kdst].  A
    file is copied; for a directory [copytree] calls itself, [depth]
    counting the calls that may still nest, and takes over the errors of
    that call; an [OSError] on an entry is noted and the loop goes on. *)
Fixpoint copy_names (depth : nat)
    (ignore : string → list string → list string)
    (src dst : string) (ksrc kdst : list string) (names : list string)
    (f : gmap (list string) node) : copied :=
  foldl (λ (acc : copied) (n : string),
           if too_deep acc then acc else
           let srcname := os_path_join src n in
           let dstname := os_path_join dst n in
           match entry_at (copied_fs acc) (ksrc ++ [n]) with
           | EFile c =>
               mkCopied (<[kdst ++ [n] := File c]> (copied_fs acc))
                        (copy_errors acc) false
           | EDir k' =>
               match depth with
               | O => mkCopied (copied_fs acc) (copy_errors acc) true
               | S d =>
                   let sub := listing ignore (copied_fs acc) k' in
                   let r := copy_names d ignore srcname dstname k'
                                       (kdst ++ [n]) sub
                                       (<[kdst ++ [n] := Dir]>
                                          (copied_fs acc)) in
                   mkCopied (copied_fs r) (copy_errors acc ++ copy_errors r)
                            (too_deep r)
               end
           | EFail e =>
               mkCopied (copied_fs acc)
                        (copy_errors acc
                         ++ [(srcname, dstname,
                              exn_str (os_error e srcname))])
                        false
           end) (mkCopied f [] false) names.

(** [str(e)] for the [shutil.Error] that carries the errors collected: the
    list of the triples, as [repr] writes it. *)
Definition copy_errors_str (errors : list (string * string * string))
    : string :=
  "[" +:+ join ", " (map (λ t : string * string * string,
                            "(" +:+ repr_str t.1.1 +:+ ", "
                            +:+ repr_str t.1.2 +:+ ", "
                            +:+ repr_str t.2 +:+ ")") errors) +:+ "]".

Definition copy_into (ignore : string → list string → list string)
    (src dst : string) (ks kd : list string) (names : list string)
    : M unit := λ w,
  let r := copy_names (recursion_limit w) ignore src dst ks kd names (fs w) in
  if too_deep r then
    Raise (RecursionError
             "maximum recursion depth exceeded while calling a Python object")
          (set_fs (copied_fs r) w)
  else
    match copy_errors r with
    | [] => Ok tt (set_fs (copied_fs r) w)
    | errors => Raise (OSError None (copy_errors_str errors))
                      (set_fs (copied_fs r) w)
    end.

(** [shutil.copytree(src, dst, ignore=ignore)]: the entries of [src] are
    listed, [dst] is made, and the entries are copied. *)
Definition shutil_copytree (src dst : string)
    (ignore : string → list string → list string) : M unit :=
  ks ← resolve_dir src;
  names ← get (λ w, listing ignore (fs w) ks);
  os_makedirs dst;;
  kd ← resolve_dir dst;
  copy_into ignore src dst ks kd names.

(** [shutil.copy(src, dst)] *)
Definition shutil_copy (src dst : string) : M unit :=
  isd ← os_path_isdir dst;
  let dst := if isd : bool then os_path_join dst (basename src) else dst in
  c ← open_rb src;
  h ← open_w dst;
  file_write h c.

(** *** [subprocess] *)

(** The answer of the system to a launch: from the command line, the working
    directory and the environment to what the process does. *)
Definition shell : Type :=
  string → list string → list (string * string) → proc_outcome.

(** [subprocess.Popen(cmd, stdout=PIPE, stderr=PIPE, cwd=cwd, env=env,
    shell=True)]: the process object, here what its standard output will
    give and how it ends. *)
Definition popen (sh : shell) (cmd cwd : string)
    (env : list (string * string)) : M (list out_line * proc_end) :=
  k ← resolve_dir cwd;
  match sh cmd k env with
  | LaunchError e => raise e
  | Started out ending => mret (out, ending)
  end.

(** [line.decode('utf-8')] *)
Definition decode_utf8 (line : out_line) : M string :=
  match line with
  | Utf8 s => mret s
  | NotUtf8 reason => raise (UnicodeDecodeError reason)
  end.

(** The read after the last line, which ends [for line in process.stdout]:
    it finds the output closed, or never returns, or is interrupted. *)
Definition end_of_output (ending : proc_end) : M unit :=
  match ending with
  | Exit _ => mret tt
  | Block => hang
  | Interrupt => raise KeyboardInterrupt
  end.

(** [process.wait()] *)
Definition process_wait (ending : proc_end) : M Z :=
  match ending with
  | Exit code => mret code
  | _ => hang
  end.

(** ** Python dicts, in insertion order *)

Fixpoint dict_set {V} (k : string) (v : V) (d : list (string * V))
    : list (string * V) :=
  match d with
  | [] => [(k, v)]
  | (k', v') :: d' =>
      if decide (k = k') then (k, v) :: d' else (k', v') :: dict_set k v d'
  end.

Fixpoint dict_get {V} (k : string) (d : list (string * V)) : option V :=
  match d with
  | [] => None
  | (k', v') :: d' => if decide (k = k') then Some v' else dict_get k d'
  end.

(** [sorted(l, key=key)] on text keys: stable, comparing with [<] only. *)
Fixpoint insert_by {A} (key : A → string) (x : A) (l : list A) : list A :=
  match l with
  | [] => [x]
  | y :: l' =>
      if String.ltb (key y) (key x) then y :: insert_by key x l'
      else x :: l
  end.

Definition sorted {A} (key : A → string) (l : list A) : list A :=
  foldr (insert_by key) [] l.

(** ** [ignore_function] and [copy] *)

(** [ignore_function(ignore)]: the callback returns the names of [ignore]
    present in the directory. *)
Definition ignore_function (ignore : list string)
    (path : string) (names : list string) : list string :=
  filter (λ ignored_name, ignored_name ∈ names) ignore.

Definition copy (src dest : string) (ignore : option (list string))
    : M unit :=
  let ignore := match ignore with Some l => l | None => [] end in
  try_except
    (shutil_copytree src dest (ignore_function ignore))
    is_OSError
    (λ e, if errno_is_ENOTDIR e then shutil_copy src dest
          else print ("Directory not copied. Error: " +:+ exn_str e)).

(** ** [class JobQueue] *)

(** [Job(code_dir=..., ...)]: [__init__] makes the three paths absolute. *)
Definition Job_init (w : world) (code_dir data_dir cmd job_dir : string)
    (gpus : option (list Z)) (time status name : string) : Job :=
  mkJob (abspath w code_dir) (abspath w data_dir) cmd gpus
        (abspath w job_dir) 1 time status name.

(** Reads and writes of [self.jobs]. *)
Definition read_index : M (list (string * Job)) := λ w,
  Ok (jobs w) (log_access IndexRead w).
Definition write_index (f : list (string * Job) → list (string * Job))
    : M unit := λ w,
  Ok tt (set_jobs (f (jobs w)) (log_access IndexWrite w)).

Definition _write_status (job : Job) : M unit :=
  let status_file := os_path_join (job_dir job) "status.txt" in
  modify (log_access StatusWrite);;
  f ← open_w status_file;
  file_write f ("status: " +:+ status job +:+ nl).

(** The job is returned as the call leaves it: [_read_status] sets its
    [status] attribute. *)
Definition _read_status (job : Job) : M Job :=
  let status_file := os_path_join (job_dir job) "status.txt" in
  modify (log_access StatusRead);;
  f ← open_r status_file;
  mret (with_status (strip (replace "status:" "" (readline f).1)) job).

(** [read_status(job)]: the job as mutated, and the value returned. *)
Definition read_status (job : Job) : M (Job * string) :=
  with_lock (job' ← _read_status job; mret (job', status job')).

Definition write_status (job : Job) (status : string) : M Job :=
  with_lock (let job := with_status status job in
             _write_status job;; mret job).

(** [[int(gpu) for gpu in gpus if gpu != '']]: the integers, or the first
    item [int] rejects. *)
Fixpoint ints_of (items : list string) : string + list Z :=
  match items with
  | [] => inr []
  | gpu :: rest =>
      if decide (gpu = "") then ints_of rest
      else match int_of_str gpu with
           | Some n => match ints_of rest with
                       | inr l => inr (n :: l)
                       | inl bad => inl bad
                       end
           | None => inl gpu
           end
  end.

Definition _read_job (job_dir : string) : M Job :=
  let name := (os_path_split job_dir).2 in
  let config_file := os_path_join job_dir "config.txt" in
  f ← open_r config_file;
  let (l1, f) := readline f in
  let code_dir := strip (replace "code_dir:" "" l1) in
  let (l2, f) := readline f in
  let data_dir := strip (replace "data_dir:" "" l2) in
  let (l3, f) := readline f in
  let cmd := replace "cmd:" "" (strip l3) in
  let (l4, f) := readline f in
  let time := strip (replace "time:" "" l4) in
  let (l5, f) := readline f in
  let gpus := strip (replace "gpus:" "" l5) in
  gpus ← (if decide (gpus = "none") then mret None
          else match ints_of (split "," gpus) with
               | inr l => mret (Some l)
               | inl gpu =>
                   raise (ValueError
                            ("invalid literal for int() with base 10: "
                             +:+ repr_str gpu))
               end);
  _read_status (mkJob code_dir data_dir cmd gpus job_dir 1 time "" name).

Definition _write_job (job : Job) : M unit :=
  ex ← os_path_exists (job_dir job);
  (if ex : bool then shutil_rmtree (job_dir job) else mret tt);;
  os_makedirs (job_dir job);;
  let snapshot_dir := os_path_join (job_dir job) "snapshot/" in
  let data_dir_name := (os_path_split (data_dir job)).2 in
  copy (code_dir job) snapshot_dir (Some [data_dir_name]);;
  let gpu_str_list :=
    match gpus job with
    | Some l => join "" (map (λ gpu, str_of_int gpu +:+ ",") l)
    | None => "none"
    end in
  let config_file := os_path_join (job_dir job) "config.txt" in
  f ← open_w config_file;
  file_write f ("code_dir: " +:+ code_dir job +:+ nl);;
  file_write f ("data_dir: " +:+ data_dir job +:+ nl);;
  file_write f ("cmd: " +:+ cmd job +:+ nl);;
  file_write f ("time: " +:+ time job +:+ nl);;
  file_write f ("gpus: " +:+ gpu_str_list +:+ nl);;
  _write_status job.

Definition update : M unit :=
  with_lock (
    write_index (λ _, []);;
    qd ← get queue_dir;
    names ← os_listdir qd;
    for_each names (λ job_name,
      let job_dir := os_path_join qd job_name in
      isd ← os_path_isdir job_dir;
      if isd : bool then
        try_except
          (curr_job ← _read_job job_dir;
           write_index (dict_set job_name curr_job))
          is_FileNotFoundError
          (λ _, print ("Failed to read job of name: " +:+ job_name))
      else mret tt)).

Definition add_job (job_name : option string) (code_dir data_dir cmd : string)
    (job_time : option string) (gpus : option (list Z)) : M Job :=
  code_dir ← get (λ w, abspath w (expanduser w code_dir));
  data_dir ← get (λ w, abspath w (expanduser w data_dir));
  job_name ← match job_name with
              | Some n => mret n
              | None => get (λ w, "job_" +:+ clock_time w)
              end;
  job_time ← match job_time with
              | Some t => mret t
              | None => get clock_now
              end;
  with_lock (
    qd ← get queue_dir;
    let job_dir := os_path_join qd job_name in
    job ← get (λ w, Job_init w code_dir data_dir cmd job_dir gpus
                              job_time "ready" job_name);
    _write_job job;;
    mret job).

Definition load_job (job_name : string) : M Job :=
  with_lock (
    qd ← get queue_dir;
    let job_dir := os_path_join qd job_name in
    ex ← os_path_exists job_dir;
    if ex : bool then _read_job job_dir
    else raise (ValueError "Job does not exist with that name!")).

Definition rm_job (job : string + Job) : M unit :=
  match job with
  | inl name => qd ← get queue_dir; shutil_rmtree (os_path_join qd name)
  | inr j => shutil_rmtree (job_dir j)
  end.

(** The selection [oldest] makes in a given index. *)
Definition oldest_in (d : list (string * Job)) : option Job :=
  let sorted_jobs :=
    sorted time
      (omap (λ name, match dict_get name d with
                     | Some j => if decide (status j = "ready")
                                 then Some j else None
                     | None => None
                     end) d.*1) in
  match sorted_jobs with
  | j :: _ => Some j
  | [] => None
  end.

Definition oldest : M (option Job) := d ← read_index; mret (oldest_in d).

(** ** [class JobRunner] *)

(** Step 1 of [run_job]: the link to the data directory. *)
Definition bind_data (job : Job) : M unit :=
  let data_dir_name := (os_path_split (data_dir job)).2 in
  let snapshot_dir := os_path_join (job_dir job) "snapshot/" in
  let sl_path := os_path_join snapshot_dir data_dir_name in
  ex ← os_path_exists sl_path;
  if negb ex then os_symlink (data_dir job) sl_path else mret tt.

(** Step 2: the environment of the process. *)
Definition build_env (job : Job) : M (list (string * string)) :=
  run_env ← get environ;
  match gpus job with
  | Some l =>
      let cuda_spec := join "" (map (λ gpu, str_of_int gpu +:+ ",") l) in
      mret (dict_set "CUDA_VISIBLE_DEVICES" cuda_spec run_env)
  | None => mret run_env
  end.

(** The body of [for line in process.stdout], line after line. *)
Definition stream (f : list string) (out : list out_line) : M unit :=
  for_each out (λ line,
    line ← decode_utf8 line;
    sys_stdout_write line;;
    file_write f line).

(** The [with open(output_file, 'w') as f:] block: launch, stream, wait.
    The exit code [process.wait()] returns is dropped. *)
Definition record_output (sh : shell) (job : Job)
    (run_env : list (string * string)) : M unit :=
  let cmd_tokens := cmd job in
  let snapshot_dir := os_path_join (job_dir job) "snapshot/" in
  let output_file := os_path_join (job_dir job) "output.txt" in
  f ← open_w output_file;
  print ("Run subprocess: " +:+ cmd_tokens);;
  process ← popen sh cmd_tokens snapshot_dir run_env;
  stream f process.1;;
  end_of_output process.2;;
  _ ← process_wait process.2;
  mret tt.

(** The body of the [try] statement of [run_job]. *)
Definition launch_and_record (sh : shell) (job : Job)
    (run_env : list (string * string)) : M Job :=
  record_output sh job run_env;;
  print "Job finished. Waiting for next job.";;
  write_status job "finished".

Definition run_job (sh : shell) (job : Job) : M Job :=
  bind_data job;;
  run_env ← build_env job;
  try_except
    (launch_and_record sh job run_env)
    is_Exception
    (λ e,
       job ← write_status job "crashed";
       print ("Exception: " +:+ exn_str e);;
       print "Job crashed. Moving on...";;
       mret job).

(** One turn of the loop of [start]. *)
Definition runner_cycle (sh : shell) : M unit :=
  update;;
  next_job ← oldest;
  match next_job with
  | None => mret tt
  | Some j => print ("Running job: " +:+ name j);; run_job sh j;; mret tt
  end.

(** ** The command line *)

(** The options [parse_input_arguments] returns.  [--cmd] is declared with
    [action='append', nargs='+']: its value is a list of lists of words. *)
Record options := mkOptions {
  opt_action : option string;
  opt_name : option string;
  opt_verbose : bool;
  opt_code : option string;
  opt_data : option string;
  opt_cmd : option (list (list string));
  opt_gpus : option string;
  opt_start : bool;
  opt_status : option string
}.

(** [[int(gpu.strip()) for gpu in gpus if gpu != '']]: the integers, or the
    first argument [int] rejects. *)
Fixpoint stripped_ints_of (items : list string) : string + list Z :=
  match items with
  | [] => inr []
  | gpu :: rest =>
      if decide (gpu = "") then stripped_ints_of rest
      else match int_of_str (strip gpu) with
           | Some n => match stripped_ints_of rest with
                       | inr l => inr (n :: l)
                       | inl bad => inl bad
                       end
           | None => inl (strip gpu)
           end
  end.

Definition load_job_specs (opt : options)
    : M (option (string * string * list (list string) * option (list Z))) :=
  match opt_code opt, opt_data opt, opt_cmd opt with
  | Some code, Some data, Some cmd =>
      gpus ← match opt_gpus opt with
              | Some gpus =>
                  match stripped_ints_of (split "," gpus) with
                  | inr l => mret (Some l)
                  | inl bad =>
                      raise (ValueError
                               ("invalid literal for int() with base 10: "
                                +:+ repr_str bad))
                  end
              | None => mret None
              end;
      mret (Some (code, data, cmd, gpus))
  | _, _, _ => mret None
  end.

(** ['%-*s' % (width, s)]: [s] with blanks added on the right up to
    [width] characters. *)
Definition ljust (width : nat) (s : string) : string :=
  s +:+ string_of_list_ascii (repeat " "%char (width - String.length s)).

(** ['%-*s  %-*s  %s' % (20, a, 30, b, c)] *)
Definition table_row (a b c : string) : string :=
  ljust 20 a +:+ "  " +:+ ljust 30 b +:+ "  " +:+ c.

(** [[queue.jobs[job_name] for job_name in queue.jobs]] *)
Definition index_jobs (d : list (string * Job)) : list Job :=
  omap (λ job_name, dict_get job_name d) d.*1.

(** The block of the script for the actions [list] and [ls]. *)
Definition list_action (opt : options) : M unit :=
  update;;
  d ← read_index;
  let selected_jobs := index_jobs d in
  let ls_by_status :=
    match opt_status opt with
    | Some s => if decide (s = "all") then None else Some s
    | None => Some "ready"
    end in
  let selected_jobs :=
    match ls_by_status with
    | Some s => filter (λ job, status job = s) selected_jobs
    | None => selected_jobs
    end in
  match ls_by_status with
  | None => print "Listing all jobs"
  | Some s => print ("Listing jobs of type: " +:+ s)
  end;;
  if decide (List.length selected_jobs = 0%nat) then print "No jobs to list"
  else
    print (table_row "Status" "Time Submitted" "Job Name");;
    print (table_row "-----" "-----" "-----");;
    d ← read_index;
    for_each (index_jobs d)
      (λ job, print (table_row (status job) (time job) (name job))).

(** ** Notions used by the statements *)

(** No line terminator inside [s]. *)
Fixpoint single_line (s : string) : bool :=
  match s with
  | "" => true
  | String c s' =>
      negb (bool_decide (c = LF)) && negb (bool_decide (c = CR))
      && single_line s'
  end.

(** In a file system every entry sits in a directory. *)
Definition fs_wf (f : gmap (list string) node) : Prop :=
  ∀ k c n, f !! (k ++ [c]) = Some n → node_at f k = Some Dir.

(** The same, as a check that computes. *)
Definition fs_wf_check (f : gmap (list string) node) : bool :=
  forallb (λ kv : list string * node,
             match node_at f (removelast kv.1) with
             | Some Dir => true
             | _ => false
             end) (map_to_list f).

(** How a run ended. *)
Definition returned {A} (r : result A) : option A :=
  match r with Ok a _ => Some a | _ => None end.
Definition raised {A} (r : result A) : option exn :=
  match r with Raise e _ => Some e | _ => None end.
Definition final {A} (r : result A) : option world :=
  match r with Ok _ w | Raise _ w => Some w | Hang => None end.

(** The text of the file [p], if it can be read. *)
Definition read_text (p : string) (w : world) : option string :=
  returned (open_rb p w).

(** The outcome of [_read_job] in a world: the job or the exception. *)
Definition read_job_of (w : world) (job_dir : string) : option (exn + Job) :=
  match _read_job job_dir w with
  | Ok j _ => Some (inr j)
  | Raise e _ => Some (inl e)
  | Hang => None
  end.

Definition is_dir (w : world) (p : string) : bool :=
  match returned (os_path_isdir p w) with Some b => b | None => false end.

(** Nothing at the path [p]: the walk ends on a missing node or stops at a
    missing directory. *)
Definition absent (w : world) (p : string) : Prop :=
  match resolve w true p with
  | At k => node_at (fs w) k = None
  | Fail e => e = ENOENT
  end.

(** Line number [n] (from 0) of a text, as successive [readline] calls
    return it: [""] when the text has fewer lines. *)
Definition line_at (n : nat) (text : string) : string :=
  (readline (Nat.iter n (λ t, (readline t).2) text)).1.

(** The [gpus] field [_read_job] finds in the text of a config record. *)
Definition gpus_field (text : string) : string :=
  strip (replace "gpus:" "" (line_at 4 text)).

Definition config_file (job_dir : string) : string :=
  os_path_join job_dir "config.txt".

(** What [_read_job] makes of the text of a config record, before it reads
    the status: the job, or the [gpus] item that [int] rejects. *)
Definition parse_config (job_dir text : string) : string + Job :=
  let gpus := gpus_field text in
  match (if decide (gpus = "none") then inr None
         else match ints_of (split "," gpus) with
              | inr l => inr (Some l)
              | inl gpu => inl gpu
              end) with
  | inr g =>
      inr (mkJob (strip (replace "code_dir:" "" (line_at 0 text)))
                 (strip (replace "data_dir:" "" (line_at 1 text)))
                 (replace "cmd:" "" (strip (line_at 2 text)))
                 g job_dir 1
                 (strip (replace "time:" "" (line_at 3 text)))
                 "" (os_path_split job_dir).2)
  | inl gpu => inl gpu
  end.

Definition int_error (gpu : string) : exn :=
  ValueError ("invalid literal for int() with base 10: " +:+ repr_str gpu).

(** The scan of [update], entry by entry: the job an entry contributes to
    the index, and the line it makes [update] print. *)
Definition scan_pick (w : world) (n : string) : option Job :=
  let d := os_path_join (queue_dir w) n in
  if is_dir w d then
    match read_job_of w d with Some (inr j) => Some j | _ => None end
  else None.

Definition scan_log (w : world) (n : string) : list string :=
  let d := os_path_join (queue_dir w) n in
  if is_dir w d then
    match read_job_of w d with
    | Some (inl _) => ["Failed to read job of name: " +:+ n +:+ nl]
    | _ => []
    end
  else [].

(** The text [_write_job] writes into the config record of [job], write
    after write. *)
Definition config_text (job : Job) : string :=
  (((("" +:+ "code_dir: " +:+ code_dir job +:+ nl)
     +:+ "data_dir: " +:+ data_dir job +:+ nl)
    +:+ "cmd: " +:+ cmd job +:+ nl)
   +:+ "time: " +:+ time job +:+ nl)
  +:+ "gpus: " +:+ match gpus job with
                   | Some l => join "" (map (λ gpu, str_of_int gpu +:+ ",") l)
                   | None => "none"
                   end +:+ nl.

(** The text of a file from its lines. *)
Definition unlines (l : list string) : string :=
  join "" (map (λ s, s +:+ nl) l).

(** Every character of [s] satisfies [P]. *)
Fixpoint all_chars (P : ascii → bool) (s : string) : bool :=
  match s with
  | "" => true
  | String c s' => P c && all_chars P s'
  end.

(** The characters of [str(n)] for an integer [n], and those of the text
    [_write_job] makes of a GPU list. *)
Definition is_digit (c : ascii) : bool :=
  match digit_val c with Some _ => true | None => false end.

Definition numeral_char (c : ascii) : bool :=
  is_digit c || bool_decide (c = "-"%char).

Definition gpu_char (c : ascii) : bool :=
  numeral_char c || bool_decide (c = ","%char).

(** The text [_write_job] makes of a GPU list. *)
Definition gpu_text (l : list Z) : string :=
  join "" (map (λ gpu, str_of_int gpu +:+ ",") l).

(** A field value that a record line keeps: one line, no blank at either
    end, and free of the marker of its line. *)
Definition clean (marker s : string) : Prop :=
  single_line s = true ∧ strip s = s ∧ contains marker s = false.

(** The command [_read_job] finds in the record of a job whose command is
    [c]. *)
Definition cmd_read_back (c : string) : string :=
  if decide (c = "") then "" else " " +:+ c.



(** The path of the output record of a job, as [run_job] builds it. *)
Definition output_file (job : Job) : string :=
  os_path_join (job_dir job) "output.txt".

(** The environment [run_job] gives the process. *)
Definition run_env_of (job : Job) (w : world) : list (string * string) :=
  match gpus job with
  | Some l => dict_set "CUDA_VISIBLE_DEVICES" (gpu_text l) (environ w)
  | None => environ w
  end.

(** The ready jobs of an index, in the order of the index. *)
Definition ready_jobs (d : list (string * Job)) : list Job :=
  omap (λ name, match dict_get name d with
                | Some j => if decide (status j = "ready")
                            then Some j else None
                | None => None
                end) d.*1.

(** A computation that leaves the file system and the working directory
    as they are, however it ends. *)
Definition quiet {A} (m : M A) : Prop :=
  ∀ w, match final (m w) with
       | Some w' => fs w' = fs w ∧ cwd w' = cwd w
       | None => True
       end.

(** The job [add_job] builds in the world [w]. *)
Definition added_job (w : world) (job_name : option string)
    (code data cmd : string) (job_time : option string)
    (gpus : option (list Z)) : Job :=
  let name := match job_name with
              | Some n => n
              | None => "job_" +:+ clock_time w
              end in
  let t := match job_time with Some t => t | None => clock_now w end in
  Job_init w (abspath w (expanduser w code)) (abspath w (expanduser w data))
           cmd (os_path_join (queue_dir w) name) gpus t "ready" name.

(** The file system [f] without the node at [k] and all below it. *)
Definition pruned (f : gmap (list string) node) (k : list string)
    : gmap (list string) node :=
  filter (λ kv : list string * node, ¬ k `prefix_of` kv.1) f.

(** The jobs the action [list] selects in an index. *)
Definition listed (opt : options) (d : list (string * Job)) : list Job :=
  match opt_status opt with
  | Some s => if decide (s = "all") then index_jobs d
              else filter (λ job, status job = s) (index_jobs d)
  | None => filter (λ job, status job = "ready") (index_jobs d)
  end.

(** A component of a normalised absolute path. *)
Definition regular (c : string) : Prop :=
  c ≠ "" ∧ c ≠ "." ∧ c ≠ ".." ∧ split "/" c = [c].

(** One turn of the loop of [os.path.normpath] over the components. *)
Definition norm_step (initial_slashes : nat) (acc : list string)
    (comp : string) : list string :=
  if decide (comp = "" ∨ comp = ".") then acc
  else if decide (comp ≠ ".."
                  ∨ (initial_slashes = 0%nat ∧ acc = [])
                  ∨ (acc ≠ [] ∧ last acc = Some ".."))
       then acc ++ [comp]
       else removelast acc.

(** ** Concrete situations *)
Module Scenario.

(** A user directory with a project, its data, and an empty queue. *)
Definition fs0 : gmap (list string) node :=
  list_to_map
    [ (["home"], Dir); (["home"; "u"], Dir); (["home"; "u"; "jobs"], Dir);
      (["home"; "u"; "proj"], Dir);
      (["home"; "u"; "proj"; "main.py"], File "print(1)");
      (["home"; "u"; "proj"; "data"], Dir);
      (["home"; "u"; "proj"; "data"; "d.txt"], File "42") ].

Definition world_of (f : gmap (list string) node) : world :=
  mkWorld f ["home"; "u"] "/home/u" [("PATH", "/bin")] "1.5"
          "2020-01-01 10:00:00.000001" [] "jobs/" [] false [] 495.

Definition w0 : world := world_of fs0.

(** A process that prints one line and exits with code 3. *)
Definition sh0 : shell := λ _ _ _, Started [Utf8 ("hi" +:+ nl)] (Exit 3).

(** A process whose launch fails. *)
Definition sh_fail : shell :=
  λ _ _ _, LaunchError (OSError None "fork failed").

(** A queue with a well-formed job, a job whose [gpus] line is not a list
    of integers, a job whose config lacks its last line, a job whose config
    is empty, and a job without status record. *)
Definition fsQ : gmap (list string) node :=
  list_to_map
    [ (["home"], Dir); (["home"; "u"], Dir); (["home"; "u"; "jobs"], Dir);
      (["home"; "u"; "jobs"; "good"], Dir);
      (["home"; "u"; "jobs"; "good"; "config.txt"],
       File (unlines ["code_dir: /c"; "data_dir: /d"; "cmd: echo hi";
                      "time: t2"; "gpus: 0,1,"]));
      (["home"; "u"; "jobs"; "good"; "status.txt"],
       File (unlines ["status: ready"]));
      (["home"; "u"; "jobs"; "short"], Dir);
      (["home"; "u"; "jobs"; "short"; "config.txt"],
       File (unlines ["code_dir: /c"; "data_dir: /d"; "cmd: echo hi";
                      "time: t1"]));
      (["home"; "u"; "jobs"; "short"; "status.txt"],
       File (unlines ["status: ready"]));
      (["home"; "u"; "jobs"; "empty"], Dir);
      (["home"; "u"; "jobs"; "empty"; "config.txt"], File "");
      (["home"; "u"; "jobs"; "empty"; "status.txt"],
       File (unlines ["status: finished"]));
      (["home"; "u"; "jobs"; "nostatus"], Dir);
      (["home"; "u"; "jobs"; "nostatus"; "config.txt"],
       File (unlines ["code_dir: /c"; "data_dir: /d"; "cmd: echo hi";
                      "time: t0"; "gpus: none"])) ].

Definition wQ : world := world_of fsQ.

(** The same queue with one more job, whose [gpus] line is not numeric. *)
Definition fsBad : gmap (list string) node :=
  <[ ["home"; "u"; "jobs"; "bad"; "status.txt"] :=
       File (unlines ["status: ready"]) ]>
  (<[ ["home"; "u"; "jobs"; "bad"; "config.txt"] :=
       File (unlines ["code_dir: /c"; "data_dir: /d"; "cmd: echo hi";
                      "time: t3"; "gpus: x"]) ]>
  (<[ ["home"; "u"; "jobs"; "bad"] := Dir ]> fsQ)).

Definition wBad : world := world_of fsBad.

(** The world a run leaves. *)
Definition after {A} (m : M A) (w : world) : world :=
  match final (m w) with Some w' => w' | None => w end.

(** A job as [add_job] builds it, with two GPUs. *)
Definition jobA : Job :=
  mkJob "/home/u/proj" "/home/u/proj/data" "echo hi" (Some [0; 1]%Z)
        "/home/u/jobs/A" 1 "t1" "ready" "A".
Definition wA : world := after (_write_job jobA) w0.

(** A job whose data directory does not exist. *)
Definition jobD : Job :=
  mkJob "/home/u/proj" "/nodata" "echo hi" None "/home/u/jobs/D"
        1 "t1" "ready" "D".
Definition wD : world := after (_write_job jobD) w0.
Definition wD1 : world := after (bind_data jobD) wD.

(** A job whose code directory does not exist: [copy] prints its message
    and the job directory is left without snapshot. *)
Definition jobN : Job :=
  mkJob "/home/u/nonexist" "/home/u/proj/data" "echo hi" None
        "/home/u/jobs/N" 1 "t1" "ready" "N".
Definition wN : world := after (_write_job jobN) w0.


(** A process that prints one line and then neither prints nor ends, and
    one during which the user interrupts the program. *)
Definition sh_blocked : shell := λ _ _ _, Started [Utf8 ("hi" +:+ nl)] Block.
Definition sh_interrupted : shell :=
  λ _ _ _, Started [Utf8 ("hi" +:+ nl)] Interrupt.

(** The directory of job [A] with a directory in the place of the status
    record. *)
Definition wStatusDir : world :=
  set_fs (<[ ["home"; "u"; "jobs"; "A"; "status.txt"] := Dir ]> (fs wA)) wA.

(** An index where two ready jobs have the same, least, time. *)
Definition tied : list (string * Job) :=
  [ ("c", mkJob "/c" "/d" " x" None "jobs/c" 1 "t2" "ready" "c");
    ("b", mkJob "/c" "/d" " x" None "jobs/b" 1 "t1" "ready" "b");
    ("z", mkJob "/c" "/d" " x" None "jobs/z" 1 "t0" "finished" "z");
    ("a", mkJob "/c" "/d" " x" None "jobs/a" 1 "t1" "ready" "a") ].

(** The world after [add_job] has queued the project as job [A]. *)
Definition wAdd : world :=
  after (add_job (Some "A") "proj" "proj/data" "echo hi" (Some "t1")
                 (Some [0; 1]%Z)) w0.

(** The world after job [A] of [wAdd] has run. *)
Definition wRun : world := after (run_job sh0 jobA) wAdd.

(** The job a second [add_job] under the name [A] builds. *)
Definition jobA2 : Job :=
  mkJob "/home/u/proj" "/home/u/proj/data" "echo again" None
        "/home/u/jobs/A" 1 "t9" "ready" "A".

End Scenario.

(** * Properties *)

(** ** The order on timestamps and the selection of [oldest] *)

Section selection.

Lemma ltb_lt a b : String.ltb a b = true ↔ String_as_OT.lt a b.
Proof.
  rewrite <- String_as_OT.cmp_lt. unfold String.ltb, String_as_OT.cmp.
  destruct (String.compare a b); split; congruence.
Qed.

Lemma str_le_ltb a b : str_le a b = negb (String.ltb b a).
Proof.
  unfold str_le, String.ltb. rewrite (String.compare_antisym a b).
  by destruct (String.compare b a).
Qed.

Lemma ltb_asym a b : String.ltb a b = true → String.ltb b a = false.
Proof.
  unfold String.ltb. rewrite (String.compare_antisym a b).
  by destruct (String.compare b a).
Qed.

(** [a <= b] and [b <= c] give [a <= c], with [x <= y] read as
    "not [y < x]", the only test the sort makes. *)
Lemma not_ltb_trans a b c :
  String.ltb b a = false → String.ltb c b = false → String.ltb c a = false.
Proof.
  intros Hba Hcb. destruct (String.ltb c a) eqn:Hca; [|done].
  apply ltb_lt in Hca. unfold String.ltb in Hba.
  destruct (String.compare b a) eqn:Hcmp; [| done |].
  - apply String.compare_eq_iff in Hcmp. subst b.
    apply ltb_lt in Hca. congruence.
  - assert (Hab : String_as_OT.lt a b).
    { apply String_as_OT.cmp_lt. unfold String_as_OT.cmp.
      rewrite String.compare_antisym, Hcmp. done. }
    pose proof (String_as_OT.lt_trans _ _ _ Hca Hab) as Hlt.
    apply ltb_lt in Hlt. congruence.
Qed.

Context {A : Type} (key : A → string).

(** The head of a list is least for [key]. *)
Definition head_least (l : list A) : Prop :=
  match l with
  | [] => True
  | j :: r => Forall (λ y, String.ltb (key y) (key j) = false) r
  end.

Lemma insert_by_perm x l : insert_by key x l ≡ₚ x :: l.
Proof.
  induction l as [|y l IH]; simpl; [done|].
  destruct (String.ltb (key y) (key x)); [|done].
  rewrite IH. apply Permutation_swap.
Qed.

Lemma sorted_perm l : sorted key l ≡ₚ l.
Proof.
  induction l as [|x l IH]; simpl; [done|].
  unfold sorted in IH. by rewrite insert_by_perm, IH.
Qed.

Lemma insert_by_head_least x l :
  head_least l → head_least (insert_by key x l).
Proof.
  destruct l as [|y l]; simpl; [by constructor|].
  intros Hy. destruct (String.ltb (key y) (key x)) eqn:Hyx; simpl.
  - rewrite insert_by_perm. constructor; [by apply ltb_asym | done].
  - constructor; [done|].
    eapply Forall_impl; [exact Hy|]. simpl. intros z Hz.
    by eapply not_ltb_trans.
Qed.

Lemma sorted_head_least l : head_least (sorted key l).
Proof.
  induction l as [|x l IH]; simpl; [done|]. by apply insert_by_head_least.
Qed.

(** The first element of the sorted list is in the list and nothing in the
    list is smaller. *)
Lemma sorted_head j r l :
  sorted key l = j :: r →
  j ∈ l ∧ ∀ y, y ∈ l → str_le (key j) (key y) = true.
Proof.
  intros Hs. pose proof (sorted_perm l) as Hp.
  pose proof (sorted_head_least l) as Hl. rewrite Hs in Hp, Hl.
  split; [rewrite <- Hp; by left|].
  intros y Hy. rewrite <- Hp in Hy. rewrite str_le_ltb.
  apply elem_of_cons in Hy as [->|Hy].
  - destruct (String.ltb (key j) (key j)) eqn:E; [|done].
    by rewrite (ltb_asym _ _ E) in E.
  - simpl in Hl. rewrite Forall_forall in Hl. by rewrite (Hl y Hy).
Qed.

Lemma sorted_nil l : sorted key l = [] → l = [].
Proof.
  intros Hs. pose proof (sorted_perm l) as Hp. rewrite Hs in Hp.
  symmetry in Hp. by apply Permutation_nil_r in Hp.
Qed.

End selection.

Lemma dict_get_Some_key {V} n (v : V) d : dict_get n d = Some v → n ∈ d.*1.
Proof.
  induction d as [|[k v'] d IH]; simpl; [done|].
  destruct (decide (n = k)) as [->|]; intros H.
  - by left.
  - right. by apply IH.
Qed.

(** The jobs [oldest] sorts: those the index gives for some name, with
    status ['ready']. *)
Lemma elem_of_ready_jobs j (d : list (string * Job)) :
  j ∈ omap (λ name, match dict_get name d with
                    | Some j => if decide (status j = "ready")
                                then Some j else None
                    | None => None
                    end) d.*1
  ↔ ∃ n, dict_get n d = Some j ∧ status j = "ready".
Proof.
  rewrite list_elem_of_omap. split.
  - intros (n & _ & Hn). exists n.
    destruct (dict_get n d) as [j'|]; [|done].
    destruct (decide (status j' = "ready")); naive_solver.
  - intros (n & Hn & Hr). exists n. split; [by eapply dict_get_Some_key|].
    rewrite Hn. by destruct (decide (status j = "ready")).
Qed.

(** C5.  [oldest()] returns, among the jobs of the index whose status is
    ['ready'], one whose submission time is least for the order on [str];
    it returns [None] exactly when the index holds no ready job; the job it
    returns is never ['finished'] or ['crashed']. *)
Theorem oldest_least_ready (w : world) :
  ∃ r, oldest w = Ok r (log_access IndexRead w) ∧
    match r with
    | Some j =>
        (∃ n, dict_get n (jobs w) = Some j) ∧
        status j = "ready" ∧ status j ≠ "finished" ∧ status j ≠ "crashed" ∧
        ∀ n' j', dict_get n' (jobs w) = Some j' → status j' = "ready" →
                 str_le (time j) (time j') = true
    | None => ∀ n j, dict_get n (jobs w) = Some j → status j ≠ "ready"
    end.
Proof.
  exists (oldest_in (jobs w)). split; [done|].
  unfold oldest_in.
  destruct (sorted time _) as [|j r] eqn:Hs.
  - apply sorted_nil in Hs. intros n j Hn Hr.
    assert (Hin : j ∈ @nil Job); [|by apply elem_of_nil in Hin].
    rewrite <- Hs. apply elem_of_ready_jobs. eauto.
  - apply sorted_head in Hs as [Hin Hmin].
    apply elem_of_ready_jobs in Hin as (n & Hn & Hr).
    split; [eauto|]. split; [done|]. rewrite Hr.
    split; [done|]. split; [done|].
    intros n' j' Hn' Hr'. apply Hmin, elem_of_ready_jobs. eauto.
Qed.

(** C8.  [oldest()] reads the index without taking the lock: the lock is
    left as it was found, and the read is recorded with the state the lock
    had before the call, not held when no other caller holds it. *)
Theorem oldest_reads_index_unlocked (w : world) :
  ∃ r w', oldest w = Ok r w' ∧
          lock_held w' = lock_held w ∧
          accesses w' = accesses w ++ [(IndexRead, lock_held w)].
Proof. by eexists _, _. Qed.

(** ** The situations of [Scenario], evaluated *)

Section scenarios.
Import Scenario.

Example write_jobA_records :
  read_text "/home/u/jobs/A/config.txt" wA
  = Some (unlines ["code_dir: /home/u/proj"; "data_dir: /home/u/proj/data";
                   "cmd: echo hi"; "time: t1"; "gpus: 0,1,"])
  ∧ read_text "/home/u/jobs/A/status.txt" wA = Some (unlines ["status: ready"])
  ∧ read_text "/home/u/jobs/A/snapshot/main.py" wA = Some "print(1)"
  ∧ returned (os_path_exists "/home/u/jobs/A/snapshot/data" wA) = Some false.
Proof. repeat split; vm_compute; reflexivity. Qed.

(** C3.  Writing [jobA] and reading its directory back gives the same code
    path, data path, submission time and GPU list, but the command
    [" echo hi"] for ["echo hi"]: [_read_job] strips the [cmd] line before
    it removes the ["cmd:"] marker, where the other four lines remove the
    marker first, so the blank after the marker stays. *)
Theorem read_back_cmd_gains_blank :
  ∃ j, returned (_read_job (job_dir jobA) wA) = Some j ∧
       code_dir j = code_dir jobA ∧ data_dir j = data_dir jobA ∧
       time j = time jobA ∧ gpus j = gpus jobA ∧ status j = status jobA ∧
       cmd j = " echo hi" ∧ cmd j ≠ cmd jobA.
Proof.
  eexists. split; [vm_compute; reflexivity|]. by repeat split.
Qed.

(** C7.  For a job whose data directory does not exist, the first binding
    creates the link and the second one raises [FileExistsError]:
    [os.path.exists] follows the link, finds no target, and [os.symlink] is
    called on a name that is taken. *)
Theorem bind_data_twice_dangling :
  returned (os_path_exists "/nodata" wD) = Some false ∧
  returned (bind_data jobD wD) = Some tt ∧
  fs wD1 !! ["home"; "u"; "jobs"; "D"; "snapshot"; "nodata"]
  = Some (Link "/nodata") ∧
  is_FileExistsError <$> raised (bind_data jobD wD1) = Some true.
Proof. repeat split; vm_compute; reflexivity. Qed.

(** When the data directory exists the second binding changes nothing. *)
Example bind_data_twice_present :
  returned (bind_data jobA wA) = Some tt ∧
  bind_data jobA (after (bind_data jobA) wA)
  = Ok tt (after (bind_data jobA) wA).
Proof. split; vm_compute; reflexivity. Qed.

(** C1, counterexample.  In the directory of [jobN] there is no snapshot,
    so [os.symlink] raises [FileNotFoundError]; the statement is outside
    the [try], the exception leaves [run_job], and the status record still
    says ['ready']. *)
Lemma run_job_binding_failure_escapes :
  is_FileNotFoundError <$> raised (run_job sh0 jobN wN) = Some true ∧
  read_text "/home/u/jobs/N/status.txt" (after (run_job sh0 jobN) wN)
  = Some (unlines ["status: ready"]).
Proof. split; vm_compute; reflexivity. Qed.

(** An interrupt during the run is not an [Exception]: it leaves [run_job]
    and the status record still says ['ready'].  And [run_job] does not
    return while the process neither prints nor ends. *)
Example run_job_interrupt_escapes :
  raised (run_job sh_interrupted jobA wA) = Some KeyboardInterrupt ∧
  read_text "/home/u/jobs/A/status.txt" (after (run_job sh_interrupted jobA) wA)
  = Some (unlines ["status: ready"]) ∧
  run_job sh_blocked jobA wA = Hang.
Proof. repeat split; vm_compute; reflexivity. Qed.

(** C6, counterexample.  In [wStatusDir] the data binding, the launch and
    the streaming of the one line of output complete, and the process exits;
    but the status record cannot be opened for writing, so neither
    ['finished'] nor ['crashed'] is written and [run_job] raises
    [IsADirectoryError]. *)
Lemma run_job_status_unwritable_raises :
  returned (bind_data jobA wStatusDir) = Some tt ∧
  returned (record_output sh0 jobA (run_env_of jobA wStatusDir)
              (after (bind_data jobA) wStatusDir)) = Some tt ∧
  read_text "/home/u/jobs/A/output.txt" (after (run_job sh0 jobA) wStatusDir)
  = Some ("hi" +:+ nl) ∧
  raised (run_job sh0 jobA wStatusDir)
  = Some (os_error EISDIR "/home/u/jobs/A/status.txt") ∧
  read_text "/home/u/jobs/A/status.txt" (after (run_job sh0 jobA) wStatusDir)
  = None.
Proof. repeat split; vm_compute; reflexivity. Qed.

(** C2, counterexample.  One job whose [gpus] line is not numeric makes the
    whole scan raise [ValueError]; and a job whose config record lacks a
    line, or is empty, is not skipped but indexed. *)
Lemma update_aborts_or_keeps_bad_records :
  raised (update wBad)
  = Some (ValueError "invalid literal for int() with base 10: 'x'") ∧
  returned (update wQ) = Some tt ∧
  (jobs (after update wQ)).*1 = ["empty"; "short"; "good"] ∧
  gpus <$> dict_get "short" (jobs (after update wQ)) = Some (Some []) ∧
  cmd <$> dict_get "empty" (jobs (after update wQ)) = Some "".
Proof. repeat split; vm_compute; reflexivity. Qed.

(** C4, counterexample.  A config record without its [gpus] line, and an
    empty one, are read without error. *)
Lemma read_job_short_record_accepted :
  returned (_read_job "jobs/short" wQ)
  = Some (mkJob "/c" "/d" " echo hi" (Some []) "jobs/short" 1 "t1" "ready"
                "short") ∧
  returned (_read_job "jobs/empty" wQ)
  = Some (mkJob "" "" "" (Some []) "jobs/empty" 1 "" "finished" "empty").
Proof. split; vm_compute; reflexivity. Qed.

(** C9, counterexample.  The code path [proj/main.py/x] does not exist and
    [proj/main.py/x] is not a plain file, yet [add_job] raises: listing it
    fails with [ENOTDIR], [copy] falls back on [shutil.copy], and that
    raises [NotADirectoryError]. *)
Lemma add_job_path_through_file_raises :
  returned (os_path_exists "proj/main.py/x" w0) = Some false ∧
  raised (add_job (Some "A") "proj/main.py/x" "proj/data" "echo hi"
                  (Some "t1") None w0)
  = Some (os_error ENOTDIR "/home/u/proj/main.py/x") ∧
  read_text "/home/u/jobs/A/config.txt"
    (after (add_job (Some "A") "proj/main.py/x" "proj/data" "echo hi"
                    (Some "t1") None) w0) = None.
Proof. repeat split; vm_compute; reflexivity. Qed.

(** C10, counterexample.  The status ["status:"] is one line without
    surrounding blanks; written and read back it is [""]. *)
Lemma status_marker_not_read_back :
  single_line "status:" = true ∧ strip "status:" = "status:" ∧
  snd <$> returned ((j ← write_status jobA "status:"; read_status j) wA)
  = Some "" ∧ "" ≠ "status:".
Proof. repeat split; try (vm_compute; reflexivity). done. Qed.

End scenarios.

(** ** Path resolution and the files written *)

Section resolution.

Implicit Types (f : gmap (list string) node) (k cur comps : list string).

Lemma node_at_insert_ne f k v cur :
  cur ≠ k → node_at (<[k := v]> f) cur = node_at f cur.
Proof.
  intros Hne. unfold node_at. destruct (decide (cur = [])); [done|].
  by rewrite lookup_insert_ne.
Qed.

Lemma node_at_nonroot f k : k ≠ [] → node_at f k = f !! k.
Proof. intros Hk. unfold node_at. by destruct (decide (k = [])). Qed.

(** A plain file, or nothing yet, at [k]: what [open(p, 'w')] accepts. *)
Definition file_or_free f k : Prop :=
  k ≠ [] ∧ (f !! k = None ∨ ∃ c0, f !! k = Some (File c0)).

(** Writing the file at the end of a path does not change where the path
    leads. *)
Lemma walk_with_overwrite expand expand' f follow k c :
  file_or_free f k →
  (∀ cur comps, expand cur comps = At k → expand' cur comps = At k) →
  ∀ comps cur,
    walk_with expand f follow cur comps = At k →
    walk_with expand' (<[k := File c]> f) follow cur comps = At k.
Proof.
  intros [Hk Hfree] Hexp. induction comps as [|c0 rest IH]; intros cur;
    simpl; [done|].
  destruct (node_at f cur) as [[| |]|] eqn:Hcur; try done.
  assert (cur ≠ k) as Hne.
  { intros ->. rewrite node_at_nonroot in Hcur by done.
    destruct Hfree as [?|[? ?]]; congruence. }
  rewrite node_at_insert_ne, Hcur by done.
  destruct (decide (c0 = "..")); [apply IH|].
  destruct (decide (cur ++ [c0] = k)) as [Heq|Hnk].
  - rewrite Heq, lookup_insert_eq.
    destruct Hfree as [->|[c1 ->]]; apply IH.
  - rewrite lookup_insert_ne by done.
    destruct (f !! (cur ++ [c0])) as [[| |t]|]; try apply IH.
    destruct (bool_decide (rest = []) && negb follow); [congruence|].
    apply Hexp.
Qed.

Lemma walk_overwrite links f follow k c cur comps :
  file_or_free f k →
  walk links f follow cur comps = At k →
  walk links (<[k := File c]> f) follow cur comps = At k.
Proof.
  intros Hfree. revert cur comps.
  induction links as [|l IH]; intros cur comps; simpl;
    apply walk_with_overwrite; auto; done.
Qed.

(** The path [p] names, in [w], the key [k] where a file can be written. *)
Definition writable_at (w : world) (p : string) k : Prop :=
  resolve w true p = At k ∧ endswith_char "/" p = false ∧
  file_or_free (fs w) k.

Lemma resolve_ext w w' follow p :
  fs w' = fs w → cwd w' = cwd w → resolve w' follow p = resolve w follow p.
Proof. intros Hf Hc. unfold resolve. by rewrite Hf, Hc. Qed.

Lemma writable_at_ext w w' p k :
  fs w' = fs w → cwd w' = cwd w → writable_at w p k → writable_at w' p k.
Proof.
  intros Hf Hc (Hr & He & Hfree). unfold writable_at.
  by rewrite (resolve_ext w w'), Hf.
Qed.

Lemma resolve_At_walk w follow p k :
  resolve w follow p = At k →
  p ≠ "" ∧
  walk 40 (fs w) (follow || endswith_char "/" p)
       (if startswith "/" p then [] else cwd w) (components p) = At k.
Proof.
  unfold resolve. destruct (decide (p = "")); [done|].
  destruct (walk _ _ _ _ _) as [k'|e]; [|done].
  destruct (node_at (fs w) k') as [[| |]|];
    try destruct (endswith_char "/" p); naive_solver.
Qed.

Lemma resolve_written w w' p k c :
  writable_at w p k → fs w' = <[k := File c]> (fs w) → cwd w' = cwd w →
  resolve w' true p = At k ∧ node_at (fs w') k = Some (File c).
Proof.
  intros (Hr & He & Hfree) Hf Hc.
  assert (node_at (fs w') k = Some (File c)) as Hn.
  { rewrite node_at_nonroot by apply Hfree. by rewrite Hf, lookup_insert_eq. }
  split; [|done].
  apply resolve_At_walk in Hr as [Hp Hw].
  unfold resolve. destruct (decide (p = "")); [done|].
  rewrite Hf, Hc, (walk_overwrite _ _ _ _ c _ _ Hfree Hw), <- Hf, Hn.
  by rewrite He.
Qed.

Lemma writable_at_written w w' p k c :
  writable_at w p k → fs w' = <[k := File c]> (fs w) → cwd w' = cwd w →
  writable_at w' p k.
Proof.
  intros Hw Hf Hc. destruct (resolve_written _ _ _ _ _ Hw Hf Hc) as [Hr Hn].
  destruct Hw as (_ & He & Hk & _). split; [done|]. split; [done|].
  split; [done|]. right. exists c. by rewrite Hf, lookup_insert_eq.
Qed.

Lemma open_w_inv p w k w' :
  open_w p w = Ok k w' →
  writable_at w p k ∧ w' = set_fs (<[k := File ""]> (fs w)) w.
Proof.
  unfold open_w, writable_at, file_or_free.
  destruct (resolve w true p) as [k0|e] eqn:Hr; [|done].
  destruct (node_at (fs w) k0) as [[c0| |]|] eqn:Hn; try done.
  - intros [= <- <-]. split; [|done].
    assert (k0 ≠ []) as Hk0 by (intros ->; done).
    rewrite node_at_nonroot in Hn by done.
    split; [done|]. split; [|by eauto].
    unfold resolve in Hr. destruct (decide (p = "")); [done|].
    destruct (walk _ _ _ _ _) as [k'|]; [|done].
    destruct (node_at (fs w) k') as [[| |]|] eqn:Hn';
      destruct (endswith_char "/" p); try done;
      injection Hr as ->; rewrite node_at_nonroot in Hn' by done; congruence.
  - destruct (endswith_char "/" p); [done|]. intros [= <- <-].
    assert (k0 ≠ []) as Hk0 by (intros ->; done).
    rewrite node_at_nonroot in Hn by done. repeat split; auto.
Qed.

Lemma open_w_writable p w k :
  writable_at w p k →
  open_w p w = Ok k (set_fs (<[k := File ""]> (fs w)) w).
Proof.
  intros (Hr & He & Hk & Hfree). unfold open_w.
  rewrite Hr, node_at_nonroot, He by done.
  by destruct Hfree as [->|[c0 ->]].
Qed.

Lemma open_r_written w w' p k c :
  writable_at w p k → fs w' = <[k := File c]> (fs w) → cwd w' = cwd w →
  open_r p w' = Ok (universal_newlines c) w'.
Proof.
  intros Hw Hf Hc. destruct (resolve_written _ _ _ _ _ Hw Hf Hc) as [Hr Hn].
  unfold open_r. by rewrite Hr, Hn.
Qed.

End resolution.

(** ** Text of the status record *)

Section status_text.

Lemma single_line_cons c s :
  single_line (String c s) = true → c ≠ LF ∧ c ≠ CR ∧ single_line s = true.
Proof.
  simpl. rewrite !andb_true_iff, !negb_true_iff, !bool_decide_eq_false.
  by intros [[? ?] ?].
Qed.

Lemma universal_newlines_app s t :
  single_line s = true →
  universal_newlines (s +:+ t) = s +:+ universal_newlines t.
Proof.
  induction s as [|c s IH]; [done|].
  intros (_ & Hcr & Hs)%single_line_cons.
  change (String c s +:+ t) with (String c (s +:+ t)).
  cbn [universal_newlines]. destruct (decide (c = CR)); [done|].
  by rewrite IH.
Qed.

Lemma readline_app s t :
  single_line s = true → readline (s +:+ String LF t) = (s +:+ nl, t).
Proof.
  induction s as [|c s IH]; intros Hs.
  - simpl. by destruct (decide (LF = LF)).
  - apply single_line_cons in Hs as (Hlf & _ & Hs).
    change (String c s +:+ String LF t) with (String c (s +:+ String LF t)).
    cbn [readline]. destruct (decide (c = LF)); [done|].
    by rewrite IH.
Qed.

(** A marker that has no line feed is a prefix of [x] if it is one of [x]
    followed by a line feed. *)
Lemma prefix_before_nl old x :
  single_line old = true →
  String.prefix old (x +:+ nl) = true → String.prefix old x = true.
Proof.
  revert x. induction old as [|a old IH]; intros x Hold; [by destruct x|].
  apply single_line_cons in Hold as (Hlf & _ & Hold).
  destruct x as [|b x]; simpl.
  - destruct (ascii_dec a LF); [done|]. by destruct old.
  - destruct (ascii_dec a b); [|done]. by apply IH.
Qed.

Lemma replace_absent old s :
  single_line old = true → old ≠ "" → contains old s = false →
  replace_from old "" 0 (s +:+ nl) = s +:+ nl.
Proof.
  intros Hold Hne. induction s as [|c s IH]; intros Hc.
  - simpl. destruct old as [|a old]; [done|].
    apply single_line_cons in Hold as (Hlf & _ & _).
    simpl. by destruct (ascii_dec a LF).
  - cbn [contains] in Hc. apply orb_false_iff in Hc as [Hp Hc].
    change (String c s +:+ nl) with (String c (s +:+ nl)).
    cbn [replace_from].
    destruct (String.prefix old (String c (s +:+ nl))) eqn:Hp'.
    + apply (prefix_before_nl old (String c s)) in Hp'; congruence.
    + by rewrite IH.
Qed.

Lemma rstrip_app_space s c :
  is_space c = true → rstrip (s +:+ String c "") = rstrip s.
Proof.
  intros Hc. induction s as [|d s IH]; simpl; [by rewrite Hc|].
  by rewrite IH.
Qed.

Lemma strip_padded s :
  strip s = s → strip (String " " (s +:+ nl)) = s.
Proof.
  unfold strip, nl. intros Hs. cbn [rstrip].
  rewrite (rstrip_app_space s LF) by done.
  destruct (rstrip s) as [|c r] eqn:Hr; [by rewrite <- Hs|].
  cbn [lstrip]. by change (is_space " ") with true.
Qed.

(** The line [_write_status] writes is read back by [_read_status] as the
    status, for a status of one line, without blanks around it, that does
    not contain the marker. *)
Lemma status_line_read_back s :
  single_line s = true → strip s = s → contains "status:" s = false →
  strip (replace "status:" ""
           (readline (universal_newlines ("" +:+ "status: " +:+ s +:+ nl))).1)
  = s.
Proof.
  intros Hl Hs Hc.
  change ("" +:+ "status: " +:+ s +:+ nl) with ("status: " +:+ s +:+ nl).
  assert (single_line ("status: " +:+ s) = true) as Hl' by done.
  assert ("status: " +:+ s +:+ nl = ("status: " +:+ s) +:+ nl) as -> by done.
  rewrite universal_newlines_app by done.
  change (universal_newlines nl) with (String LF "").
  rewrite (readline_app _ "") by done. cbn [fst].
  unfold replace.
  change (replace_from "status:" "" 0 (("status: " +:+ s) +:+ nl))
    with (String " " (replace_from "status:" "" 0 (s +:+ nl))).
  rewrite replace_absent by done.
  by apply strip_padded.
Qed.

End status_text.

(** ** The status record *)

Section status_record.

Definition status_file (job : Job) : string :=
  os_path_join (job_dir job) "status.txt".

Definition status_line (s : string) : string :=
  "" +:+ "status: " +:+ s +:+ nl.

(** The world [_write_status] leaves when it writes at [k]. *)
Definition status_written (job : Job) (k : list string) (w : world) : world :=
  let w1 := log_access StatusWrite w in
  let w2 := set_fs (<[k := File ""]> (fs w1)) w1 in
  set_fs (<[k := File (status_line (status job))]> (fs w2)) w2.

Lemma fs_status_written job k w :
  fs (status_written job k w) = <[k := File (status_line (status job))]> (fs w).
Proof. simpl. by rewrite insert_insert_eq. Qed.

Lemma _write_status_inv job w w' :
  _write_status job w = Ok tt w' →
  ∃ k, writable_at w (status_file job) k ∧ w' = status_written job k w.
Proof.
  unfold _write_status, mbind, M_bind, modify.
  destruct (open_w _ _) as [k w1| |] eqn:Ho; try done.
  apply open_w_inv in Ho as [Hw ->]. unfold file_write. simpl.
  rewrite lookup_insert_eq. intros [= <-]. exists k. split; [|done].
  by eapply writable_at_ext; [..|exact Hw].
Qed.

Lemma _write_status_writable job w k :
  writable_at w (status_file job) k →
  _write_status job w = Ok tt (status_written job k w).
Proof.
  intros Hw. unfold _write_status, mbind, M_bind, modify.
  rewrite (open_w_writable _ _ k)
    by (by eapply writable_at_ext; [..|exact Hw]).
  unfold file_write. simpl. by rewrite lookup_insert_eq.
Qed.

Lemma _read_status_written job w0 w k c :
  writable_at w0 (status_file job) k →
  fs w = <[k := File c]> (fs w0) → cwd w = cwd w0 →
  _read_status job w
  = Ok (with_status
          (strip (replace "status:" "" (readline (universal_newlines c)).1))
          job)
       (log_access StatusRead w).
Proof.
  intros Hw Hf Hc. unfold _read_status, mbind, M_bind, modify.
  by rewrite (open_r_written w0 _ _ k c).
Qed.

Lemma write_status_inv job s w j w' :
  write_status job s w = Ok j w' →
  lock_held w = false ∧ j = with_status s job ∧
  ∃ k, writable_at w (status_file job) k ∧
       w' = set_lock false (status_written j k (set_lock true w)).
Proof.
  unfold write_status, with_lock. destruct (lock_held w); [done|].
  unfold mbind, M_bind at 1.
  destruct (_write_status _ _) as [[] w1| |] eqn:Hw; try done.
  intros [= <- <-]. apply _write_status_inv in Hw as (k & Hk & ->).
  split; [done|]. split; [done|]. exists k. split; [|done].
  by eapply writable_at_ext; [..|exact Hk].
Qed.

Lemma write_status_writable job s w k :
  lock_held w = false → writable_at w (status_file job) k →
  write_status job s w
  = Ok (with_status s job)
       (set_lock false
          (status_written (with_status s job) k (set_lock true w))).
Proof.
  intros Hl Hk. unfold write_status, with_lock. rewrite Hl.
  unfold mbind, M_bind at 1.
  by rewrite (_write_status_writable _ _ k)
    by (by eapply writable_at_ext; [..|exact Hk]).
Qed.

(** In a world where the status record holds the line of [s], [read_status]
    returns [s]. *)
Lemma read_status_of_line job s w0 w k :
  single_line s = true → strip s = s → contains "status:" s = false →
  writable_at w0 (status_file job) k →
  fs w = <[k := File (status_line s)]> (fs w0) → cwd w = cwd w0 →
  lock_held w = false →
  read_status job w
  = Ok (with_status s job, s)
       (set_lock false (log_access StatusRead (set_lock true w))).
Proof.
  intros Hl Hs Hc Hk Hf Hcwd Hlock. unfold read_status, with_lock.
  rewrite Hlock. unfold mbind, M_bind at 1.
  rewrite (_read_status_written job w0 _ k (status_line s)); [|done..].
  unfold status_line. by rewrite status_line_read_back.
Qed.

Lemma read_text_written w w' p k c :
  writable_at w p k → fs w' = <[k := File c]> (fs w) → cwd w' = cwd w →
  read_text p w' = Some c.
Proof.
  intros Hw Hf Hc. destruct (resolve_written _ _ _ _ _ Hw Hf Hc) as [Hr Hn].
  unfold read_text, open_rb. by rewrite Hr, Hn.
Qed.

(** C10.  Whatever text [s] is, if it is one line, has no blank at either
    end and does not contain ["status:"], then after [write_status(job, s)]
    has returned, the status record holds the line ["status: s"], and
    [read_status] on a job object of that directory, whatever status the
    object carries, returns [s] and sets it: the three lifecycle values are
    not the only ones a job can persist. *)
Theorem status_written_is_read_back (w : world) (job : Job) (s : string)
    (j1 : Job) (w1 : world) :
  single_line s = true → strip s = s → contains "status:" s = false →
  write_status job s w = Ok j1 w1 →
  read_text (status_file job) w1 = Some (status_line s) ∧
  ∀ job', job_dir job' = job_dir job →
    ∃ j2 w2, read_status job' w1 = Ok (j2, s) w2 ∧ status j2 = s.
Proof.
  intros Hl Hs Hc (Hlock & -> & k & Hk & ->)%write_status_inv. split.
  - apply (read_text_written w _ _ k); [done| |done].
    simpl. by rewrite insert_insert_eq.
  - intros job' Hd.
    assert (status_file job' = status_file job) as Hsf
      by (unfold status_file; by rewrite Hd).
    rewrite (read_status_of_line job' s w _ k); try done.
    + by eexists _, _.
    + by rewrite Hsf.
    + simpl. by rewrite insert_insert_eq.
Qed.

Lemma status_written_is_read_back_witness :
  let w1 := Scenario.after (write_status Scenario.jobA "running")
                           Scenario.wA in
  read_text (status_file Scenario.jobA) w1 = Some (status_line "running") ∧
  ∀ job', job_dir job' = job_dir Scenario.jobA →
    ∃ j2 w2, read_status job' w1 = Ok (j2, "running") w2 ∧
             status j2 = "running".
Proof.
  apply (status_written_is_read_back Scenario.wA Scenario.jobA "running"
           (with_status "running" Scenario.jobA));
    [reflexivity | reflexivity | reflexivity | vm_compute; reflexivity].
Defined.

End status_record.

(** ** [run_job] *)

Section runner.

(** C1, amended.  If the [with] block in the [try] statement of [run_job]
    (opening the output file, launching the process, reading and decoding
    its output) raises an exception that is an instance of [Exception], and
    at that moment the lock is free and the status record can be written,
    then [run_job] returns normally, the status record holds ['crashed'] and
    [read_status] returns it.  (Not caught are an exception of the
    data-binding step, which stands before the [try], and a
    [KeyboardInterrupt].) *)
Theorem run_job_absorbs_guarded_failure (sh : shell) (job : Job)
    (w w1 w2 : world) (env : list (string * string)) (e : exn)
    (k : list string) :
  bind_data job w = Ok tt w1 →
  build_env job w1 = Ok env w1 →
  record_output sh job env w1 = Raise e w2 →
  is_Exception e = true →
  lock_held w2 = false →
  writable_at w2 (status_file job) k →
  ∃ j w', run_job sh job w = Ok j w' ∧ status j = "crashed" ∧
          read_text (status_file job) w' = Some (status_line "crashed") ∧
          ∃ j' w'', read_status j w' = Ok (j', "crashed") w''.
Proof.
  intros Hb He Hl Hexc Hlock Hk.
  unfold run_job, launch_and_record, mbind, M_bind, try_except.
  rewrite Hb, He, Hl, Hexc.
  rewrite (write_status_writable _ _ _ k) by done. unfold print.
  eexists _, _. split; [reflexivity|]. split; [done|]. split.
  - apply (read_text_written w2 _ _ k); [done| |done].
    simpl. by rewrite insert_insert_eq.
  - rewrite (read_status_of_line _ "crashed" w2 _ k); try done.
    + by eexists _, _.
    + simpl. by rewrite insert_insert_eq.
Qed.

Lemma run_job_absorbs_guarded_failure_witness :
  ∃ j w', run_job Scenario.sh_fail Scenario.jobA Scenario.wA = Ok j w' ∧
          status j = "crashed" ∧
          read_text (status_file Scenario.jobA) w'
          = Some (status_line "crashed") ∧
          ∃ j' w'', read_status j w' = Ok (j', "crashed") w''.
Proof.
  apply (run_job_absorbs_guarded_failure Scenario.sh_fail Scenario.jobA
           Scenario.wA
           (Scenario.after (bind_data Scenario.jobA) Scenario.wA)
           (Scenario.after
              (record_output Scenario.sh_fail Scenario.jobA
                             [("PATH", "/bin");
                              ("CUDA_VISIBLE_DEVICES", "0,1,")])
              (Scenario.after (bind_data Scenario.jobA) Scenario.wA))
           [("PATH", "/bin"); ("CUDA_VISIBLE_DEVICES", "0,1,")]
           (OSError None "fork failed")
           ["home"; "u"; "jobs"; "A"; "status.txt"]);
    try (vm_compute; reflexivity).
  repeat split; try (vm_compute; reflexivity); [done|].
  right. eexists. vm_compute. reflexivity.
Defined.

(** C6, amended.  If the data binding, the opening of the output file, the
    launch and the streaming all complete and the process exits, with
    whatever code, and if the lock is free and the status record can be
    written when the streaming ends, then [run_job] returns normally, the
    status record holds ['finished'] and [read_status] returns it. *)
Theorem run_job_finished_any_exit_code (sh : shell) (job : Job)
    (w w1 w2 wp w3 w4 : world) (env : list (string * string))
    (f : list string) (out : list out_line) (code : Z)
    (k : list string) :
  bind_data job w = Ok tt w1 →
  build_env job w1 = Ok env w1 →
  open_w (os_path_join (job_dir job) "output.txt") w1 = Ok f w2 →
  print ("Run subprocess: " +:+ cmd job) w2 = Ok tt wp →
  popen sh (cmd job) (os_path_join (job_dir job) "snapshot/") env wp
  = Ok (out, Exit code) w3 →
  stream f out w3 = Ok tt w4 →
  lock_held w4 = false →
  writable_at w4 (status_file job) k →
  ∃ j w', run_job sh job w = Ok j w' ∧ status j = "finished" ∧
          read_text (status_file job) w' = Some (status_line "finished") ∧
          ∃ j' w'', read_status j w' = Ok (j', "finished") w''.
Proof.
  intros Hb He Ho Hp Hl Hs Hlock Hk.
  unfold run_job, launch_and_record, record_output, mbind, M_bind,
    try_except.
  rewrite Hb, He, Ho, Hp, Hl. simpl. rewrite Hs.
  cbn [end_of_output process_wait mret M_ret print].
  rewrite (write_status_writable _ _ _ k) by done.
  eexists _, _. split; [reflexivity|]. split; [done|]. split.
  - apply (read_text_written w4 _ _ k); [done| |done].
    simpl. by rewrite insert_insert_eq.
  - rewrite (read_status_of_line _ "finished" w4 _ k); try done.
    + by eexists _, _.
    + simpl. by rewrite insert_insert_eq.
Qed.

Lemma run_job_finished_any_exit_code_witness :
  ∃ j w', run_job Scenario.sh0 Scenario.jobA Scenario.wA = Ok j w' ∧
          status j = "finished" ∧
          read_text (status_file Scenario.jobA) w'
          = Some (status_line "finished") ∧
          ∃ j' w'', read_status j w' = Ok (j', "finished") w''.
Proof.
  pose (env := [("PATH", "/bin"); ("CUDA_VISIBLE_DEVICES", "0,1,")]).
  pose (f := ["home"; "u"; "jobs"; "A"; "output.txt"]).
  pose (out := [Utf8 ("hi" +:+ nl)]).
  pose (w1 := Scenario.after (bind_data Scenario.jobA) Scenario.wA).
  pose (w2 := Scenario.after (open_w "/home/u/jobs/A/output.txt") w1).
  pose (wp := Scenario.after (print "Run subprocess: echo hi") w2).
  pose (w4 := Scenario.after (stream f out) wp).
  apply (run_job_finished_any_exit_code Scenario.sh0 Scenario.jobA
           Scenario.wA w1 w2 wp wp w4 env f out 3
           ["home"; "u"; "jobs"; "A"; "status.txt"]);
    try (vm_compute; reflexivity).
  repeat split; try (vm_compute; reflexivity); [done|].
  right. eexists. vm_compute. reflexivity.
Defined.

End runner.

(** ** Paths below a directory *)

Section paths.

Implicit Types (f : gmap (list string) node) (k cur comps : list string).

(** A name of one component: not empty, no slash, neither [.] nor [..]. *)
Definition plain_name (c : string) : Prop :=
  split "/" c = [c] ∧ c ≠ "" ∧ c ≠ "." ∧ c ≠ "..".

Lemma split_nonempty sep s : split sep s ≠ [].
Proof.
  destruct s as [|c s]; simpl; [done|].
  destruct (decide (c = sep)); [done|]. by destruct (split sep s).
Qed.

Lemma split_app_sep sep a b :
  split sep (a +:+ String sep b) = split sep a ++ split sep b.
Proof.
  induction a as [|x a IH]; simpl.
  - by destruct (decide (sep = sep)).
  - destruct (decide (x = sep)); [by rewrite IH|].
    rewrite IH. pose proof (split_nonempty sep a).
    by destruct (split sep a).
Qed.

Lemma endswith_char_snoc c d :
  endswith_char c d = true → ∃ a, d = a +:+ String c "".
Proof.
  induction d as [|x d IH]; [done|]. destruct d as [|y d].
  - simpl. intros ->%bool_decide_eq_true. by exists "".
  - intros H. destruct (IH H) as [a Ha]. exists (String x a).
    by rewrite Ha.
Qed.

Lemma endswith_char_app c d s :
  s ≠ "" → endswith_char c (d +:+ s) = endswith_char c s.
Proof.
  intros Hs. induction d as [|x d IH]; [done|].
  change (String x d +:+ s) with (String x (d +:+ s)).
  cbn [endswith_char]. rewrite IH.
  destruct (d +:+ s) eqn:E; [|done]. by destruct d, s.
Qed.

Lemma append_empty_r (s : string) : s +:+ "" = s.
Proof.
  induction s as [|x s IH]; [done|].
  change (String x (s +:+ "") = String x s). by rewrite IH.
Qed.

Lemma append_assoc (a b c : string) : (a +:+ b) +:+ c = a +:+ b +:+ c.
Proof.
  induction a as [|x a IH]; [done|].
  change (String x (a +:+ b) +:+ c = String x (a +:+ b +:+ c)).
  change (String x ((a +:+ b) +:+ c) = String x (a +:+ b +:+ c)).
  by rewrite IH.
Qed.

Lemma startswith_slash_cons x s t :
  startswith "/" (String x s) = startswith "/" (String x t).
Proof.
  unfold startswith. cbn [String.prefix].
  destruct (ascii_dec "/" x); [by destruct s, t | done].
Qed.

Lemma startswith_slash_app d s t :
  d ≠ "" → startswith "/" (d +:+ s) = startswith "/" (d +:+ t).
Proof. destruct d as [|x d]; [done|]. intros _. apply startswith_slash_cons. Qed.

Lemma components_app_sep a b :
  components (a +:+ String "/" b) = components a ++ components b.
Proof. unfold components. by rewrite split_app_sep, filter_app. Qed.

(** Joining a plain name to a directory path adds one component. *)
Lemma os_path_join_plain d c :
  d ≠ "" → plain_name c →
  os_path_join d c ≠ "" ∧
  components (os_path_join d c) = components d ++ [c] ∧
  startswith "/" (os_path_join d c) = startswith "/" d ∧
  endswith_char "/" (os_path_join d c) = endswith_char "/" c.
Proof.
  intros Hd (Hsplit & Hne & Hdot & _).
  assert (components c = [c]) as Hc.
  { unfold components. rewrite Hsplit. by rewrite filter_cons_True. }
  assert (startswith "/" c = false) as Hsl.
  { destruct c as [|x c]; [done|]. unfold startswith. cbn [String.prefix].
    destruct (ascii_dec "/" x) as [<-|]; [|done].
    cbn [split] in Hsplit. by rewrite decide_True in Hsplit. }
  unfold os_path_join. rewrite Hsl. destruct (decide (d = "")); [done|].
  destruct (endswith_char "/" d) eqn:He.
  - apply endswith_char_snoc in He as [a ->].
    rewrite append_assoc. change (String "/" "" +:+ c) with (String "/" c).
    rewrite !components_app_sep, Hc.
    change (components "") with (@nil string). rewrite app_nil_r.
    split; [by destruct a|]. split; [done|].
    split; [|by rewrite (endswith_char_app _ a (String "/" c)); [destruct c|]].
    destruct a as [|x a]; [by destruct c|]. apply startswith_slash_cons.
  - change (d +:+ "/" +:+ c) with (d +:+ String "/" c).
    rewrite components_app_sep, Hc.
    split; [by destruct d|]. split; [done|].
    split.
    + rewrite <- (append_empty_r d) at 2. by apply startswith_slash_app.
    + rewrite (endswith_char_app _ d (String "/" c)) by done.
      destruct c; done.
Qed.

Lemma plain_config : plain_name "config.txt".
Proof. by repeat split. Qed.
Lemma plain_status : plain_name "status.txt".
Proof. by repeat split. Qed.

(** Where one more component leads from the node at [k]. *)
Definition last_step f k (c : string) : resolved :=
  match node_at f k with
  | Some Dir => At (k ++ [c])
  | Some (File _) | Some (Link _) => Fail ENOTDIR
  | None => Fail ENOENT
  end.

(** The entry [c] of the directory at [k] is not a link. *)
Definition no_link_at f k (c : string) : Prop :=
  node_at f k = Some Dir → ∀ t, f !! (k ++ [c]) ≠ Some (Link t).

Definition snoc_ok f (c : string)
    (walk1 walk2 : list string → list string → resolved) : Prop :=
  ∀ cur comps,
    match walk1 cur comps with
    | At k => no_link_at f k c → walk2 cur (comps ++ [c]) = last_step f k c
    | Fail e => walk2 cur (comps ++ [c]) = Fail e
    end.

Lemma walk_with_snoc expand1 expand2 f follow c :
  c ≠ ".." → snoc_ok f c expand1 expand2 →
  snoc_ok f c (walk_with expand1 f true) (walk_with expand2 f follow).
Proof.
  intros Hc Hexp cur comps. revert cur.
  induction comps as [|c0 rest IH]; intros cur.
  - simpl. intros Hnl. unfold last_step.
    destruct (node_at f cur) as [[| |]|] eqn:Hcur; try done.
    destruct (decide (c = "..")); [done|].
    specialize (Hnl Hcur).
    destruct (f !! (cur ++ [c])) as [[| |t]|] eqn:E; try done.
    by destruct (Hnl t).
  - simpl. destruct (node_at f cur) as [[| |]|] eqn:Hcur; try done.
    destruct (decide (c0 = "..")); [apply IH|].
    destruct (f !! (cur ++ [c0])) as [[| |t]|]; try apply IH.
    rewrite andb_false_r.
    assert (bool_decide (rest ++ [c] = []) = false) as ->.
    { apply bool_decide_eq_false. by destruct rest. }
    simpl. rewrite app_assoc. apply Hexp.
Qed.

Lemma walk_snoc links f follow c :
  c ≠ ".." → snoc_ok f c (walk links f true) (walk links f follow).
Proof.
  intros Hc. induction links as [|l IH]; simpl;
    apply walk_with_snoc; try done.
Qed.

(** Resolving [d/c] from the resolution of [d]. *)
Lemma resolve_join w follow d c :
  d ≠ "" → plain_name c → endswith_char "/" c = false →
  match resolve w true d with
  | At k => no_link_at (fs w) k c →
            resolve w follow (os_path_join d c) = last_step (fs w) k c
  | Fail e => resolve w follow (os_path_join d c) = Fail e
  end.
Proof.
  intros Hd Hc Hend.
  destruct (os_path_join_plain d c Hd Hc) as (Hne & Hcomp & Hst & He).
  assert (c ≠ "..") as Hdd by apply Hc.
  unfold resolve. destruct (decide (d = "")); [done|].
  destruct (decide (os_path_join d c = "")); [done|].
  rewrite Hcomp, Hst, He, Hend, orb_false_r. cbn [orb].
  pose proof (walk_snoc 40 (fs w) follow c Hdd
                (if startswith "/" d then [] else cwd w) (components d))
    as Hsn.
  revert Hsn.
  destruct (walk 40 (fs w) true _ (components d)) as [k|e] eqn:Hw;
    intros Hsn; [|by rewrite Hsn].
  assert (∀ k', last_step (fs w) k c = At k' →
                match node_at (fs w) k' with
                | Some (File _) => At k' | _ => At k' end = At k')
    as Hat by (intros; by repeat case_match).
  destruct (node_at (fs w) k) as [[| |]|] eqn:Hn.
  - destruct (endswith_char "/" d).
    + rewrite Hsn; [by unfold last_step; rewrite Hn|].
      intros ?; congruence.
    + intros Hnl. rewrite (Hsn Hnl). unfold last_step. by rewrite Hn.
  - intros Hnl. rewrite (Hsn Hnl). unfold last_step. rewrite Hn.
    by repeat case_match.
  - intros Hnl. rewrite (Hsn Hnl). unfold last_step. by rewrite Hn.
  - intros Hnl. rewrite (Hsn Hnl). unfold last_step. by rewrite Hn.
Qed.

Lemma absent_join w d c :
  d ≠ "" → plain_name c → endswith_char "/" c = false →
  absent w d → absent w (os_path_join d c).
Proof.
  intros Hd Hc He. pose proof (resolve_join w true d c Hd Hc He) as Hj.
  unfold absent. destruct (resolve w true d) as [k|e].
  - intros Hn. rewrite Hj; [by unfold last_step; rewrite Hn|].
    intros ?; congruence.
  - intros ->. by rewrite Hj.
Qed.

Lemma open_r_absent w p :
  absent w p → open_r p w = Raise (os_error ENOENT p) w.
Proof.
  unfold absent, open_r. destruct (resolve w true p) as [k|e].
  - by intros ->.
  - by intros ->.
Qed.

End paths.

(** ** Reading a job *)

Section reading.

Lemma _read_job_unfold d w :
  _read_job d w =
  match open_r (config_file d) w with
  | Ok text w' =>
      match parse_config d text with
      | inr j => _read_status j w'
      | inl gpu => Raise (int_error gpu) w'
      end
  | Raise e w' => Raise e w'
  | Hang => Hang
  end.
Proof.
  unfold _read_job, config_file, mbind, M_bind at 1.
  destruct (open_r _ w) as [text w'| |]; [|done..].
  unfold parse_config, gpus_field, line_at. cbv [Nat.iter nat_rect].
  destruct (readline text) as [l1 f1]. cbn [fst snd].
  destruct (readline f1) as [l2 f2]. cbn [fst snd].
  destruct (readline f2) as [l3 f3]. cbn [fst snd].
  destruct (readline f3) as [l4 f4]. cbn [fst snd].
  destruct (readline f4) as [l5 f5]. cbn [fst snd].
  unfold mbind, M_bind.
  destruct (decide (strip (replace "gpus:" "" l5) = "none")); [done|].
  by destruct (ints_of _).
Qed.

Lemma _read_status_absent j w :
  absent w (status_file j) →
  _read_status j w
  = Raise (os_error ENOENT (status_file j)) (log_access StatusRead w).
Proof.
  intros Ha. unfold _read_status, mbind, M_bind, modify.
  fold (status_file j).
  by rewrite (open_r_absent (log_access StatusRead w) (status_file j)).
Qed.

Lemma open_r_ext p w w' :
  fs w' = fs w → cwd w' = cwd w →
  open_r p w' = match open_r p w with
                | Ok a _ => Ok a w'
                | Raise e _ => Raise e w'
                | Hang => Hang
                end.
Proof.
  intros Hf Hc. unfold open_r. rewrite (resolve_ext w w') by done.
  rewrite Hf. by repeat case_match.
Qed.

Lemma _read_status_present j st w :
  open_r (status_file j) w = Ok st w →
  _read_status j w
  = Ok (with_status (strip (replace "status:" "" (readline st).1)) j)
       (log_access StatusRead w).
Proof.
  intros Ho. unfold _read_status, mbind, M_bind, modify.
  fold (status_file j).
  by rewrite (open_r_ext _ w (log_access StatusRead w)), Ho.
Qed.

Lemma parse_config_job_dir d text j :
  parse_config d text = inr j → job_dir j = d.
Proof.
  unfold parse_config. repeat case_match; try done; by intros [= <-].
Qed.

(** C4, amended.  For a job directory [d]: when [d] or its config record is
    absent, [_read_job] raises [FileNotFoundError]; when the config record
    is read and parses but the status record is absent, it raises
    [FileNotFoundError]; when both records are there it returns a job or
    raises the [ValueError] of [int] on a [gpus] item, nothing else; and a
    config record without a fifth line does parse, to an empty GPU list:
    a missing line or field is no error. *)
Theorem read_job_failures (w : world) (d : string) :
  d ≠ "" →
  (absent w d ∨ absent w (config_file d) →
   raised (_read_job d w) = Some (os_error ENOENT (config_file d)))
  ∧ (∀ text j,
       open_r (config_file d) w = Ok text w →
       parse_config d text = inr j →
       absent w (os_path_join d "status.txt") →
       raised (_read_job d w)
       = Some (os_error ENOENT (os_path_join d "status.txt")))
  ∧ (∀ text st,
       open_r (config_file d) w = Ok text w →
       open_r (os_path_join d "status.txt") w = Ok st w →
       match parse_config d text with
       | inr j =>
           returned (_read_job d w)
           = Some (with_status
                     (strip (replace "status:" "" (readline st).1)) j)
       | inl gpu => raised (_read_job d w) = Some (int_error gpu)
       end
       ∧ (line_at 4 text = "" →
          ∃ j, parse_config d text = inr j ∧ gpus j = Some [])).
Proof.
  intros Hd. split; [|split].
  - intros Ha.
    assert (absent w (config_file d)) as Hc.
    { destruct Ha as [Ha|Ha]; [|done].
      by apply absent_join; [| apply plain_config | |]. }
    by rewrite _read_job_unfold, (open_r_absent _ _ Hc).
  - intros text j Ho Hp Ha. rewrite _read_job_unfold, Ho, Hp.
    pose proof (parse_config_job_dir _ _ _ Hp) as Hj.
    rewrite _read_status_absent; unfold status_file; by rewrite Hj.
  - intros text st Ho Hs. split.
    + rewrite _read_job_unfold, Ho.
      destruct (parse_config d text) as [gpu|j] eqn:Hp; [done|].
      pose proof (parse_config_job_dir _ _ _ Hp) as Hj.
      rewrite (_read_status_present j st); [done|].
      unfold status_file. by rewrite Hj.
    + intros Hl. unfold parse_config, gpus_field. rewrite Hl.
      change (strip (replace "gpus:" "" "")) with "".
      change (ints_of (split "," "")) with (@inr string (list Z) []).
      rewrite decide_False by done. by eexists.
Qed.

Lemma read_job_failures_witness :
  raised (_read_job "jobs/gone" Scenario.wQ)
  = Some (os_error ENOENT "jobs/gone/config.txt")
  ∧ raised (_read_job "jobs/nostatus" Scenario.wQ)
    = Some (os_error ENOENT "jobs/nostatus/status.txt")
  ∧ ∃ j, parse_config "jobs/short"
           (unlines ["code_dir: /c"; "data_dir: /d"; "cmd: echo hi";
                     "time: t1"]) = inr j ∧ gpus j = Some [].
Proof.
  split; [|split].
  - apply (read_job_failures Scenario.wQ "jobs/gone"); [done|].
    left. vm_compute. reflexivity.
  - eapply (read_job_failures Scenario.wQ "jobs/nostatus");
      [done | vm_compute; reflexivity | vm_compute; reflexivity
      | vm_compute; reflexivity].
  - eapply (read_job_failures Scenario.wQ "jobs/short");
      [done | vm_compute; reflexivity | vm_compute; reflexivity
      | vm_compute; reflexivity].
Defined.

End reading.

(** ** The scan of [update] *)

Section scanning.

(** Two worlds with the same file system, working directory and queue
    root. *)
Definition same_os (w w' : world) : Prop :=
  fs w' = fs w ∧ cwd w' = cwd w ∧ queue_dir w' = queue_dir w.

Lemma os_path_isdir_ext p w w' :
  same_os w w' → os_path_isdir p w' = Ok (is_dir w p) w'.
Proof.
  intros (Hf & Hc & _). unfold is_dir, os_path_isdir. simpl.
  by rewrite (resolve_ext w w'), Hf.
Qed.

(** [_read_job] depends on the file system only, and leaves it as it
    is. *)
Lemma _read_job_ext d w w' :
  same_os w w' →
  match read_job_of w d with
  | Some (inr j) => _read_job d w' = Ok j (log_access StatusRead w')
  | Some (inl e) =>
      _read_job d w' = Raise e w' ∨
      _read_job d w' = Raise e (log_access StatusRead w')
  | None => False
  end.
Proof.
  intros (Hf & Hc & _). unfold read_job_of.
  rewrite !_read_job_unfold, (open_r_ext _ w w') by done.
  destruct (open_r (config_file d) w) as [text w1|e w1|] eqn:Ho.
  - assert (w1 = w) as ->.
    { unfold open_r in Ho. by repeat case_match; simplify_eq. }
    destruct (parse_config d text) as [gpu|j]; [by left|].
    unfold _read_status, mbind, M_bind, modify.
    rewrite (open_r_ext _ w (log_access StatusRead w)) by done.
    rewrite (open_r_ext _ w (log_access StatusRead w')) by done.
    unfold mret, M_ret.
    destruct (open_r (os_path_join (job_dir j) "status.txt") w) eqn:E;
      [done|by right|].
    unfold open_r in E. by repeat case_match.
  - by left.
  - unfold open_r in Ho. by repeat case_match.
Qed.

Context (w0 : world).

Definition scan_body (qd job_name : string) : M unit :=
  let job_dir := os_path_join qd job_name in
  isd ← os_path_isdir job_dir;
  if isd : bool then
    try_except
      (curr_job ← _read_job job_dir;
       write_index (dict_set job_name curr_job))
      is_FileNotFoundError
      (λ _, print ("Failed to read job of name: " +:+ job_name))
  else mret tt.

Definition scan_step (d : list (string * Job)) (n : string)
    : list (string * Job) :=
  match scan_pick w0 n with Some j => dict_set n j d | None => d end.

(** Every exception [_read_job] raises on the entry [n] is a
    [FileNotFoundError]. *)
Definition only_not_found (n : string) : Prop :=
  let d := os_path_join (queue_dir w0) n in
  is_dir w0 d = true →
  ∀ e, read_job_of w0 d = Some (inl e) → is_FileNotFoundError e = true.

Lemma scan_body_step n w :
  same_os w0 w → only_not_found n →
  ∃ w', scan_body (queue_dir w0) n w = Ok tt w' ∧ same_os w0 w' ∧
        lock_held w' = lock_held w ∧
        jobs w' = scan_step (jobs w) n ∧
        stdout w' = stdout w ++ scan_log w0 n.
Proof.
  intros Hos Honly. unfold scan_body, mbind, M_bind at 1.
  rewrite (os_path_isdir_ext _ w0 w Hos).
  unfold scan_step, scan_pick, scan_log, only_not_found in *.
  destruct (is_dir w0 _) eqn:Hd.
  2:{ exists w. by rewrite app_nil_r. }
  pose proof (_read_job_ext (os_path_join (queue_dir w0) n) w0 w Hos) as Hr.
  unfold try_except, mbind, M_bind.
  destruct (read_job_of w0 _) as [[e|j]|] eqn:Hj; [| |done].
  - pose proof (Honly eq_refl e eq_refl) as Hnf.
    destruct Hr as [-> | ->]; rewrite Hnf;
      eexists; (split; [reflexivity|]); by destruct Hos as (? & ? & ?).
  - rewrite Hr. eexists. split; [reflexivity|]. simpl.
    rewrite app_nil_r. by destruct Hos as (? & ? & ?).
Qed.

Lemma scan_loop names : ∀ w,
  same_os w0 w → (∀ n, n ∈ names → only_not_found n) →
  ∃ w', for_each names (scan_body (queue_dir w0)) w = Ok tt w' ∧
        same_os w0 w' ∧ lock_held w' = lock_held w ∧
        jobs w' = foldl scan_step (jobs w) names ∧
        stdout w' = stdout w ++ List.concat (scan_log w0 <$> names).
Proof.
  induction names as [|n names IH]; intros w Hos Honly.
  - exists w. simpl. by rewrite app_nil_r.
  - destruct (scan_body_step n w Hos) as (w1 & H1 & Hos1 & Hl1 & Hj1 & Ho1).
    { apply Honly. by left. }
    destruct (IH w1 Hos1) as (w2 & H2 & Hos2 & Hl2 & Hj2 & Ho2).
    { intros m Hm. apply Honly. by right. }
    exists w2. cbn [for_each]. unfold mbind, M_bind at 1. rewrite H1, H2.
    repeat split; try apply Hos2; try congruence.
    + by rewrite Hj2, Hj1.
    + rewrite Ho2, Ho1. simpl. by rewrite app_assoc.
Qed.

Lemma dict_get_set_eq {V} n (v : V) d : dict_get n (dict_set n v d) = Some v.
Proof.
  induction d as [|[k v'] d IH]; simpl.
  - by rewrite decide_True.
  - destruct (decide (n = k)) as [->|Hne]; simpl.
    + by rewrite decide_True.
    + by rewrite decide_False.
Qed.

Lemma dict_get_set_ne {V} n m (v : V) d :
  n ≠ m → dict_get n (dict_set m v d) = dict_get n d.
Proof.
  intros Hne. induction d as [|[k v'] d IH]; simpl.
  - by rewrite decide_False.
  - destruct (decide (m = k)) as [->|Hmk]; simpl.
    + by rewrite !decide_False.
    + destruct (decide (n = k)); [done|]. apply IH.
Qed.

(** The index the scan builds: an entry gives its job, whatever the index
    held before. *)
Lemma dict_get_scan names : ∀ d n,
  dict_get n (foldl scan_step d names)
  = match (if decide (n ∈ names) then scan_pick w0 n else None) with
    | Some j => Some j
    | None => dict_get n d
    end.
Proof.
  induction names as [|m names IH]; intros d n.
  - cbn [foldl]. by destruct (decide (n ∈ [])) as [H%elem_of_nil|].
  - cbn [foldl]. rewrite IH. unfold scan_step.
    assert (n ≠ m → dict_get n match scan_pick w0 m with
                               | Some j => dict_set m j d
                               | None => d
                               end = dict_get n d) as Hne.
    { intros ?. destruct (scan_pick w0 m); [by apply dict_get_set_ne|done]. }
    destruct (decide (n ∈ names)) as [Hin|Hin];
      destruct (decide (n ∈ m :: names)) as [Hin'|Hin'].
    + destruct (scan_pick w0 n) eqn:Hn; [done|].
      destruct (decide (n = m)) as [->|]; [by rewrite Hn|by apply Hne].
    + destruct Hin'. by right.
    + apply elem_of_cons in Hin' as [->|?]; [|done].
      destruct (scan_pick w0 m); [by rewrite dict_get_set_eq|done].
    + apply Hne. intros ->. apply Hin'. by left.
Qed.

End scanning.

Lemma os_listdir_ext p w w' names :
  same_os w w' → os_listdir p w = Ok names w → os_listdir p w' = Ok names w'.
Proof.
  intros (Hf & Hc & _). unfold os_listdir, resolve_dir, mbind, M_bind, get.
  rewrite (resolve_ext w w'), Hf by done.
  destruct (resolve w true p) as [k|e]; [|done].
  destruct (node_at (fs w) k) as [[| |]|]; try done.
  rewrite Hf. by intros [= <-].
Qed.

(** The condition [only_not_found], as a check that computes. *)
Definition only_not_found_check (w : world) (n : string) : bool :=
  let d := os_path_join (queue_dir w) n in
  negb (is_dir w d)
  || match read_job_of w d with
     | Some (inl e) => is_FileNotFoundError e
     | _ => true
     end.

Lemma only_not_found_check_sound w names :
  forallb (only_not_found_check w) names = true →
  ∀ n, n ∈ names → only_not_found w n.
Proof.
  rewrite forallb_forall. intros Hall n Hn Hd e He.
  apply list_elem_of_In, Hall in Hn. unfold only_not_found_check in Hn.
  rewrite Hd, He in Hn. exact Hn.
Qed.

(** C2, amended.  When the queue root can be listed and every exception
    [_read_job] raises on its subdirectories is a [FileNotFoundError],
    [update()] returns normally, leaves the file system as it is, and the
    index holds, under its name, exactly every subdirectory that
    [_read_job] reads; each subdirectory on which [_read_job] raises
    [FileNotFoundError] (its config or status record is missing) is left
    out and one line is printed for it. *)
Theorem update_skips_missing_records (w : world) (names : list string) :
  lock_held w = false →
  os_listdir (queue_dir w) w = Ok names w →
  (∀ n, n ∈ names → only_not_found w n) →
  ∃ w', update w = Ok tt w' ∧ fs w' = fs w ∧ lock_held w' = false ∧
    (∀ n j, dict_get n (jobs w') = Some j
            ↔ n ∈ names ∧ scan_pick w n = Some j) ∧
    stdout w' = stdout w ++ List.concat (scan_log w <$> names) ∧
    (∀ n, n ∈ names →
          is_dir w (os_path_join (queue_dir w) n) = true →
          absent w (config_file (os_path_join (queue_dir w) n)) →
          dict_get n (jobs w') = None ∧
          scan_log w n = ["Failed to read job of name: " +:+ n +:+ nl]).
Proof.
  intros Hlock Hls Honly.
  set (w1 := set_jobs [] (log_access IndexWrite (set_lock true w))).
  assert (same_os w w1) as Hos by done.
  destruct (scan_loop w names w1 Hos Honly)
    as (w2 & H2 & Hos2 & Hl2 & Hj2 & Ho2).
  exists (set_lock false w2).
  assert (∀ n, dict_get n (jobs w2)
               = if decide (n ∈ names) then scan_pick w n else None) as Hget.
  { intros n. rewrite Hj2, dict_get_scan. simpl. by repeat case_match. }
  split.
  { unfold update, with_lock. rewrite Hlock.
    unfold mbind, M_bind, write_index, get. fold w1.
    change (queue_dir w1) with (queue_dir w).
    rewrite (os_listdir_ext _ w w1 names Hos Hls).
    transitivity (match for_each names (scan_body (queue_dir w)) w1 with
                  | Ok a w' => Ok a (set_lock false w')
                  | Raise e w' => Raise e (set_lock false w')
                  | Hang => Hang
                  end); [reflexivity | by rewrite H2]. }
  split; [apply Hos2|]. split; [done|].
  split.
  { intros n j. simpl. rewrite Hget.
    destruct (decide (n ∈ names)); [by split; [|intros [_ ?]]|].
    split; [done|]. by intros [? _]. }
  split; [simpl; by rewrite Ho2|].
  intros n Hn Hd Ha. simpl. rewrite Hget, decide_True by done.
  assert (read_job_of w (os_path_join (queue_dir w) n)
          = Some (inl (os_error ENOENT
                         (config_file (os_path_join (queue_dir w) n)))))
    as Hr.
  { unfold read_job_of. by rewrite _read_job_unfold, (open_r_absent _ _ Ha). }
  unfold scan_pick, scan_log. by rewrite Hd, Hr.
Qed.

Lemma update_skips_missing_records_witness :
  let names := ["empty"; "short"; "nostatus"; "good"] in
  ∃ w', update Scenario.wQ = Ok tt w' ∧ fs w' = fs Scenario.wQ ∧
    lock_held w' = false ∧
    (∀ n j, dict_get n (jobs w') = Some j
            ↔ n ∈ names ∧ scan_pick Scenario.wQ n = Some j) ∧
    stdout w' = stdout Scenario.wQ
                ++ List.concat (scan_log Scenario.wQ <$> names) ∧
    (∀ n, n ∈ names →
          is_dir Scenario.wQ (os_path_join (queue_dir Scenario.wQ) n) = true →
          absent Scenario.wQ
            (config_file (os_path_join (queue_dir Scenario.wQ) n)) →
          dict_get n (jobs w') = None ∧
          scan_log Scenario.wQ n
          = ["Failed to read job of name: " +:+ n +:+ nl]).
Proof.
  apply (update_skips_missing_records Scenario.wQ
           ["empty"; "short"; "nostatus"; "good"]).
  - reflexivity.
  - vm_compute. reflexivity.
  - apply only_not_found_check_sound. vm_compute. reflexivity.
Defined.

(** ** Creating a job directory *)

Section creation.

Implicit Types (f : gmap (list string) node) (k cur comps : list string).

(** Below a missing node of a file system there is nothing. *)
Lemma fs_wf_absent_below f k :
  fs_wf f → node_at f k = None → ∀ k', k `prefix_of` k' → f !! k' = None.
Proof.
  intros Hwf Hk k' [l ->]. induction l as [|c l IH] using rev_ind.
  - rewrite app_nil_r. unfold node_at in Hk.
    by destruct (decide (k = [])).
  - destruct (f !! (k ++ l ++ [c])) as [n|] eqn:E; [|done].
    rewrite app_assoc in E. apply Hwf in E.
    rewrite node_at_nonroot in E; [congruence|].
    intros Hnil. apply app_eq_nil in Hnil as [-> ->].
    unfold node_at in Hk. by rewrite decide_True in Hk.
Qed.

(** [f'] is [f] with something, not a link, put at the free place [k], and
    whatever below it. *)
Definition grown_at f f' k : Prop :=
  k ≠ [] ∧
  (∀ k', k `prefix_of` k' → f !! k' = None) ∧
  (∀ k', ¬ k `prefix_of` k' → f' !! k' = f !! k') ∧
  (∀ t, f' !! k ≠ Some (Link t)).

Lemma walk_with_grow expand expand' f f' follow follow' k :
  grown_at f f' k → (follow = true → follow' = true) →
  (∀ cur comps, expand cur comps = At k → expand' cur comps = At k) →
  ∀ comps cur,
    walk_with expand f follow cur comps = At k →
    walk_with expand' f' follow' cur comps = At k.
Proof.
  intros (Hk & Hfree & Hsame & Hnl) Hfl Hexp.
  assert (∀ cur, node_at f cur = Some Dir → node_at f' cur = Some Dir)
    as Hdir.
  { intros cur. unfold node_at. destruct (decide (cur = [])); [done|].
    intros Hc. rewrite Hsame; [done|]. intros Hp.
    by rewrite (Hfree _ Hp) in Hc. }
  induction comps as [|c0 rest IH]; intros cur; simpl; [done|].
  destruct (node_at f cur) as [[| |]|] eqn:Hcur; try done.
  rewrite (Hdir _ Hcur).
  destruct (decide (c0 = "..")); [apply IH|].
  destruct (decide (k `prefix_of` cur ++ [c0])) as [Hp|Hp].
  - rewrite (Hfree _ Hp). intros Hw.
    assert (cur ++ [c0] = k) as Heq.
    { destruct rest as [|c1 rest]; [by injection Hw|].
      simpl in Hw. unfold node_at in Hw.
      destruct (decide (cur ++ [c0] = [])); [by destruct cur|].
      by rewrite (Hfree _ Hp) in Hw. }
    rewrite Heq in Hw |- *.
    destruct (f' !! k) as [[| |t]|] eqn:E; try by apply IH.
    by destruct (Hnl t).
  - rewrite (Hsame _ Hp).
    destruct (f !! (cur ++ [c0])) as [[| |t]|]; try apply IH.
    destruct rest as [|c1 rest]; simpl.
    + destruct follow; simpl.
      * rewrite (Hfl eq_refl). apply Hexp.
      * intros [= <-]. by destruct Hp.
    + apply Hexp.
Qed.

Lemma walk_grow links f f' follow follow' k cur comps :
  grown_at f f' k → (follow = true → follow' = true) →
  walk links f follow cur comps = At k →
  walk links f' follow' cur comps = At k.
Proof.
  intros Hg Hfl. revert cur comps.
  induction links as [|l IH]; intros cur comps; simpl;
    apply (walk_with_grow _ _ f f'); auto; done.
Qed.

(** A directory made at a free place: the path that led to the place leads
    to the directory. *)
Lemma resolve_grow w w' follow p k :
  resolve w follow p = At k →
  grown_at (fs w) (fs w') k → cwd w' = cwd w →
  fs w' !! k = Some Dir →
  resolve w' true p = At k.
Proof.
  intros [Hp Hw]%resolve_At_walk Hg Hc Hd.
  unfold resolve. destruct (decide (p = "")); [done|].
  cbn [orb].
  rewrite Hc, (walk_grow 40 (fs w) (fs w') _ true k _ _ Hg (λ _, eq_refl) Hw).
  rewrite node_at_nonroot by apply Hg. by rewrite Hd.
Qed.

Lemma grown_at_insert f k v :
  k ≠ [] → (∀ k', k `prefix_of` k' → f !! k' = None) →
  (∀ t, v ≠ Link t) → grown_at f (<[k := v]> f) k.
Proof.
  intros Hk Hfree Hv. split; [done|]. split; [done|]. split.
  - intros k' Hp. rewrite lookup_insert_ne; [done|]. by intros <-.
  - intros t. rewrite lookup_insert_eq. intros [= ?]. by eapply Hv.
Qed.

Lemma makedirs_loop_parent fuel name w :
  os_path_exists (makedirs_split name).1 w = Ok true w →
  makedirs_loop fuel name w = os_mkdir name w.
Proof.
  intros Hex. destruct fuel; simpl; destruct (makedirs_split name) as [h t];
    unfold mbind, M_bind; simpl in Hex; rewrite Hex; simpl;
    by rewrite !andb_false_r.
Qed.

Lemma os_mkdir_free p w k :
  resolve w false p = At k → node_at (fs w) k = None →
  os_mkdir p w = Ok tt (set_fs (<[k := Dir]> (fs w)) w).
Proof. intros Hr Hn. unfold os_mkdir. by rewrite Hr, Hn. Qed.

Lemma os_path_exists_dir p w k :
  resolve w true p = At k → node_at (fs w) k = Some Dir →
  os_path_exists p w = Ok true w.
Proof. intros Hr Hn. unfold os_path_exists. by rewrite Hr, Hn. Qed.

(** *** The text of [d/snapshot/] *)

Lemma split_last_app a b :
  (split_last b).1 ≠ "" →
  split_last (a +:+ b) = (a +:+ (split_last b).1, (split_last b).2).
Proof.
  intros Hb. induction a as [|x a IH].
  { change ("" +:+ b) with b. change ("" +:+ (split_last b).1)
      with (split_last b).1. by destruct (split_last b). }
  change (String x a +:+ b) with (String x (a +:+ b)).
  cbn [split_last]. rewrite IH. cbn [fst snd].
  destruct (decide (a +:+ (split_last b).1 = "")) as [E|]; [|done].
  destruct a; [done|discriminate].
Qed.

Lemma all_slashes_app a b :
  all_slashes (a +:+ b) = all_slashes a && all_slashes b.
Proof.
  induction a as [|x a IH]; [done|].
  change (String x a +:+ b) with (String x (a +:+ b)).
  cbn [all_slashes]. by rewrite IH, andb_assoc.
Qed.

Lemma rstrip_slash_app a b :
  rstrip_slash b ≠ "" → rstrip_slash (a +:+ b) = a +:+ rstrip_slash b.
Proof.
  intros Hb. induction a as [|x a IH]; [done|].
  change (String x a +:+ b) with (String x (a +:+ b)).
  cbn [rstrip_slash]. rewrite IH.
  change (String x a +:+ rstrip_slash b)
    with (String x (a +:+ rstrip_slash b)).
  destruct (a +:+ rstrip_slash b) eqn:E; [|done].
  destruct a; [done|discriminate].
Qed.

Lemma rstrip_slash_tidy d :
  endswith_char "/" d = false → rstrip_slash d = d.
Proof.
  induction d as [|x d IH]; [done|]. destruct d as [|y d].
  - simpl. rewrite bool_decide_eq_false. intros Hx.
    by rewrite decide_False.
  - intros He. change (endswith_char "/" (String y d) = false) in He.
    cbn [rstrip_slash]. cbn [rstrip_slash] in IH. rewrite (IH He).
    done.
Qed.

Lemma all_slashes_tidy d :
  d ≠ "" → endswith_char "/" d = false → all_slashes d = false.
Proof.
  induction d as [|x d IH]; [done|]. intros _. destruct d as [|y d].
  - simpl. rewrite bool_decide_eq_false. intros Hx.
    by rewrite bool_decide_false.
  - intros He. change (endswith_char "/" (String y d) = false) in He.
    cbn [all_slashes]. cbn [all_slashes] in IH. rewrite (IH ltac:(done) He).
    by rewrite andb_false_r.
Qed.

Lemma os_path_join_snapshot d :
  d ≠ "" → endswith_char "/" d = false →
  let p := os_path_join d "snapshot/" in
  p ≠ "" ∧ components p = components d ++ ["snapshot"] ∧
  startswith "/" p = startswith "/" d ∧ endswith_char "/" p = true ∧
  makedirs_split p = (d, "snapshot").
Proof.
  intros Hd He p.
  assert (p = d +:+ String "/" "snapshot/") as Hp.
  { unfold p, os_path_join. change (startswith "/" "snapshot/") with false.
    cbv iota. by rewrite decide_False, He. }
  split; [rewrite Hp; by destruct d|]. split.
  { rewrite Hp, components_app_sep. done. }
  split.
  { rewrite Hp. rewrite <- (append_empty_r d) at 2.
    by apply startswith_slash_app. }
  split.
  { rewrite Hp. by rewrite endswith_char_app. }
  unfold makedirs_split, os_path_split. rewrite Hp.
  rewrite (split_last_app d "/snapshot/") by done.
  change (split_last "/snapshot/") with ("/snapshot/", ""). cbn [fst snd].
  rewrite all_slashes_app. change (all_slashes "/snapshot/") with false.
  rewrite andb_false_r. cbn [negb andb].
  rewrite bool_decide_false by (by destruct d). cbn [negb andb].
  rewrite decide_True by done.
  rewrite (rstrip_slash_app d "/snapshot/") by done.
  change (rstrip_slash "/snapshot/") with "/snapshot".
  rewrite (split_last_app d "/snapshot") by done.
  change (split_last "/snapshot") with ("/", "snapshot"). cbn [fst snd].
  rewrite bool_decide_false by (by destruct d).
  rewrite all_slashes_app, (all_slashes_tidy d) by done. cbn [negb andb].
  f_equal.
  assert (rstrip_slash (d +:+ "/") = rstrip_slash d) as ->.
  { clear. induction d as [|x d IH]; [done|].
    change (String x d +:+ "/") with (String x (d +:+ "/")).
    cbn [rstrip_slash]. by rewrite IH. }
  by apply rstrip_slash_tidy.
Qed.

(** Resolving a path [p] that is [d] and one more component [c], in the
    directory [k] that [d] names, when the entry [c] is not a link. *)
Lemma resolve_child w follow d p c k :
  p ≠ "" → components p = components d ++ [c] →
  startswith "/" p = startswith "/" d → c ≠ ".." →
  resolve w true d = At k → node_at (fs w) k = Some Dir →
  (∀ t, fs w !! (k ++ [c]) ≠ Some (Link t)) →
  resolve w follow p
  = match fs w !! (k ++ [c]) with
    | Some (File _) =>
        if endswith_char "/" p then Fail ENOTDIR else At (k ++ [c])
    | _ => At (k ++ [c])
    end.
Proof.
  intros Hp Hcomp Hst Hc [Hd Hw]%resolve_At_walk Hn Hnl.
  unfold resolve. destruct (decide (p = "")); [done|].
  rewrite Hcomp, Hst.
  pose proof (walk_snoc 40 (fs w) (follow || endswith_char "/" p) c Hc
                (if startswith "/" d then [] else cwd w) (components d))
    as Hsn.
  cbn [orb] in Hw. rewrite Hw in Hsn. rewrite Hsn by (by intros _).
  unfold last_step. rewrite Hn.
  by rewrite node_at_nonroot by (by destruct k).
Qed.

Lemma resolve_new_child w follow d p c k :
  p ≠ "" → components p = components d ++ [c] →
  startswith "/" p = startswith "/" d → c ≠ ".." →
  resolve w true d = At k → node_at (fs w) k = Some Dir →
  fs w !! (k ++ [c]) = None →
  resolve w follow p = At (k ++ [c]).
Proof.
  intros Hp Hcomp Hst Hc Hr Hn Hfree.
  rewrite (resolve_child w follow d p c k); try done.
  - by rewrite Hfree.
  - intros t. congruence.
Qed.

(** *** [shutil.copytree] writes below its destination only *)

(** [shutil.copytree] writes at and below the names it copies only. *)
Lemma copy_names_writes depth ignore : ∀ src dst ks kd names f k,
  (∀ n, n ∈ names → ¬ (kd ++ [n]) `prefix_of` k) →
  copied_fs (copy_names depth ignore src dst ks kd names f) !! k = f !! k.
Proof.
  induction depth as [|d IHd]; intros src dst ks kd names f k Hk.
  - cbn [copy_names].
    change (f !! k) with (copied_fs (mkCopied f [] false) !! k).
    generalize (mkCopied f [] false).
    induction names as [|n names IH]; intros acc; [done|].
    cbn [foldl]. rewrite IH by (intros n' Hn'; apply Hk; by right).
    destruct (too_deep acc); [done|].
    destruct (entry_at (copied_fs acc) (ks ++ [n])); try done.
    cbn [copied_fs]. rewrite lookup_insert_ne; [done|].
    intros <-. by apply (Hk n); [left|].
  - cbn [copy_names].
    change (f !! k) with (copied_fs (mkCopied f [] false) !! k).
    generalize (mkCopied f [] false).
    induction names as [|n names IH]; intros acc; [done|].
    cbn [foldl]. rewrite IH by (intros n' Hn'; apply Hk; by right).
    destruct (too_deep acc); [done|].
    destruct (entry_at (copied_fs acc) (ks ++ [n])); try done.
    + cbn [copied_fs]. rewrite lookup_insert_ne; [done|].
      intros <-. by apply (Hk n); [left|].
    + cbn [copied_fs]. rewrite IHd.
      * rewrite lookup_insert_ne; [done|].
        intros <-. by apply (Hk n); [left|].
      * intros n' _ Hp. apply (Hk n); [by left|].
        etrans; [|exact Hp]. by apply prefix_app_r.
Qed.

Lemma copy_names_frame depth ignore src dst ks kd names f k :
  ¬ kd `prefix_of` k →
  copied_fs (copy_names depth ignore src dst ks kd names f) !! k = f !! k.
Proof.
  intros Hk. apply copy_names_writes. intros n _ Hp. apply Hk.
  etrans; [|exact Hp]. by apply prefix_app_r.
Qed.

Lemma resolve_dir_inv p w :
  (∃ k, resolve_dir p w = Ok k w ∧ resolve w true p = At k
        ∧ node_at (fs w) k = Some Dir)
  ∨ (∃ e, resolve_dir p w = Raise e w ∧ is_OSError e = true).
Proof.
  unfold resolve_dir. destruct (resolve w true p) as [k|e]; [|by right; eexists].
  destruct (node_at (fs w) k) as [[| |]|] eqn:Hn;
    try (by right; eexists). left. by exists k.
Qed.

Lemma set_fs_same w : set_fs (fs w) w = w.
Proof. by destruct w. Qed.

(** A failed copy into the new directory [k/snapshot/] of a job: the world
    differs from the one before only below [k/snapshot]. *)
Lemma copytree_into_fresh w1 src jd k ignore e w2 :
  jd ≠ "" → endswith_char "/" jd = false →
  resolve w1 true jd = At k → node_at (fs w1) k = Some Dir →
  (∀ k', k ++ ["snapshot"] `prefix_of` k' → fs w1 !! k' = None) →
  shutil_copytree src (os_path_join jd "snapshot/") ignore w1 = Raise e w2 →
  ∃ f2, w2 = set_fs f2 w1 ∧
        ∀ k', ¬ k ++ ["snapshot"] `prefix_of` k' → f2 !! k' = fs w1 !! k'.
Proof.
  intros Hjd He Hr Hn Hfree.
  destruct (os_path_join_snapshot jd Hjd He) as (Hp & Hcomp & Hst & Hend & Hms).
  set (dst := os_path_join jd "snapshot/") in *.
  set (kd := k ++ ["snapshot"]) in *.
  unfold shutil_copytree, mbind.
  unfold M_bind at 1.
  destruct (resolve_dir_inv src w1) as [(ks & -> & _)|(e' & -> & He')].
  2:{ intros [= <- <-]. exists (fs w1). by rewrite set_fs_same. }
  unfold M_bind at 1, get. unfold M_bind at 1.
  assert (resolve w1 false dst = At kd) as Hdst.
  { apply (resolve_new_child w1 false jd dst "snapshot" k); try done.
    apply Hfree. done. }
  unfold os_makedirs.
  rewrite makedirs_loop_parent
    by (rewrite Hms; by apply (os_path_exists_dir jd w1 k)).
  rewrite (os_mkdir_free dst w1 kd Hdst)
    by (rewrite node_at_nonroot by (by destruct k); by apply Hfree).
  set (w1b := set_fs (<[kd := Dir]> (fs w1)) w1).
  assert (grown_at (fs w1) (fs w1b) kd) as Hg.
  { apply grown_at_insert; [by destruct k | done | done]. }
  unfold M_bind at 1. unfold resolve_dir.
  rewrite (resolve_grow w1 w1b false dst kd Hdst Hg)
    by (try done; apply lookup_insert_eq).
  rewrite node_at_nonroot by (by destruct k).
  change (fs w1b) with (<[kd := Dir]> (fs w1)). rewrite lookup_insert_eq.
  unfold copy_into.
  set (r := copy_names _ _ _ _ _ _ _ _).
  assert (∀ k', ¬ kd `prefix_of` k' → copied_fs r !! k' = fs w1 !! k') as Hfr.
  { intros k' Hk'. unfold r. rewrite copy_names_frame by done.
    change (fs w1b) with (<[kd := Dir]> (fs w1)).
    rewrite lookup_insert_ne; [done|]. intros <-. by apply Hk'. }
  intros Hraise. exists (copied_fs r). split; [|exact Hfr].
  destruct (too_deep r); [by injection Hraise as <- <-|].
  destruct (copy_errors r); [done|]. by injection Hraise as <- <-.
Qed.

(** *** Absolute paths have no trailing slash *)

Lemma split_elem_tidy sep s c :
  c ∈ split sep s → endswith_char sep c = false.
Proof.
  revert c. induction s as [|x s IH]; intros c; simpl.
  - by intros ->%list_elem_of_singleton.
  - destruct (decide (x = sep)) as [->|Hx].
    + intros [->|Hc]%elem_of_cons; [done|by apply IH].
    + pose proof (split_nonempty sep s).
      destruct (split sep s) as [|h t]; [done|].
      intros [->|Hc]%elem_of_cons.
      * assert (endswith_char sep h = false) as Hh by (apply IH; by left).
        destruct h; simpl; [by apply bool_decide_eq_false|done].
      * apply IH. by right.
Qed.

(** A component: not empty and not ending with a slash. *)
Definition tidy_comp (c : string) : Prop :=
  c ≠ "" ∧ endswith_char "/" c = false.

Lemma Forall_removelast {A} (P : A → Prop) (l : list A) :
  Forall P l → Forall P (removelast l).
Proof.
  induction 1 as [|x l Hx Hl IH]; [done|].
  destruct l; [done|]. by constructor.
Qed.

Lemma join_tidy comps :
  comps ≠ [] → Forall tidy_comp comps →
  join "/" comps ≠ "" ∧ endswith_char "/" (join "/" comps) = false.
Proof.
  induction comps as [|c comps IH]; [done|]. intros _ Hall.
  apply Forall_cons in Hall as [[Hc He] Hall].
  destruct comps as [|c' comps]; [done|].
  destruct (IH ltac:(done) Hall) as [Hne Hend].
  change (join "/" (c :: c' :: comps))
    with (c +:+ String "/" (join "/" (c' :: comps))).
  split; [by destruct c|].
  rewrite endswith_char_app by done.
  change (endswith_char "/" (join "/" (c' :: comps)) = false) in Hend.
  revert Hne Hend. by destruct (join "/" (c' :: comps)).
Qed.

Lemma normpath_tidy q :
  endswith_char "/" (normpath q) = true →
  components (normpath q) = [] ∧ startswith "/" (normpath q) = true.
Proof.
  unfold normpath. destruct (decide (q = "")); [done|].
  set (slashes := if startswith "/" q
                  then if startswith "//" q && negb (startswith "///" q)
                       then 2 else 1
                  else 0).
  set (step := λ (acc : list string) (comp : string), _).
  assert (∀ l acc, Forall tidy_comp acc →
                   (∀ c, c ∈ l → endswith_char "/" c = false) →
                   Forall tidy_comp (foldl step acc l)) as Hfold.
  { induction l as [|c l IH]; intros acc Hacc Hl; [done|].
    cbn [foldl]. apply IH; [|intros; apply Hl; by right].
    unfold step. destruct (decide (c = "" ∨ c = ".")) as [|Hc]; [done|].
    destruct (decide _).
    - apply Forall_app. split; [done|]. constructor; [|done].
      split; [intros ->; apply Hc; by left|]. apply Hl. by left.
    - by apply Forall_removelast. }
  specialize (Hfold (split "/" q) [] (Forall_nil_2 _)
                (λ c, split_elem_tidy "/" q c)).
  destruct (foldl step [] (split "/" q)) as [|c comps] eqn:Hcomps.
  - destruct slashes as [|[|?]]; simpl; done.
  - destruct (join_tidy (c :: comps) ltac:(done) Hfold) as [Hne Hend].
    set (pre := match slashes with 0 => "" | 1 => "/" | _ => "//" end).
    destruct (decide (pre +:+ join "/" (c :: comps) = "")); [done|].
    by rewrite endswith_char_app, Hend.
Qed.

Lemma abspath_tidy w x k :
  resolve w false (abspath w x) = At k → node_at (fs w) k = None →
  endswith_char "/" (abspath w x) = false.
Proof.
  intros [_ Hw]%resolve_At_walk Hn.
  destruct (endswith_char "/" (abspath w x)) eqn:He; [|done].
  unfold abspath in *. apply normpath_tidy in He as [Hc Hs].
  rewrite Hc, Hs in Hw.
  cbn in Hw. by injection Hw as <-.
Qed.

(** *** The records of a new job *)

Lemma bind_ok {A B} (m : M A) (k : A → M B) w a w' :
  m w = Ok a w' → (m ≫= k) w = k a w'.
Proof. intros H. unfold mbind, M_bind. by rewrite H. Qed.

Lemma resolve_free_follow w p k :
  fs_wf (fs w) → resolve w false p = At k → node_at (fs w) k = None →
  resolve w true p = At k.
Proof.
  intros Hwf [Hp Hw]%resolve_At_walk Hn.
  assert (k ≠ []) as Hk by (by intros ->).
  assert (grown_at (fs w) (fs w) k) as Hg.
  { split; [done|]. split; [by apply fs_wf_absent_below|]. split; [done|].
    intros t. rewrite node_at_nonroot in Hn by done. congruence. }
  unfold resolve. destruct (decide (p = "")); [done|]. cbn [orb].
  rewrite (walk_grow 40 (fs w) (fs w) _ true k _ _ Hg (λ _, eq_refl) Hw).
  by rewrite Hn.
Qed.

(** [wx] is [w] with a directory at the place [k] and whatever below. *)
Definition job_dir_made (w wx : world) (k : list string) : Prop :=
  cwd wx = cwd w ∧ fs wx !! k = Some Dir ∧
  ∀ k', ¬ k `prefix_of` k' → fs wx !! k' = fs w !! k'.

Section new_job.

Context (w : world) (jd : string) (k : list string).
Hypothesis (Hwf : fs_wf (fs w)).
Hypothesis (Hr : resolve w false jd = At k).
Hypothesis (Hn : node_at (fs w) k = None).

Lemma new_job_key : k ≠ [] ∧ jd ≠ "".
Proof.
  split; [by intros ->|]. by apply resolve_At_walk in Hr as [? _].
Qed.

Lemma new_job_below k' : k `prefix_of` k' → fs w !! k' = None.
Proof. by apply fs_wf_absent_below. Qed.

Lemma job_dir_made_resolve wx :
  job_dir_made w wx k →
  resolve wx true jd = At k ∧ node_at (fs wx) k = Some Dir.
Proof.
  intros (Hc & Hd & Hsame). destruct new_job_key as [Hk _].
  split; [|by rewrite node_at_nonroot].
  apply (resolve_grow w wx false); try done.
  split; [done|]. split; [apply new_job_below|]. split; [done|].
  intros t. congruence.
Qed.

Lemma record_writable wx c :
  job_dir_made w wx k → plain_name c → endswith_char "/" c = false →
  fs wx !! (k ++ [c]) = None →
  writable_at wx (os_path_join jd c) (k ++ [c]).
Proof.
  intros Hm Hc He Hfree. destruct new_job_key as [Hk Hjd].
  destruct (job_dir_made_resolve wx Hm) as [Hrx Hnx].
  destruct (os_path_join_plain jd c Hjd Hc) as (Hne & Hcomp & Hst & Hend).
  split; [|split].
  - apply (resolve_new_child wx true jd _ c k); try done. apply Hc.
  - by rewrite Hend.
  - split; [by destruct k|]. by left.
Qed.

Lemma record_readable wx c text :
  job_dir_made w wx k → plain_name c → endswith_char "/" c = false →
  fs wx !! (k ++ [c]) = Some (File text) →
  read_text (os_path_join jd c) wx = Some text.
Proof.
  intros Hm Hc He Hfile. destruct new_job_key as [Hk Hjd].
  destruct (job_dir_made_resolve wx Hm) as [Hrx Hnx].
  destruct (os_path_join_plain jd c Hjd Hc) as (Hne & Hcomp & Hst & Hend).
  unfold read_text, open_rb.
  rewrite (resolve_child wx true jd _ c k); try done.
  - rewrite Hfile, Hend, He.
    rewrite node_at_nonroot by (by destruct k). by rewrite Hfile.
  - apply Hc.
  - intros t. congruence.
Qed.

End new_job.

Lemma file_write_written h c s f w :
  file_write h s (set_fs (<[h := File c]> f) w)
  = Ok tt (set_fs (<[h := File (c +:+ s)]> f) w).
Proof.
  unfold file_write. simpl. by rewrite lookup_insert_eq, insert_insert_eq.
Qed.

Lemma copy_absorbs src dst ign w1 e w2 :
  shutil_copytree src dst (ignore_function ign) w1 = Raise e w2 →
  is_OSError e = true → errno_is_ENOTDIR e = false →
  copy src dst (Some ign) w1
  = Ok tt (set_stdout
             (stdout w2 ++ [("Directory not copied. Error: " +:+ exn_str e)
                            +:+ nl]) w2).
Proof.
  intros Hc Hos Hne. unfold copy, try_except. by rewrite Hc, Hos, Hne.
Qed.

Lemma app_cons_ne {A} (k : list A) c l : k ++ c :: l ≠ k.
Proof.
  intros H. apply (f_equal List.length) in H. rewrite length_app in H.
  simpl in H. lia.
Qed.

Lemma snapshot_not_prefix k c l :
  c ≠ "snapshot" → ¬ k ++ ["snapshot"] `prefix_of` k ++ c :: l.
Proof.
  intros Hc Hp. apply prefix_app_inv in Hp.
  by apply prefix_cons_inv_1 in Hp.
Qed.

(** [_write_job] for a new job whose code cannot be copied. *)
Lemma _write_job_copy_failed w job k e w2 :
  fs_wf (fs w) →
  resolve w false (job_dir job) = At k → node_at (fs w) k = None →
  endswith_char "/" (job_dir job) = false →
  os_path_exists (makedirs_split (job_dir job)).1 w = Ok true w →
  shutil_copytree (code_dir job) (os_path_join (job_dir job) "snapshot/")
    (ignore_function [(os_path_split (data_dir job)).2])
    (set_fs (<[k := Dir]> (fs w)) w) = Raise e w2 →
  is_OSError e = true → errno_is_ENOTDIR e = false →
  ∃ w', _write_job job w = Ok tt w' ∧ job_dir_made w w' k ∧
        lock_held w' = lock_held w ∧
        fs w' !! (k ++ ["config.txt"]) = Some (File (config_text job)) ∧
        fs w' !! (k ++ ["status.txt"])
        = Some (File (status_line (status job))) ∧
        stdout w' = stdout w ++ [("Directory not copied. Error: "
                                  +:+ exn_str e) +:+ nl].
Proof.
  intros Hwf Hr Hn Htidy Hpar Hcopy Hos Herr.
  destruct (new_job_key w _ k Hr Hn) as [Hk Hjd].
  pose proof (new_job_below w k Hwf Hn) as Hbelow.
  set (w1 := set_fs (<[k := Dir]> (fs w)) w) in *.
  assert (job_dir_made w w1 k) as Hm1.
  { split; [done|]. split; [apply lookup_insert_eq|].
    intros k' Hk'. apply lookup_insert_ne. intros <-. by apply Hk'. }
  destruct (job_dir_made_resolve w _ k Hwf Hr Hn w1 Hm1) as [Hr1 Hn1].
  assert (∀ l, fs w1 !! (k ++ l) = if decide (l = []) then Some Dir
                                   else None) as Hw1.
  { intros l. simpl. destruct (decide (l = [])) as [->|Hl].
    - rewrite app_nil_r. apply lookup_insert_eq.
    - rewrite lookup_insert_ne.
      + apply Hbelow. by apply prefix_app_r.
      + intros Heq. apply Hl. rewrite <- (app_nil_r k) in Heq at 1.
        by apply app_inv_head in Heq. }
  destruct (copytree_into_fresh w1 (code_dir job) (job_dir job) k
              (ignore_function [(os_path_split (data_dir job)).2]) e w2
              Hjd Htidy Hr1 Hn1)
    as (f2 & -> & Hfr); [|exact Hcopy|].
  { intros k' [l ->]. rewrite <- app_assoc, Hw1. by rewrite decide_False. }
  set (w3 := set_stdout
               (stdout (set_fs f2 w1)
                ++ [("Directory not copied. Error: " +:+ exn_str e) +:+ nl])
               (set_fs f2 w1)).
  assert (∀ c l, c ≠ "snapshot" → f2 !! (k ++ c :: l) = None) as Hf2.
  { intros c l Hc. rewrite Hfr by (by apply snapshot_not_prefix).
    rewrite Hw1. by rewrite decide_False. }
  assert (job_dir_made w w3 k) as Hm3.
  { split; [done|]. split.
    - simpl. rewrite Hfr.
      + specialize (Hw1 []). rewrite app_nil_r in Hw1. by rewrite Hw1.
      + intros [l Hl]. rewrite <- (app_nil_r k) in Hl at 1.
        rewrite <- app_assoc in Hl. by apply app_inv_head in Hl.
    - intros k' Hk'. simpl. rewrite Hfr.
      + apply Hm1, Hk'.
      + intros Hp. apply Hk'. etrans; [|exact Hp]. by apply prefix_app_r. }
  set (kc := k ++ ["config.txt"]). set (ks := k ++ ["status.txt"]).
  assert (writable_at w3 (os_path_join (job_dir job) "config.txt") kc) as Hwc.
  { apply (record_writable w _ k Hwf Hr Hn w3 "config.txt" Hm3
             plain_config eq_refl).
    simpl. by apply Hf2. }
  set (w5 := set_fs (<[kc := File (config_text job)]> (fs w3)) w3).
  assert (job_dir_made w w5 k) as Hm5.
  { destruct Hm3 as (Hc3 & Hd3 & Hs3). split; [done|]. split.
    - simpl. rewrite lookup_insert_ne; [exact Hd3|]. apply app_cons_ne.
    - intros k' Hk'. simpl. rewrite lookup_insert_ne; [by apply Hs3|].
      intros <-. apply Hk'. by apply prefix_app_r. }
  assert (writable_at w5 (status_file job) ks) as Hws.
  { apply (record_writable w _ k Hwf Hr Hn w5 "status.txt" Hm5
             plain_status eq_refl).
    simpl. rewrite lookup_insert_ne.
    - by apply Hf2.
    - intros Heq. by apply app_inv_head in Heq. }
  exists (status_written job ks w5). split.
  { unfold _write_job.
    erewrite bind_ok
      by (unfold os_path_exists;
          by rewrite (resolve_free_follow _ _ _ Hwf Hr Hn), Hn).
    erewrite bind_ok by reflexivity.
    erewrite bind_ok
      by (unfold os_makedirs; rewrite makedirs_loop_parent by exact Hpar;
          by apply os_mkdir_free).
    cbv beta zeta.
    erewrite bind_ok by (by apply copy_absorbs).
    erewrite bind_ok by (by apply open_w_writable).
    do 5 (erewrite bind_ok by apply file_write_written).
    by apply _write_status_writable. }
  split.
  { destruct Hm5 as (Hc5 & Hd5 & Hs5). split; [done|]. split.
    - rewrite fs_status_written, lookup_insert_ne; [exact Hd5|].
      apply app_cons_ne.
    - intros k' Hk'. rewrite fs_status_written, lookup_insert_ne;
        [by apply Hs5|].
      intros <-. apply Hk'. by apply prefix_app_r. }
  split; [done|]. split.
  { rewrite fs_status_written, lookup_insert_ne.
    - apply lookup_insert_eq.
    - intros Heq. by apply app_inv_head in Heq. }
  split; [by rewrite fs_status_written, lookup_insert_eq|done].
Qed.

Lemma fs_wf_check_sound f : fs_wf_check f = true → fs_wf f.
Proof.
  unfold fs_wf_check. rewrite forallb_forall. intros Hall k c n Hk.
  assert (List.In (k ++ [c], n) (map_to_list f)) as Hin
    by (apply list_elem_of_In; by apply elem_of_map_to_list).
  apply Hall in Hin. cbn [fst] in Hin. rewrite removelast_last in Hin.
  by destruct (node_at f k) as [[| |]|].
Qed.

Lemma copytree_absent_source src dst ign w :
  absent w src →
  shutil_copytree src dst ign w = Raise (os_error ENOENT src) w.
Proof.
  unfold absent, shutil_copytree, mbind, M_bind, resolve_dir.
  destruct (resolve w true src); by intros ->.
Qed.

End creation.

(** C9, amended.  [add_job] for a job directory that does not exist yet,
    in an existing directory: if, once the job directory is made, the code
    path does not exist (no such file or directory) or [shutil.copytree]
    raises an [OSError] other than "not a directory", then [add_job]
    returns the job, with status ['ready']; the job directory is there with
    its config record and its status record ['ready'], and the one line
    printed is the message of [copy].  (An exception of [shutil.copytree]
    that is no [OSError], as the [RecursionError] of a copy into its own
    source, is not absorbed.) *)
Theorem add_job_absorbs_copy_failure (w : world) (job_name : option string)
    (code data cmd : string) (job_time : option string)
    (gpus : option (list Z)) (k : list string) (e : exn) :
  let name := match job_name with
              | Some n => n
              | None => "job_" +:+ clock_time w
              end in
  let t := match job_time with Some t => t | None => clock_now w end in
  let job := Job_init w (abspath w (expanduser w code))
                      (abspath w (expanduser w data)) cmd
                      (os_path_join (queue_dir w) name) gpus t "ready" name in
  let w1 := set_fs (<[k := Dir]> (fs w)) (set_lock true w) in
  let snapshot_dir := os_path_join (job_dir job) "snapshot/" in
  let ignore := ignore_function [(os_path_split (data_dir job)).2] in
  lock_held w = false → fs_wf (fs w) →
  resolve w false (job_dir job) = At k → node_at (fs w) k = None →
  os_path_exists (makedirs_split (job_dir job)).1 w = Ok true w →
  (absent w1 (code_dir job) ∧ e = os_error ENOENT (code_dir job)
   ∨ ∃ w2, shutil_copytree (code_dir job) snapshot_dir ignore w1
           = Raise e w2 ∧ is_OSError e = true
           ∧ errno_is_ENOTDIR e = false) →
  ∃ w', add_job job_name code data cmd job_time gpus w = Ok job w' ∧
        status job = "ready" ∧ lock_held w' = false ∧
        node_at (fs w') k = Some Dir ∧
        resolve w' true (job_dir job) = At k ∧
        read_text (config_file (job_dir job)) w' = Some (config_text job) ∧
        read_text (status_file job) w' = Some (status_line "ready") ∧
        stdout w' = stdout w ++ [("Directory not copied. Error: "
                                  +:+ exn_str e) +:+ nl].
Proof.
  intros name t job w1 snapshot_dir ignore Hlock Hwf Hr Hn Hpar Hfail.
  assert (∃ w2, shutil_copytree (code_dir job) snapshot_dir ignore w1
                = Raise e w2 ∧ is_OSError e = true
                ∧ errno_is_ENOTDIR e = false)
    as (w2 & Hcopy & Hos & Herr).
  { destruct Hfail as [[Ha ->]|H]; [|done].
    exists w1. split; [by apply copytree_absent_source|done]. }
  assert (endswith_char "/" (job_dir job) = false) as Htidy
    by (by eapply abspath_tidy).
  assert (os_path_exists (makedirs_split (job_dir job)).1 (set_lock true w)
          = Ok true (set_lock true w)) as Hpar'.
  { unfold os_path_exists in *. injection Hpar as Hpar.
    f_equal. exact Hpar. }
  destruct (_write_job_copy_failed (set_lock true w) job k e w2
              Hwf Hr Hn Htidy Hpar' Hcopy Hos Herr)
    as (w' & Hw & Hm & Hl & Hc & Hs & Ho).
  exists (set_lock false w'). split.
  { unfold add_job. do 2 (erewrite bind_ok by reflexivity).
    assert (with_lock
              (qd ← get queue_dir;
               let job_dir := os_path_join qd name in
               job0 ← get (λ w0, Job_init w0
                                   (abspath w (expanduser w code))
                                   (abspath w (expanduser w data)) cmd
                                   job_dir gpus t "ready" name);
               _write_job job0;; mret job0) w
            = Ok job (set_lock false w')) as Hbody.
    { unfold with_lock. rewrite Hlock.
      do 2 (erewrite bind_ok by reflexivity).
      erewrite bind_ok by exact Hw. done. }
    destruct job_name, job_time; do 2 (erewrite bind_ok by reflexivity);
      exact Hbody. }
  split; [done|]. split; [done|].
  destruct (job_dir_made_resolve (set_lock true w) (job_dir job) k Hwf Hr Hn
              (set_lock false w') Hm) as [Hr' Hn'].
  split; [done|]. split; [done|]. split.
  { apply (record_readable (set_lock true w) (job_dir job) k Hwf Hr Hn
             (set_lock false w') "config.txt" _ Hm plain_config eq_refl Hc). }
  split; [|done].
  apply (record_readable (set_lock true w) (job_dir job) k Hwf Hr Hn
           (set_lock false w') "status.txt" _ Hm plain_status eq_refl Hs).
Qed.

Lemma add_job_absorbs_copy_failure_witness :
  ∃ w', add_job (Some "N") "nonexist" "proj/data" "echo hi" (Some "t1") None
                Scenario.w0 = Ok Scenario.jobN w' ∧
        status Scenario.jobN = "ready" ∧ lock_held w' = false ∧
        node_at (fs w') ["home"; "u"; "jobs"; "N"] = Some Dir ∧
        resolve w' true "/home/u/jobs/N" = At ["home"; "u"; "jobs"; "N"] ∧
        read_text "/home/u/jobs/N/config.txt" w'
        = Some (config_text Scenario.jobN) ∧
        read_text "/home/u/jobs/N/status.txt" w' = Some (status_line "ready") ∧
        stdout w' = stdout Scenario.w0
                    ++ [("Directory not copied. Error: "
                         +:+ exn_str (os_error ENOENT "/home/u/nonexist"))
                        +:+ nl].
Proof.
  apply (add_job_absorbs_copy_failure Scenario.w0 (Some "N") "nonexist"
           "proj/data" "echo hi" (Some "t1") None
           ["home"; "u"; "jobs"; "N"]
           (os_error ENOENT "/home/u/nonexist")).
  - reflexivity.
  - apply fs_wf_check_sound. vm_compute. reflexivity.
  - vm_compute. reflexivity.
  - vm_compute. reflexivity.
  - vm_compute. reflexivity.
  - left. split; vm_compute; reflexivity.
Defined.

(** * Further properties *)

(** ** Integers and their text *)

Section numerals.

Ltac digit_step :=
  cbn [parse_digits]; rewrite decide_False by done;
  match goal with
  | |- context [digit_val ?c] =>
      let v := eval vm_compute in (digit_val c) in
      change (digit_val c) with v
  end; cbv iota.

Lemma parse_digits_acc d acc :
  parse_digits (NilEmpty.string_of_uint d) (Z.pos acc) true
  = Some (Z.pos (Pos.of_uint_acc d acc)).
Proof.
  revert acc.
  induction d; intros acc;
    cbn [NilEmpty.string_of_uint Pos.of_uint_acc]; [done|..];
    digit_step; (etrans; [|apply IHd]); f_equal; lia.
Qed.

Lemma parse_digits_uint d b :
  parse_digits (NilEmpty.string_of_uint d) 0
               (match d with Decimal.Nil => b | _ => true end)
  = (if match d with Decimal.Nil => b | _ => true end
     then Some (Z.of_N (Pos.of_uint d)) else None).
Proof.
  revert b.
  induction d; intros b; cbn [NilEmpty.string_of_uint Pos.of_uint];
    [by destruct b
    |digit_step; change (10 * 0 + 0)%Z with 0%Z;
     pose proof (IHd true) as IH; by destruct d
    |digit_step;
     match goal with
     | |- parse_digits _ ?z _ = _ =>
         let v := eval vm_compute in z in change z with v
     end; by rewrite parse_digits_acc ..].
Qed.

Lemma parse_digits_pos p :
  parse_digits (NilEmpty.string_of_uint (Pos.to_uint p)) 0 false
  = Some (Z.pos p).
Proof.
  pose proof (parse_digits_uint (Pos.to_uint p) false) as H.
  pose proof (DecimalPos.Unsigned.to_uint_nonnil p) as Hn.
  rewrite DecimalPos.Unsigned.of_to in H. by destruct (Pos.to_uint p).
Qed.

Lemma all_chars_uint d :
  all_chars is_digit (NilEmpty.string_of_uint d) = true.
Proof. induction d; simpl; try done. Qed.

Lemma uint_nonempty d :
  d ≠ Decimal.Nil → NilEmpty.string_of_uint d ≠ "".
Proof. by destruct d. Qed.

Lemma all_chars_impl (P Q : ascii → bool) s :
  (∀ c, P c = true → Q c = true) →
  all_chars P s = true → all_chars Q s = true.
Proof.
  intros HPQ. induction s as [|c s IH]; [done|]. simpl.
  rewrite !andb_true_iff. intros [? ?]. split; auto.
Qed.

Lemma all_chars_app P s t :
  all_chars P (s +:+ t) = all_chars P s && all_chars P t.
Proof. induction s as [|c s IH]; [done|]. simpl. by rewrite IH, andb_assoc. Qed.

(** [str(n)]: digits, after a minus sign for a negative [n]; never empty. *)
Lemma str_of_int_cases n :
  (∃ d, str_of_int n = d ∧ d ≠ "" ∧ all_chars is_digit d = true
        ∧ parse_digits d 0 false = Some n ∧ (0 <= n)%Z)
  ∨ (∃ d, str_of_int n = String "-" d ∧ all_chars is_digit d = true
          ∧ parse_digits d 0 false = Some (- n)%Z ∧ (n < 0)%Z).
Proof.
  unfold str_of_int. destruct n as [|p|p].
  - left. by exists "0".
  - left. exists (NilEmpty.string_of_uint (Pos.to_uint p)).
    pose proof (DecimalPos.Unsigned.to_uint_nonnil p).
    split; [simpl; by destruct (Pos.to_uint p)|].
    split; [by apply uint_nonempty|]. split; [apply all_chars_uint|].
    split; [apply parse_digits_pos|lia].
  - right. exists (NilEmpty.string_of_uint (Pos.to_uint p)).
    pose proof (DecimalPos.Unsigned.to_uint_nonnil p).
    split; [simpl; by destruct (Pos.to_uint p)|].
    split; [apply all_chars_uint|].
    split; [apply parse_digits_pos|lia].
Qed.

Lemma lstrip_no_space s :
  match s with String c _ => is_space c = false | "" => True end →
  lstrip s = s.
Proof. destruct s; [done|]. simpl. by intros ->. Qed.

Lemma strip_all_chars P s :
  (∀ c, P c = true → is_space c = false) →
  all_chars P s = true → strip s = s.
Proof.
  intros HP Hs. unfold strip.
  assert (rstrip s = s) as ->.
  { induction s as [|c s IH]; [done|]. simpl in Hs.
    apply andb_true_iff in Hs as [Hc Hs]. simpl. rewrite IH by done.
    destruct s; [|done]. by rewrite HP. }
  apply lstrip_no_space. destruct s; [done|]. simpl in Hs.
  apply andb_true_iff in Hs as [Hc Hs]. by apply HP.
Qed.

Lemma strip_by_all_chars (sp P : ascii → bool) s :
  (∀ c, P c = true → sp c = false) →
  all_chars P s = true → lstrip_by sp (rstrip_by sp s) = s.
Proof.
  intros HP Hs.
  assert (rstrip_by sp s = s) as ->.
  { induction s as [|c s IH]; [done|]. simpl in Hs.
    apply andb_true_iff in Hs as [Hc Hs]. simpl. rewrite IH by done.
    destruct s; [|done]. by rewrite HP. }
  destruct s as [|c s]; [done|]. simpl in Hs.
  apply andb_true_iff in Hs as [Hc Hs]. simpl. by rewrite HP.
Qed.

Lemma is_int_space_space c : is_space c = false → is_int_space c = false.
Proof.
  destruct c as [[] [] [] [] [] [] [] []]; vm_compute; done.
Qed.

Lemma is_digit_facts c :
  is_digit c = true →
  is_space c = false ∧ c ≠ "-"%char ∧ c ≠ "+"%char ∧ c ≠ ","%char
  ∧ c ≠ ":"%char ∧ c ≠ "_"%char ∧ c ≠ "n"%char.
Proof.
  unfold is_digit, digit_val.
  destruct c as [[] [] [] [] [] [] [] []]; vm_compute; try done;
    intros _; repeat split; done.
Qed.

Lemma int_of_str_of_int n : int_of_str (str_of_int n) = Some n.
Proof.
  unfold int_of_str.
  destruct (str_of_int_cases n) as [(d & -> & Hne & Hd & Hp & _)
                                    |(d & -> & Hd & Hp & _)].
  - rewrite (strip_by_all_chars _ is_digit)
      by (done || (intros c Hc; by apply is_int_space_space, is_digit_facts)).
    destruct d as [|c d]; [done|]. simpl in Hd.
    apply andb_true_iff in Hd as [Hc _].
    apply is_digit_facts in Hc as (_ & ? & ? & _).
    destruct (ascii_dec c "-"); [done|].
    repeat case_match; try done; subst; done.
  - rewrite (strip_by_all_chars _ numeral_char).
    + rewrite Hp. simpl. f_equal. lia.
    + intros c. unfold numeral_char. rewrite orb_true_iff.
      intros [Hc|Hc]; [by apply is_int_space_space, is_digit_facts|].
      by apply bool_decide_eq_true in Hc as ->.
    + simpl. apply (all_chars_impl is_digit); [|done].
      intros c Hc. unfold numeral_char. by rewrite Hc.
Qed.

End numerals.

(** ** The text of a GPU list *)

Section gpu_lists.

Lemma join_empty_cons x l : join "" (x :: l) = x +:+ join "" l.
Proof. destruct l; simpl; [by rewrite append_empty_r|done]. Qed.

Lemma split_no_sep sep s :
  all_chars (λ c, negb (bool_decide (c = sep))) s = true → split sep s = [s].
Proof.
  induction s as [|c s IH]; [done|]. simpl.
  rewrite andb_true_iff, negb_true_iff, bool_decide_eq_false.
  intros [Hc Hs]. rewrite decide_False by done. by rewrite IH.
Qed.

Lemma str_of_int_chars n : all_chars numeral_char (str_of_int n) = true.
Proof.
  destruct (str_of_int_cases n) as [(d & -> & _ & Hd & _)|(d & -> & Hd & _)].
  - apply (all_chars_impl is_digit); [|done].
    intros c Hc. unfold numeral_char. by rewrite Hc.
  - simpl. apply (all_chars_impl is_digit); [|done].
    intros c Hc. unfold numeral_char. by rewrite Hc.
Qed.

Lemma str_of_int_nonempty n : str_of_int n ≠ "".
Proof.
  by destruct (str_of_int_cases n) as [(d & -> & ? & _)|(d & -> & _)].
Qed.

Lemma numeral_char_facts c :
  numeral_char c = true →
  is_space c = false ∧ c ≠ ","%char ∧ c ≠ ":"%char ∧ c ≠ "n"%char.
Proof.
  unfold numeral_char. rewrite orb_true_iff.
  intros [Hc|Hc]; [by apply is_digit_facts in Hc as (?&?&?&?&?&?&?)|].
  by apply bool_decide_eq_true in Hc as ->.
Qed.

Lemma split_gpu_text l :
  split "," (gpu_text l) = map str_of_int l ++ [""].
Proof.
  unfold gpu_text. induction l as [|g l IH]; [done|].
  cbn [map]. rewrite join_empty_cons, append_assoc.
  change ("," +:+ join "" (map (λ gpu, str_of_int gpu +:+ ",") l))
    with (String "," (join "" (map (λ gpu, str_of_int gpu +:+ ",") l))).
  rewrite split_app_sep, IH, split_no_sep; [done|].
  apply (all_chars_impl numeral_char); [|apply str_of_int_chars].
  intros c (_ & Hc & _)%numeral_char_facts.
  by rewrite negb_true_iff, bool_decide_eq_false.
Qed.

Lemma ints_of_strs l : ints_of (map str_of_int l ++ [""]) = inr l.
Proof.
  induction l as [|g l IH]; [done|]. cbn [map app ints_of].
  rewrite decide_False by apply str_of_int_nonempty.
  by rewrite int_of_str_of_int, IH.
Qed.

End gpu_lists.

Lemma ints_of_gpu_text (l : list Z) :
  ints_of (split "," (gpu_text l)) = inr l.
Proof. by rewrite split_gpu_text, ints_of_strs. Qed.

(** ** The config record, written and read back *)

Section record_text.

Lemma replace_absent_plain old s :
  old ≠ "" → contains old s = false → replace_from old "" 0 s = s.
Proof.
  intros Hne. induction s as [|c s IH]; intros Hc; [done|].
  cbn [contains] in Hc. apply orb_false_iff in Hc as [Hp Hc].
  cbn [replace_from]. rewrite Hp. by rewrite IH.
Qed.

Lemma length_lstrip s : (String.length (lstrip s) ≤ String.length s)%nat.
Proof.
  induction s as [|c s IH]; [done|]. simpl. destruct (is_space c); simpl; lia.
Qed.

Lemma rstrip_prefix s : ∃ t, s = rstrip s +:+ t.
Proof.
  induction s as [|c s [t IH]]; [by exists ""|]. simpl.
  destruct (rstrip s) as [|d r] eqn:Hr.
  - destruct (is_space c); [by exists (String c s)|].
    exists s. done.
  - exists t. simpl. by rewrite IH at 1.
Qed.

Lemma length_append s t :
  String.length (s +:+ t) = (String.length s + String.length t)%nat.
Proof. induction s as [|c s IH]; [done|]. simpl. by rewrite IH. Qed.

Lemma strip_fix_rstrip s : strip s = s → rstrip s = s.
Proof.
  unfold strip. intros Hs. destruct (rstrip_prefix s) as [t Ht].
  pose proof (length_lstrip (rstrip s)) as Hl. rewrite Hs in Hl.
  apply (f_equal String.length) in Ht as Hlen. rewrite length_append in Hlen.
  destruct t; [by rewrite append_empty_r in Ht|]. simpl in Hlen. lia.
Qed.

Lemma rstrip_app_nonempty x s :
  rstrip s ≠ "" → rstrip (x +:+ s) = x +:+ rstrip s.
Proof.
  intros Hs. induction x as [|c x IH]; [done|].
  change (String c x +:+ s) with (String c (x +:+ s)). cbn [rstrip].
  rewrite IH. change (String c x +:+ rstrip s) with (String c (x +:+ rstrip s)).
  destruct (x +:+ rstrip s) eqn:Hx; [|done].
  destruct x; [done|discriminate].
Qed.

Lemma config_text_lines job :
  config_text job
  = ("code_dir: " +:+ code_dir job) +:+ String LF
    (("data_dir: " +:+ data_dir job) +:+ String LF
     (("cmd: " +:+ cmd job) +:+ String LF
      (("time: " +:+ time job) +:+ String LF
       (("gpus: " +:+ match gpus job with
                      | Some l => gpu_text l
                      | None => "none"
                      end) +:+ String LF "")))).
Proof.
  unfold config_text, nl, gpu_text. rewrite !append_assoc. reflexivity.
Qed.

Lemma universal_newlines_line s t :
  single_line s = true →
  universal_newlines (s +:+ String LF t) = s +:+ String LF (universal_newlines t).
Proof. intros Hs. by rewrite universal_newlines_app. Qed.

Lemma prefix_app_self a rest : String.prefix a (a +:+ rest) = true.
Proof.
  induction a as [|c a IH]; [by destruct rest|]. simpl.
  by destruct (ascii_dec c c).
Qed.

Lemma replace_skip old new a rest :
  replace_from old new (String.length a) (a +:+ rest)
  = replace_from old new 0 rest.
Proof. induction a as [|c a IH]; [done|]. simpl. exact IH. Qed.

Lemma replace_marker marker rest :
  marker ≠ "" →
  replace marker "" (marker +:+ rest) = replace marker "" rest.
Proof.
  intros Hne. unfold replace. destruct marker as [|m ms]; [done|].
  change (String m ms +:+ rest) with (String m (ms +:+ rest)).
  cbn [replace_from].
  change (String m (ms +:+ rest)) with (String m ms +:+ rest).
  rewrite prefix_app_self.
  assert ((String.length (String m ms) - 1)%nat = String.length ms) as ->
    by (simpl; lia).
  by rewrite replace_skip.
Qed.

(** A record line [marker value] read back as [_read_job] reads the
    lines of code, data and time, and [_read_status] the status. *)
Lemma field_read_back marker line s :
  line = marker +:+ " " → marker ≠ "" → startswith " " marker = false →
  single_line marker = true → clean marker s →
  strip (replace marker "" ((line +:+ s) +:+ nl)) = s.
Proof.
  intros -> Hne Hm Hsl (Hl & Hs & Hc).
  rewrite !append_assoc, replace_marker by done.
  change (" " +:+ s +:+ nl) with (String " " (s +:+ nl)).
  unfold replace. cbn [replace_from].
  assert (String.prefix marker (String " " (s +:+ nl)) = false) as ->.
  { destruct marker as [|m ms]; [done|]. unfold startswith in Hm.
    cbn [String.prefix] in *. destruct (ascii_dec m " ") as [->|]; [|done].
    destruct (ascii_dec " " " "); [by destruct ms|done]. }
  rewrite replace_absent by done. by apply strip_padded.
Qed.

(** The line of the command, read back: strip first, marker after. *)
Lemma cmd_line_read_back c :
  strip c = c → contains "cmd:" c = false →
  replace "cmd:" "" (strip (("cmd: " +:+ c) +:+ nl)) = cmd_read_back c.
Proof.
  intros Hs Hc. unfold cmd_read_back, strip, nl.
  rewrite rstrip_app_space by done.
  destruct (decide (c = "")) as [->|Hne]; [done|].
  apply strip_fix_rstrip in Hs as Hr.
  rewrite rstrip_app_nonempty by (by rewrite Hr). rewrite Hr.
  change (lstrip ("cmd: " +:+ c)) with ("cmd:" +:+ String " " c).
  rewrite replace_marker by done. unfold replace.
  cbn [replace_from String.prefix]. destruct (ascii_dec "c" " "); [done|].
  by rewrite replace_absent_plain.
Qed.

Lemma single_line_app s t :
  single_line (s +:+ t) = single_line s && single_line t.
Proof.
  induction s as [|c s IH]; [done|]. simpl. by rewrite IH, andb_assoc.
Qed.

Lemma single_line_all_chars P s :
  (∀ c, P c = true → is_space c = false) →
  all_chars P s = true → single_line s = true.
Proof.
  intros HP. induction s as [|c s IH]; [done|]. simpl.
  rewrite andb_true_iff. intros [Hc Hs]. rewrite IH by done.
  apply HP in Hc. rewrite andb_true_r, andb_true_iff, !negb_true_iff,
    !bool_decide_eq_false. split; by intros ->.
Qed.

Lemma contains_all_chars P a old s :
  P a = false → all_chars P s = true → contains (String a old) s = false.
Proof.
  intros Ha. induction s as [|c s IH]; [done|]. simpl.
  rewrite andb_true_iff. intros [Hc Hs]. rewrite IH by done.
  destruct (ascii_dec a c) as [->|]; [congruence|done].
Qed.


Lemma gpu_char_facts c :
  gpu_char c = true → is_space c = false ∧ c ≠ "n"%char ∧ c ≠ "g"%char.
Proof.
  unfold gpu_char, numeral_char, is_digit, digit_val.
  destruct c as [[] [] [] [] [] [] [] []]; vm_compute; try done;
    intros _; repeat split; done.
Qed.

Lemma gpu_text_chars l : all_chars gpu_char (gpu_text l) = true.
Proof.
  unfold gpu_text. induction l as [|g l IH]; [done|].
  cbn [map]. rewrite join_empty_cons, !all_chars_app, IH.
  rewrite (all_chars_impl numeral_char gpu_char); [done| |apply str_of_int_chars].
  intros c Hc. unfold gpu_char. by rewrite Hc.
Qed.

Lemma gpu_text_clean l : clean "gpus:" (gpu_text l) ∧ gpu_text l ≠ "none".
Proof.
  pose proof (gpu_text_chars l) as Hl. split; [split; [|split]|].
  - apply (single_line_all_chars gpu_char); [|done].
    by intros c (? & _)%gpu_char_facts.
  - apply (strip_all_chars gpu_char); [|done].
    by intros c (? & _)%gpu_char_facts.
  - by apply (contains_all_chars gpu_char).
  - intros Heq. by rewrite Heq in Hl.
Qed.

End record_text.

Lemma parse_config_written (job : Job) (d : string) :
  clean "code_dir:" (code_dir job) → clean "data_dir:" (data_dir job) →
  clean "cmd:" (cmd job) → clean "time:" (time job) →
  parse_config d (universal_newlines (config_text job))
  = inr (mkJob (code_dir job) (data_dir job) (cmd_read_back (cmd job))
               (gpus job) d 1 (time job) "" (os_path_split d).2).
Proof.
  intros Hc Hd Hm Ht.
  set (g := match gpus job with Some l => gpu_text l | None => "none" end).
  assert (clean "gpus:" g ∧
          (if decide (g = "none") then inr None
           else match ints_of (split "," g) with
                | inr l => inr (Some l)
                | inl gpu => inl gpu
                end) = (inr (gpus job) : string + option (list Z)))
    as [Hg Hparse].
  { subst g. destruct (gpus job) as [l|]; [|done].
    destruct (gpu_text_clean l) as [Hcl Hne]. split; [done|].
    by rewrite decide_False, ints_of_gpu_text. }
  rewrite config_text_lines. fold g.
  destruct Hc as (Hc1 & Hc2 & Hc3), Hd as (Hd1 & Hd2 & Hd3),
    Hm as (Hm1 & Hm2 & Hm3), Ht as (Ht1 & Ht2 & Ht3).
  destruct Hg as (Hg1 & Hg2 & Hg3).
  rewrite !universal_newlines_line by (by rewrite single_line_app).
  unfold parse_config, gpus_field, line_at. cbv [Nat.iter nat_rect].
  repeat (rewrite readline_app by (by rewrite single_line_app);
          cbn [fst snd]).
  rewrite (field_read_back "gpus:" "gpus: " g) by done.
  rewrite Hparse.
  rewrite (field_read_back "code_dir:" "code_dir: " (code_dir job)) by done.
  rewrite (field_read_back "data_dir:" "data_dir: " (data_dir job)) by done.
  rewrite (field_read_back "time:" "time: " (time job)) by done.
  by rewrite cmd_line_read_back.
Qed.

(** X1.  What [_read_job] makes of the config record [_write_job] wrote. *)
Theorem config_record_round_trip (job : Job) (d : string) :
  clean "code_dir:" (code_dir job) → clean "data_dir:" (data_dir job) →
  clean "cmd:" (cmd job) → clean "time:" (time job) →
  parse_config d (universal_newlines (config_text job))
  = inr (mkJob (code_dir job) (data_dir job) (cmd_read_back (cmd job))
               (gpus job) d 1 (time job) "" (os_path_split d).2).
Proof. apply parse_config_written. Qed.

Lemma config_record_round_trip_witness :
  parse_config "jobs/A" (universal_newlines (config_text Scenario.jobA))
  = inr (mkJob "/home/u/proj" "/home/u/proj/data" " echo hi"
               (Some [0; 1]%Z) "jobs/A" 1 "t1" "" "A").
Proof.
  apply (config_record_round_trip Scenario.jobA "jobs/A");
    repeat split; reflexivity.
Defined.

(** ** The status a run leaves *)

Section settle.

(** What a successful [write_status] leaves. *)
Lemma write_status_settles job s w j w' :
  write_status job s w = Ok j w' →
  j = with_status s job ∧ lock_held w' = false ∧ stdout w' = stdout w ∧
  read_text (status_file job) w' = Some (status_line s) ∧
  (single_line s = true → strip s = s → contains "status:" s = false →
   ∃ w'', read_status j w' = Ok (j, s) w'').
Proof.
  intros (Hlock & -> & k & Hk & ->)%write_status_inv.
  split; [done|]. split; [done|]. split; [done|]. split.
  - apply (read_text_written w _ _ k); [done| |done].
    simpl. by rewrite insert_insert_eq.
  - intros Hl Hs Hc.
    rewrite (read_status_of_line _ s w _ k); try done.
    + by eexists.
    + simpl. by rewrite insert_insert_eq.
Qed.

Lemma read_text_ext p w w' :
  fs w' = fs w → cwd w' = cwd w → read_text p w' = read_text p w.
Proof.
  intros Hf Hc. unfold read_text, open_rb.
  rewrite (resolve_ext w w') by done. rewrite Hf. by repeat case_match.
Qed.

Lemma read_status_ext job w w' :
  fs w' = fs w → cwd w' = cwd w → lock_held w' = lock_held w →
  returned (read_status job w') = returned (read_status job w).
Proof.
  intros Hf Hc Hl. unfold read_status, with_lock. rewrite Hl.
  destruct (lock_held w); [done|].
  unfold _read_status, modify. unfold mbind, M_bind.
  rewrite (open_r_ext (os_path_join (job_dir job) "status.txt")
             (log_access StatusRead (set_lock true w))
             (log_access StatusRead (set_lock true w'))) by done.
  by destruct (open_r _ _).
Qed.

End settle.

Lemma run_job_settled (sh : shell) (job j : Job) (w w' : world) :
  run_job sh job w = Ok j w' →
  ∃ s, (s = "finished" ∨ s = "crashed") ∧ j = with_status s job ∧
       lock_held w' = false ∧
       read_text (status_file job) w' = Some (status_line s) ∧
       returned (read_status j w') = Some (j, s).
Proof.
  unfold run_job, mbind, M_bind at 1.
  destruct (bind_data job w) as [[] w1| |]; [|done..].
  unfold M_bind at 1. destruct (build_env job w1) as [env w1'| |]; [|done..].
  unfold try_except, launch_and_record, mbind.
  unfold M_bind at 1.
  destruct (record_output sh job env w1') as [[] w2|e w2|].
  - unfold M_bind at 1, print.
    destruct (write_status job "finished" _) as [j1 w3|e w3|] eqn:Hw.
    + intros [= <- <-].
      apply write_status_settles in Hw as (-> & Hl & _ & Hr & Hs).
      exists "finished". destruct Hs as [w'' Hs]; [done..|].
      repeat split; auto. by rewrite Hs.
    + destruct (is_Exception e); [|done]. unfold M_bind at 1.
      destruct (write_status job "crashed" w3) as [j1 w4| |] eqn:Hw2;
        [|done..].
      intros [= <- <-].
      apply write_status_settles in Hw2 as (-> & Hl & _ & Hr & Hs).
      exists "crashed". destruct Hs as [w'' Hs]; [done..|].
      split; [by right|]. split; [done|]. split; [done|].
      split; [by rewrite (read_text_ext _ w4)|].
      rewrite (read_status_ext _ w4) by done. by rewrite Hs.
    + done.
  - destruct (is_Exception e); [|done]. unfold M_bind at 1.
    destruct (write_status job "crashed" w2) as [j1 w4| |] eqn:Hw2;
      [|done..].
    intros [= <- <-].
    apply write_status_settles in Hw2 as (-> & Hl & _ & Hr & Hs).
    exists "crashed". destruct Hs as [w'' Hs]; [done..|].
    split; [by right|]. split; [done|]. split; [done|].
    split; [by rewrite (read_text_ext _ w4)|].
    rewrite (read_status_ext _ w4) by done. by rewrite Hs.
  - done.
Qed.

(** X2.  Whenever [run_job] returns, the job's status record says
    ['finished'] or ['crashed']: the returned job carries that status, the
    lock is free, and [read_status] gives the same value. *)
Theorem run_job_settles_status (sh : shell) (job j : Job) (w w' : world) :
  run_job sh job w = Ok j w' →
  ∃ s, (s = "finished" ∨ s = "crashed") ∧ j = with_status s job ∧
       lock_held w' = false ∧
       read_text (status_file job) w' = Some (status_line s) ∧
       returned (read_status j w') = Some (j, s).
Proof. apply run_job_settled. Qed.

Lemma run_job_settles_status_witness :
  ∃ s, (s = "finished" ∨ s = "crashed") ∧
       with_status "finished" Scenario.jobA = with_status s Scenario.jobA ∧
       lock_held (Scenario.after (run_job Scenario.sh0 Scenario.jobA)
                                 Scenario.wA) = false ∧
       read_text (status_file Scenario.jobA)
                 (Scenario.after (run_job Scenario.sh0 Scenario.jobA)
                                 Scenario.wA) = Some (status_line s) ∧
       returned (read_status (with_status "finished" Scenario.jobA)
                   (Scenario.after (run_job Scenario.sh0 Scenario.jobA)
                                   Scenario.wA))
       = Some (with_status "finished" Scenario.jobA, s).
Proof.
  apply (run_job_settles_status Scenario.sh0 Scenario.jobA
           (with_status "finished" Scenario.jobA) Scenario.wA).
  vm_compute. reflexivity.
Defined.

(** ** The output a run records *)

Section recording.

Implicit Types (f : gmap (list string) node) (k cur comps : list string).






End recording.

Section recording2.



End recording2.




(** ** Ties between ready jobs *)

Section ties.

Context {A : Type} (key : A → string).

(** The head of the sorted list is the first of the least elements. *)
Lemma sorted_head_first l x r :
  sorted key l = x :: r →
  ∃ l1 l2, l = l1 ++ x :: l2 ∧
           Forall (λ y, String.ltb (key x) (key y) = true) l1 ∧
           Forall (λ y, String.ltb (key y) (key x) = false) l2.
Proof.
  revert x r. induction l as [|a l IH]; intros x r; [done|].
  change (sorted key (a :: l)) with (insert_by key a (sorted key l)).
  pose proof (sorted_head_least key l) as Hleast.
  destruct (sorted key l) as [|y s] eqn:Hs.
  - apply sorted_nil in Hs as ->. intros [= <- <-]. by exists [], [].
  - cbn [insert_by]. destruct (String.ltb (key y) (key a)) eqn:Hya.
    + intros [= <- <-].
      destruct (IH y s eq_refl) as (l1 & l2 & -> & H1 & H2).
      exists (a :: l1), l2. split; [done|]. split; [by constructor|done].
    + intros [= <- <-]. exists [], l. split; [done|]. split; [done|].
      apply Forall_forall. intros z Hz.
      assert (z ∈ y :: s) as Hz' by (by rewrite <- Hs, sorted_perm).
      apply elem_of_cons in Hz' as [->|Hz']; [done|].
      simpl in Hleast. rewrite Forall_forall in Hleast.
      by apply (not_ltb_trans _ (key y)); [|apply Hleast].
Qed.

End ties.

(** X4.  Among ready jobs with the same least submission time, [oldest]
    returns the one that comes first in the index: every ready job before
    it in the index has a strictly later time, none after it an earlier
    one. *)
Theorem oldest_first_of_least (d : list (string * Job)) (j : Job) :
  oldest_in d = Some j →
  ∃ l1 l2, ready_jobs d = l1 ++ j :: l2 ∧
           Forall (λ j', String.ltb (time j) (time j') = true) l1 ∧
           Forall (λ j', String.ltb (time j') (time j) = false) l2.
Proof.
  unfold oldest_in. fold (ready_jobs d).
  destruct (sorted time (ready_jobs d)) as [|x r] eqn:Hs; [done|].
  intros [= ->]. by apply (sorted_head_first time _ _ r).
Qed.

Lemma oldest_first_of_least_witness :
  ∃ l1 l2,
    ready_jobs Scenario.tied
    = l1 ++ mkJob "/c" "/d" " x" None "jobs/b" 1 "t1" "ready" "b" :: l2 ∧
    Forall (λ j', String.ltb "t1" (time j') = true) l1 ∧
    Forall (λ j', String.ltb (time j') "t1" = false) l2.
Proof.
  apply (oldest_first_of_least Scenario.tied
           (mkJob "/c" "/d" " x" None "jobs/b" 1 "t1" "ready" "b")).
  vm_compute. reflexivity.
Defined.

(** ** Operations that only read *)

Section read_only.

Lemma quiet_ret {A} (a : A) : quiet (mret a).
Proof. by intros w. Qed.

Lemma quiet_raise {A} e : quiet (raise e : M A).
Proof. by intros w. Qed.

Lemma quiet_get {A} (f : world → A) : quiet (get f).
Proof. by intros w. Qed.

Lemma quiet_bind {A B} (m : M A) (k : A → M B) :
  quiet m → (∀ a, quiet (k a)) → quiet (m ≫= k).
Proof.
  intros Hm Hk w. specialize (Hm w). unfold mbind, M_bind.
  destruct (m w) as [a w1|e w1|]; simpl in *; [|done..].
  specialize (Hk a w1). destruct (k a w1); simpl in *; try done.
  all: destruct Hm, Hk; split; congruence.
Qed.

Lemma quiet_try_except {A} (m : M A) catches handler :
  quiet m → (∀ e, quiet (handler e)) → quiet (try_except m catches handler).
Proof.
  intros Hm Hh w. specialize (Hm w). unfold try_except.
  destruct (m w) as [a w1|e w1|]; simpl in *; [done| |done].
  destruct (catches e); [|done].
  specialize (Hh e w1). destruct (handler e w1); simpl in *; try done.
  all: destruct Hm, Hh; split; congruence.
Qed.

Lemma quiet_with_lock {A} (m : M A) : quiet m → quiet (with_lock m).
Proof.
  intros Hm w. unfold with_lock. destruct (lock_held w); [done|].
  specialize (Hm (set_lock true w)).
  by destruct (m (set_lock true w)).
Qed.

Lemma quiet_for_each {A} (l : list A) body :
  (∀ x, quiet (body x)) → quiet (for_each l body).
Proof.
  intros Hb. induction l as [|x l IH]; [apply quiet_ret|].
  simpl. apply quiet_bind; [apply Hb|]. by intros _.
Qed.

Lemma quiet_print s : quiet (print s).
Proof. by intros w. Qed.

Lemma quiet_open_r p : quiet (open_r p).
Proof.
  intros w. unfold open_r.
  destruct (resolve w true p) as [k|]; [|done].
  by destruct (node_at (fs w) k) as [[| |]|].
Qed.

Lemma quiet_os_path_exists p : quiet (os_path_exists p).
Proof. by intros w. Qed.

Lemma quiet_os_path_isdir p : quiet (os_path_isdir p).
Proof. by intros w. Qed.

Lemma quiet_os_listdir p : quiet (os_listdir p).
Proof.
  unfold os_listdir. apply quiet_bind; [|intros; apply quiet_get].
  intros w. unfold resolve_dir.
  destruct (resolve w true p) as [k|]; [|done].
  by destruct (node_at (fs w) k) as [[| |]|].
Qed.

Lemma quiet_write_index f : quiet (write_index f).
Proof. by intros w. Qed.

Lemma quiet__read_status j : quiet (_read_status j).
Proof.
  unfold _read_status. apply quiet_bind; [by intros w|]. intros _.
  apply quiet_bind; [apply quiet_open_r|]. intros; apply quiet_ret.
Qed.

Lemma quiet__read_job d : quiet (_read_job d).
Proof.
  intros w. rewrite _read_job_unfold.
  pose proof (quiet_open_r (config_file d) w) as Ho.
  destruct (open_r (config_file d) w) as [text w1|e w1|]; simpl in *;
    [|done..].
  destruct (parse_config d text) as [gpu|j]; [done|].
  pose proof (quiet__read_status j w1) as Hs.
  destruct (_read_status j w1); simpl in *; try done.
  all: destruct Ho, Hs; split; congruence.
Qed.

Lemma quiet_update : quiet update.
Proof.
  unfold update. apply quiet_with_lock.
  apply quiet_bind; [apply quiet_write_index|]. intros _.
  apply quiet_bind; [apply quiet_get|]. intros qd.
  apply quiet_bind; [apply quiet_os_listdir|]. intros names.
  apply quiet_for_each. intros n.
  apply quiet_bind; [apply quiet_os_path_isdir|]. intros [];
    [|apply quiet_ret].
  apply quiet_try_except; [|intros; apply quiet_print].
  apply quiet_bind; [apply quiet__read_job|]. intros; apply quiet_write_index.
Qed.

Lemma quiet_load_job n : quiet (load_job n).
Proof.
  unfold load_job. apply quiet_with_lock.
  apply quiet_bind; [apply quiet_get|]. intros qd.
  apply quiet_bind; [apply quiet_os_path_exists|]. intros [];
    [apply quiet__read_job|apply quiet_raise].
Qed.

Lemma quiet_read_status j : quiet (read_status j).
Proof.
  unfold read_status. apply quiet_with_lock.
  apply quiet_bind; [apply quiet__read_status|]. intros; apply quiet_ret.
Qed.

Lemma quiet_oldest : quiet oldest.
Proof.
  unfold oldest. apply quiet_bind; [by intros w|]. intros; apply quiet_ret.
Qed.

End read_only.

(** X5.  The reading operations of the queue leave the file system as it
    is, whether they return or raise: [update], [load_job], [read_status]
    and [oldest] write nothing to disk. *)
Theorem reading_operations_write_nothing :
  quiet update ∧ (∀ job_name, quiet (load_job job_name)) ∧
  (∀ job, quiet (read_status job)) ∧ quiet oldest.
Proof.
  split; [apply quiet_update|]. split; [apply quiet_load_job|].
  split; [apply quiet_read_status|apply quiet_oldest].
Qed.

(** ** A new job directory *)

Section copying.

Implicit Types (f : gmap (list string) node) (k cur comps : list string).

(** The data directory's name is not among the names copied. *)
Lemma listing_ignored f ks dname :
  dname ∉ listing (ignore_function [dname]) f ks.
Proof.
  unfold listing, ignore_function. intros [Hn Hin]%list_elem_of_filter.
  apply Hn. apply list_elem_of_filter. split; [done|by left].
Qed.

End copying.

Section copying2.

Implicit Types (f : gmap (list string) node) (k cur comps : list string).

(** [shutil.copytree] from a directory into the new [k/snapshot/]: it
    returns, or raises [shutil.Error] or [RecursionError]; [k/snapshot] is
    a directory then; nothing changes outside it, nor at a name the
    callback ignores. *)
Lemma copytree_dir_into_fresh w1 src jd k ks ignore :
  jd ≠ "" → endswith_char "/" jd = false →
  resolve w1 true jd = At k → node_at (fs w1) k = Some Dir →
  (∀ k', k ++ ["snapshot"] `prefix_of` k' → fs w1 !! k' = None) →
  resolve_dir src w1 = Ok ks w1 →
  ∃ f2, (shutil_copytree src (os_path_join jd "snapshot/") ignore w1
         = Ok tt (set_fs f2 w1)
         ∨ (∃ msg, shutil_copytree src (os_path_join jd "snapshot/") ignore w1
                   = Raise (OSError None msg) (set_fs f2 w1))
         ∨ (∃ msg, shutil_copytree src (os_path_join jd "snapshot/") ignore w1
                   = Raise (RecursionError msg) (set_fs f2 w1))) ∧
        f2 !! (k ++ ["snapshot"]) = Some Dir ∧
        (∀ k', ¬ k ++ ["snapshot"] `prefix_of` k' → f2 !! k' = fs w1 !! k') ∧
        (∀ n l, n ∉ listing ignore (fs w1) ks →
                f2 !! (k ++ "snapshot" :: n :: l) = None).
Proof.
  intros Hjd He Hr Hn Hfree Hsrc.
  destruct (os_path_join_snapshot jd Hjd He) as (Hp & Hcomp & Hst & Hend & Hms).
  set (dst := os_path_join jd "snapshot/") in *.
  set (kd := k ++ ["snapshot"]) in *.
  assert (resolve w1 false dst = At kd) as Hdst.
  { apply (resolve_new_child w1 false jd dst "snapshot" k); try done.
    apply Hfree. done. }
  set (w1b := set_fs (<[kd := Dir]> (fs w1)) w1).
  assert (grown_at (fs w1) (fs w1b) kd) as Hg.
  { apply grown_at_insert; [by destruct k | done | done]. }
  set (r := copy_names (recursion_limit w1) ignore src dst ks kd
              (listing ignore (fs w1) ks) (<[kd := Dir]> (fs w1))).
  assert (∀ k', (∀ n, n ∈ listing ignore (fs w1) ks →
                      ¬ (kd ++ [n]) `prefix_of` k') →
                copied_fs r !! k' = <[kd := Dir]> (fs w1) !! k') as Hfr.
  { intros k' Hk'. by apply copy_names_writes. }
  exists (copied_fs r). split; [|split; [|split]].
  - unfold shutil_copytree.
    rewrite (bind_ok _ _ w1 ks w1) by exact Hsrc.
    rewrite (bind_ok _ _ w1 _ w1) by reflexivity.
    rewrite (bind_ok _ _ w1 tt w1b).
    2:{ unfold os_makedirs.
        rewrite makedirs_loop_parent
          by (rewrite Hms; by apply (os_path_exists_dir jd w1 k)).
        apply (os_mkdir_free dst w1 kd Hdst).
        rewrite node_at_nonroot by (by destruct k). by apply Hfree. }
    rewrite (bind_ok _ _ w1b kd w1b).
    2:{ unfold resolve_dir.
        rewrite (resolve_grow w1 w1b false dst kd Hdst Hg)
          by (try done; apply lookup_insert_eq).
        rewrite node_at_nonroot by (by destruct k).
        change (fs w1b) with (<[kd := Dir]> (fs w1)).
        by rewrite lookup_insert_eq. }
    unfold copy_into. change (fs w1b) with (<[kd := Dir]> (fs w1)).
    change (recursion_limit w1b) with (recursion_limit w1). fold r.
    change (set_fs (copied_fs r) w1b) with (set_fs (copied_fs r) w1).
    destruct (too_deep r); [right; right; by eexists|].
    destruct (copy_errors r); [by left|right; left]. by eexists.
  - rewrite Hfr; [apply lookup_insert_eq|].
    intros n _ Hpre. apply prefix_length in Hpre. rewrite length_app in Hpre.
    simpl in Hpre. lia.
  - intros k' Hk'. rewrite Hfr.
    + rewrite lookup_insert_ne; [done|]. intros <-. by apply Hk'.
    + intros n _ Hpre. apply Hk'. etrans; [|exact Hpre]. by apply prefix_app_r.
  - intros n l Hnl.
    assert (k ++ "snapshot" :: n :: l = kd ++ n :: l) as ->
      by (subst kd; by rewrite <- app_assoc).
    rewrite Hfr.
    + rewrite lookup_insert_ne.
      * apply Hfree. by apply prefix_app_r.
      * intros Heq. by apply (app_cons_ne kd n l).
    + intros n' Hn' Hpre. apply prefix_app_inv in Hpre.
      apply prefix_cons_inv_1 in Hpre. by subst.
Qed.

End copying2.

Section fresh.

Implicit Types (f : gmap (list string) node) (k cur comps : list string).

Lemma set_stdout_same w : set_stdout (stdout w) w = w.
Proof. by destruct w. Qed.

(** [copy] into the new [k/snapshot/] of a job, when it returns: the world
    differs below [k/snapshot] and by the line printed, if any; when the
    source is a directory, [k/snapshot] is one, without the entries the
    callback ignores. *)
Lemma copy_into_fresh w1 src jd k ign w3 :
  jd ≠ "" → endswith_char "/" jd = false →
  resolve w1 true jd = At k → node_at (fs w1) k = Some Dir →
  (∀ k', k ++ ["snapshot"] `prefix_of` k' → fs w1 !! k' = None) →
  copy src (os_path_join jd "snapshot/") (Some ign) w1 = Ok tt w3 →
  ∃ f2 o3, w3 = set_stdout o3 (set_fs f2 w1) ∧
    (∀ k', ¬ k ++ ["snapshot"] `prefix_of` k' → f2 !! k' = fs w1 !! k') ∧
    (o3 = stdout w1
     ∨ ∃ e, o3 = stdout w1 ++ [("Directory not copied. Error: " +:+ exn_str e)
                               +:+ nl]) ∧
    (∀ ks, resolve_dir src w1 = Ok ks w1 →
       f2 !! (k ++ ["snapshot"]) = Some Dir ∧
       ∀ n l, n ∉ listing (ignore_function ign) (fs w1) ks →
              f2 !! (k ++ "snapshot" :: n :: l) = None).
Proof.
  intros Hjd He Hr Hn Hfree.
  destruct (os_path_join_snapshot jd Hjd He) as (Hp & Hcomp & Hst & Hend & Hms).
  set (dst := os_path_join jd "snapshot/") in *.
  set (kd := k ++ ["snapshot"]) in *.
  unfold copy, try_except.
  destruct (resolve_dir_inv src w1) as [(ks & Hsrc & _)|(e & Hsrc & He')].
  - destruct (copytree_dir_into_fresh w1 src jd k ks (ignore_function ign)
                Hjd He Hr Hn Hfree Hsrc)
      as (f2 & [Hc|[[msg Hc]|[msg Hc]]] & Hd & Hfr & Hig); fold dst in Hc;
      rewrite Hc.
    + intros [= <-]. exists f2, (stdout w1).
      split; [by rewrite <- (set_stdout_same (set_fs f2 w1)) at 1|].
      split; [exact Hfr|]. split; [by left|].
      intros ks' Hks'. rewrite Hsrc in Hks'. injection Hks' as <-.
      split; [exact Hd|exact Hig].
    + cbn [is_OSError errno_is_ENOTDIR]. unfold print. intros [= <-].
      eexists f2, _. split; [reflexivity|]. split; [exact Hfr|].
      split; [right; by eexists (OSError None msg)|].
      intros ks' Hks'. rewrite Hsrc in Hks'. injection Hks' as <-.
      split; [exact Hd|exact Hig].
    + done.
  - assert (shutil_copytree src dst (ignore_function ign) w1 = Raise e w1)
      as -> by (unfold shutil_copytree, mbind, M_bind; by rewrite Hsrc).
    rewrite He'. destruct (errno_is_ENOTDIR e).
    + assert (resolve w1 true dst = At kd) as Hdst.
      { apply (resolve_new_child w1 true jd dst "snapshot" k); try done.
        apply Hfree. done. }
      assert (node_at (fs w1) kd = None) as Hnd.
      { rewrite node_at_nonroot by (by destruct k). by apply Hfree. }
      unfold shutil_copy, mbind, M_bind, os_path_isdir.
      rewrite Hdst, Hnd.
      destruct (open_rb src w1) as [c w1'| |] eqn:Ho; [|done..].
      assert (w1' = w1) as ->.
      { unfold open_rb in Ho. by repeat case_match; simplify_eq. }
      unfold open_w. by rewrite Hdst, Hnd, Hend.
    + unfold print. intros [= <-].
      eexists (fs w1), _. split; [by rewrite set_fs_same|].
      split; [done|]. split; [right; by eexists|].
      intros ks' Hks'. by rewrite Hsrc in Hks'.
Qed.

End fresh.

Section fresh2.

Implicit Types (f : gmap (list string) node) (k cur comps : list string).

(** [_write_job] for a new job directory [k] in an existing directory, when
    it returns. *)
Lemma _write_job_fresh w job k w' :
  fs_wf (fs w) →
  resolve w false (job_dir job) = At k → node_at (fs w) k = None →
  endswith_char "/" (job_dir job) = false →
  os_path_exists (makedirs_split (job_dir job)).1 w = Ok true w →
  _write_job job w = Ok tt w' →
  job_dir_made w w' k ∧ lock_held w' = lock_held w ∧
  queue_dir w' = queue_dir w ∧
  fs w' !! (k ++ ["config.txt"]) = Some (File (config_text job)) ∧
  fs w' !! (k ++ ["status.txt"]) = Some (File (status_line (status job))) ∧
  (∀ c l, c ∉ ["snapshot"; "config.txt"; "status.txt"] →
          fs w' !! (k ++ c :: l) = None) ∧
  (stdout w' = stdout w
   ∨ ∃ e, stdout w' = stdout w ++ [("Directory not copied. Error: "
                                    +:+ exn_str e) +:+ nl]) ∧
  (∀ ks, resolve_dir (code_dir job) (set_fs (<[k := Dir]> (fs w)) w)
         = Ok ks (set_fs (<[k := Dir]> (fs w)) w) →
     fs w' !! (k ++ ["snapshot"]) = Some Dir ∧
     ∀ l, fs w' !! (k ++ "snapshot" :: (os_path_split (data_dir job)).2 :: l)
          = None).
Proof.
  intros Hwf Hr Hn Htidy Hpar.
  destruct (new_job_key w _ k Hr Hn) as [Hk Hjd].
  pose proof (new_job_below w k Hwf Hn) as Hbelow.
  set (w1 := set_fs (<[k := Dir]> (fs w)) w) in *.
  assert (job_dir_made w w1 k) as Hm1.
  { split; [done|]. split; [apply lookup_insert_eq|].
    intros k' Hk'. apply lookup_insert_ne. intros <-. by apply Hk'. }
  destruct (job_dir_made_resolve w _ k Hwf Hr Hn w1 Hm1) as [Hr1 Hn1].
  assert (∀ l, fs w1 !! (k ++ l) = if decide (l = []) then Some Dir
                                   else None) as Hw1.
  { intros l. simpl. destruct (decide (l = [])) as [->|Hl].
    - rewrite app_nil_r. apply lookup_insert_eq.
    - rewrite lookup_insert_ne.
      + apply Hbelow. by apply prefix_app_r.
      + intros Heq. apply Hl. rewrite <- (app_nil_r k) in Heq at 1.
        by apply app_inv_head in Heq. }
  unfold _write_job.
  rewrite (bind_ok _ _ w false w)
    by (unfold os_path_exists;
        by rewrite (resolve_free_follow _ _ _ Hwf Hr Hn), Hn).
  rewrite (bind_ok _ _ w tt w) by reflexivity.
  rewrite (bind_ok _ _ w tt w1)
    by (unfold os_makedirs; rewrite makedirs_loop_parent by exact Hpar;
        by apply os_mkdir_free).
  cbv beta zeta.
  unfold mbind at 1. unfold M_bind at 1.
  destruct (copy _ _ _ w1) as [[] w3| |] eqn:Hcopy; [|done..].
  apply (copy_into_fresh w1 _ _ k) in Hcopy
    as (f2 & o3 & -> & Hfr & Ho3 & Hsrc); try done.
  2:{ intros k' [l ->]. rewrite <- app_assoc, Hw1. by rewrite decide_False. }
  set (w3 := set_stdout o3 (set_fs f2 w1)).
  assert (∀ c l, c ≠ "snapshot" → f2 !! (k ++ c :: l) = None) as Hf2.
  { intros c l Hc. rewrite Hfr by (by apply snapshot_not_prefix).
    rewrite Hw1. by rewrite decide_False. }
  assert (job_dir_made w w3 k) as Hm3.
  { split; [done|]. split.
    - simpl. rewrite Hfr.
      + specialize (Hw1 []). rewrite app_nil_r in Hw1. by rewrite Hw1.
      + intros [l Hl]. rewrite <- (app_nil_r k) in Hl at 1.
        rewrite <- app_assoc in Hl. by apply app_inv_head in Hl.
    - intros k' Hk'. simpl. rewrite Hfr.
      + apply Hm1, Hk'.
      + intros Hp. apply Hk'. etrans; [|exact Hp]. by apply prefix_app_r. }
  set (kc := k ++ ["config.txt"]). set (ks := k ++ ["status.txt"]).
  assert (writable_at w3 (os_path_join (job_dir job) "config.txt") kc) as Hwc.
  { apply (record_writable w _ k Hwf Hr Hn w3 "config.txt" Hm3
             plain_config eq_refl).
    simpl. by apply Hf2. }
  set (w5 := set_fs (<[kc := File (config_text job)]> (fs w3)) w3).
  assert (job_dir_made w w5 k) as Hm5.
  { destruct Hm3 as (Hc3 & Hd3 & Hs3). split; [done|]. split.
    - simpl. rewrite lookup_insert_ne; [exact Hd3|]. apply app_cons_ne.
    - intros k' Hk'. simpl. rewrite lookup_insert_ne; [by apply Hs3|].
      intros <-. apply Hk'. by apply prefix_app_r. }
  assert (writable_at w5 (status_file job) ks) as Hws.
  { apply (record_writable w _ k Hwf Hr Hn w5 "status.txt" Hm5
             plain_status eq_refl).
    simpl. rewrite lookup_insert_ne.
    - by apply Hf2.
    - intros Heq. by apply app_inv_head in Heq. }
  rewrite (bind_ok _ _ w3 kc _) by (by apply open_w_writable).
  do 5 (erewrite bind_ok by apply file_write_written).
  rewrite (_write_status_writable job _ ks) by exact Hws.
  intros [= <-].
  assert (∀ k', k' ≠ kc → k' ≠ ks →
            fs (status_written job ks w5) !! k' = f2 !! k') as Hrest.
  { intros k' H1 H2. rewrite fs_status_written, lookup_insert_ne by done.
    simpl. by rewrite lookup_insert_ne. }
  split.
  { destruct Hm5 as (Hc5 & Hd5 & Hs5). split; [done|]. split.
    - rewrite fs_status_written, lookup_insert_ne; [exact Hd5|].
      apply app_cons_ne.
    - intros k' Hk'. rewrite fs_status_written, lookup_insert_ne;
        [by apply Hs5|].
      intros <-. apply Hk'. by apply prefix_app_r. }
  split; [done|]. split; [done|]. split.
  { rewrite fs_status_written, lookup_insert_ne.
    - apply lookup_insert_eq.
    - intros Heq. by apply app_inv_head in Heq. }
  split; [by rewrite fs_status_written, lookup_insert_eq|].
  split.
  { intros c l Hc. rewrite Hrest.
    - apply Hf2. intros ->. apply Hc. by left.
    - intros Heq. apply app_inv_head in Heq. injection Heq as -> _.
      apply Hc. right. by left.
    - intros Heq. apply app_inv_head in Heq. injection Heq as -> _.
      apply Hc. right. right. by left. }
  split; [exact Ho3|].
  intros ks0 Hks0. destruct (Hsrc ks0 Hks0) as [Hd Hig].
  split.
  - rewrite Hrest; [exact Hd| |]; intros Heq; by apply app_inv_head in Heq.
  - intros l. rewrite Hrest.
    + apply Hig. apply listing_ignored.
    + intros Heq. by apply app_inv_head in Heq.
    + intros Heq. by apply app_inv_head in Heq.
Qed.

End fresh2.

Section adding.

Lemma add_job_unfold w job_name code data cmd job_time gpus :
  add_job job_name code data cmd job_time gpus w
  = if lock_held w then Hang
    else match _write_job (added_job w job_name code data cmd job_time gpus)
                          (set_lock true w) with
         | Ok _ w' => Ok (added_job w job_name code data cmd job_time gpus)
                         (set_lock false w')
         | Raise e w' => Raise e (set_lock false w')
         | Hang => Hang
         end.
Proof.
  assert (Job_init (set_lock true w) = Job_init w) as HJ by reflexivity.
  unfold add_job, added_job, with_lock.
  destruct job_name, job_time; cbv [mbind M_bind get mret M_ret];
    destruct (lock_held w); try reflexivity;
    rewrite HJ; change (queue_dir (set_lock true w)) with (queue_dir w);
    by destruct (_write_job _ _).
Qed.

Lemma os_path_exists_ext p w w' b :
  fs w' = fs w → cwd w' = cwd w →
  os_path_exists p w = Ok b w → os_path_exists p w' = Ok b w'.
Proof.
  intros Hf Hc. unfold os_path_exists. rewrite (resolve_ext w w') by done.
  rewrite Hf. intros [= ->]. done.
Qed.

End adding.

(** X6.  [add_job] for a new job directory in an existing directory, when it
    returns: the job is the one built from the arguments, with status
    ['ready']; the lock is free; the job directory is there with both
    records; and no entry of the file system outside the job directory has
    changed. *)
Theorem add_job_new_directory (w : world) (job_name : option string)
    (code data cmd : string) (job_time : option string)
    (gpus : option (list Z)) (k : list string) (j : Job) (w' : world) :
  let job := added_job w job_name code data cmd job_time gpus in
  lock_held w = false → fs_wf (fs w) →
  resolve w false (job_dir job) = At k → node_at (fs w) k = None →
  os_path_exists (makedirs_split (job_dir job)).1 w = Ok true w →
  add_job job_name code data cmd job_time gpus w = Ok j w' →
  j = job ∧ status j = "ready" ∧ lock_held w' = false ∧
  fs w' !! k = Some Dir ∧
  (∀ k', ¬ k `prefix_of` k' → fs w' !! k' = fs w !! k') ∧
  read_text (config_file (job_dir job)) w' = Some (config_text job) ∧
  read_text (status_file job) w' = Some (status_line "ready").
Proof.
  intros job Hlock Hwf Hr Hn Hpar. rewrite add_job_unfold, Hlock. fold job.
  destruct (_write_job job (set_lock true w)) as [[] w1| |] eqn:Hw; [|done..].
  intros [= <- <-].
  assert (endswith_char "/" (job_dir job) = false) as Htidy
    by (by eapply abspath_tidy).
  apply (_write_job_fresh (set_lock true w) job k) in Hw
    as (Hm & Hl & _ & Hc & Hs & _); try done.
  2:{ by apply (os_path_exists_ext _ w). }
  split; [done|]. split; [done|]. split; [done|].
  destruct Hm as (Hcwd & Hd & Hfr). split; [exact Hd|]. split; [exact Hfr|].
  assert (job_dir_made (set_lock true w) (set_lock false w1) k) as Hm
    by done.
  split.
  - apply (record_readable (set_lock true w) (job_dir job) k Hwf Hr Hn
             (set_lock false w1) "config.txt" _ Hm plain_config eq_refl Hc).
  - apply (record_readable (set_lock true w) (job_dir job) k Hwf Hr Hn
             (set_lock false w1) "status.txt" _ Hm plain_status eq_refl Hs).
Qed.

Lemma add_job_new_directory_witness :
  Scenario.jobA = Scenario.jobA ∧ status Scenario.jobA = "ready" ∧
  lock_held Scenario.wAdd = false ∧
  fs Scenario.wAdd !! ["home"; "u"; "jobs"; "A"] = Some Dir ∧
  (∀ k', ¬ ["home"; "u"; "jobs"; "A"] `prefix_of` k' →
         fs Scenario.wAdd !! k' = fs Scenario.w0 !! k') ∧
  read_text "/home/u/jobs/A/config.txt" Scenario.wAdd
  = Some (config_text Scenario.jobA) ∧
  read_text "/home/u/jobs/A/status.txt" Scenario.wAdd = Some (status_line "ready").
Proof.
  apply (add_job_new_directory Scenario.w0 (Some "A") "proj" "proj/data"
           "echo hi" (Some "t1") (Some [0; 1]%Z)
           ["home"; "u"; "jobs"; "A"] Scenario.jobA Scenario.wAdd).
  - reflexivity.
  - apply fs_wf_check_sound. vm_compute. reflexivity.
  - vm_compute. reflexivity.
  - vm_compute. reflexivity.
  - vm_compute. reflexivity.
  - vm_compute. reflexivity.
Defined.

Section loading.

Lemma split_last_plain c : split "/" c = [c] → split_last c = ("", c).
Proof.
  induction c as [|x c IH]; [done|]. simpl.
  destruct (decide (x = "/"%char)); [done|].
  pose proof (split_nonempty "/" c).
  destruct (split "/" c) as [|h [|h' t]] eqn:Hs; try done.
  intros [= ->]. by rewrite IH.
Qed.

Lemma basename_join d c :
  plain_name c → (os_path_split (os_path_join d c)).2 = c.
Proof.
  intros (Hsplit & Hne & _).
  assert (startswith "/" c = false) as Hst.
  { destruct c as [|x c]; [done|]. unfold startswith. cbn [String.prefix].
    destruct (ascii_dec "/" x) as [<-|]; [|done].
    cbn [split] in Hsplit. by rewrite decide_True in Hsplit. }
  assert (split_last (String "/" c) = ("/", c)) as Hsl.
  { simpl. by rewrite (split_last_plain c Hsplit). }
  assert (∀ a, (split_last (a +:+ String "/" c)).2 = c) as Happ.
  { intros a. rewrite split_last_app; by rewrite Hsl. }
  unfold os_path_split, os_path_join. rewrite Hst.
  destruct (decide (d = "")).
  { rewrite (split_last_plain c Hsplit). done. }
  destruct (endswith_char "/" d) eqn:He.
  - apply endswith_char_snoc in He as [a ->].
    rewrite append_assoc. change ("/" +:+ c) with (String "/" c).
    specialize (Happ a).
    destruct (split_last (a +:+ String "/" c)) as [h t]. exact Happ.
  - change (d +:+ "/" +:+ c) with (d +:+ String "/" c).
    specialize (Happ d).
    destruct (split_last (d +:+ String "/" c)) as [h t]. exact Happ.
Qed.

Lemma open_r_of_read_text p w c :
  read_text p w = Some c → open_r p w = Ok (universal_newlines c) w.
Proof.
  unfold read_text, open_rb, open_r.
  destruct (resolve w true p); [|done].
  by destruct (node_at (fs w) _) as [[| |]|]; intros [= ->].
Qed.

(** [_read_job] on a directory whose records are the ones [_write_job]
    writes for [job]. *)
Lemma _read_job_written w d job :
  clean "code_dir:" (code_dir job) → clean "data_dir:" (data_dir job) →
  clean "cmd:" (cmd job) → clean "time:" (time job) →
  clean "status:" (status job) →
  read_text (config_file d) w = Some (config_text job) →
  read_text (os_path_join d "status.txt") w
  = Some (status_line (status job)) →
  _read_job d w
  = Ok (mkJob (code_dir job) (data_dir job) (cmd_read_back (cmd job))
              (gpus job) d 1 (time job) (status job) (os_path_split d).2)
       (log_access StatusRead w).
Proof.
  intros Hc Hd Hm Ht (Hs1 & Hs2 & Hs3) Hcfg Hst.
  rewrite _read_job_unfold, (open_r_of_read_text _ _ _ Hcfg).
  rewrite parse_config_written by done.
  erewrite _read_status_present by (by apply open_r_of_read_text).
  unfold status_line. by rewrite status_line_read_back.
Qed.

End loading.

(** X7.  A job added under a new name can be loaded by that name: [load_job]
    returns its code and data directories, time, GPU list, status and name
    as [add_job] recorded them; the command comes back with a blank in
    front, and the job directory as the path relative to the queue root.
    The scan of [update] reads the same job under that name. *)
Theorem add_job_then_load_job (w : world) (job_name : option string)
    (code data cmd : string) (job_time : option string)
    (gpus : option (list Z)) (k : list string) (j : Job) (w' : world) :
  let job := added_job w job_name code data cmd job_time gpus in
  let d := os_path_join (queue_dir w) (name job) in
  lock_held w = false → fs_wf (fs w) →
  resolve w false (job_dir job) = At k → node_at (fs w) k = None →
  os_path_exists (makedirs_split (job_dir job)).1 w = Ok true w →
  resolve w false d = At k → plain_name (name job) →
  clean "code_dir:" (code_dir job) → clean "data_dir:" (data_dir job) →
  clean "cmd:" cmd → clean "time:" (time job) →
  add_job job_name code data cmd job_time gpus w = Ok j w' →
  let read := mkJob (code_dir job) (data_dir job) (cmd_read_back cmd)
                    gpus d 1 (time job) "ready" (name job) in
  (∃ w'', load_job (name job) w' = Ok read w'' ∧
          lock_held w'' = false ∧ fs w'' = fs w') ∧
  scan_pick w' (name job) = Some read.
Proof.
  intros job d Hlock Hwf Hr Hn Hpar Hrd Hname Hc Hd Hm Ht.
  rewrite add_job_unfold, Hlock. fold job.
  destruct (_write_job job (set_lock true w)) as [[] w1| |] eqn:Hw; [|done..].
  intros [= <- <-] read.
  assert (endswith_char "/" (job_dir job) = false) as Htidy
    by (by eapply abspath_tidy).
  apply (_write_job_fresh (set_lock true w) job k) in Hw
    as (Hmade & Hl & Hq & Hcfg & Hst & _); try done.
  2:{ by apply (os_path_exists_ext _ w). }
  set (w2 := set_lock true (set_lock false w1)).
  assert (job_dir_made (set_lock true w) w2 k) as Hm2 by done.
  destruct (job_dir_made_resolve (set_lock true w) d k Hwf Hrd Hn w2 Hm2)
    as [Hr2 Hn2].
  pose proof (record_readable (set_lock true w) d k Hwf Hrd Hn
                w2 "config.txt" _ Hm2 plain_config eq_refl Hcfg) as Hrc.
  pose proof (record_readable (set_lock true w) d k Hwf Hrd Hn
                w2 "status.txt" _ Hm2 plain_status eq_refl Hst) as Hrs.
  assert (∀ wx, fs wx = fs w2 → cwd wx = cwd w2 →
            _read_job d wx = Ok read (log_access StatusRead wx)) as Hread.
  { intros wx Hf Hcw.
    rewrite (_read_job_written wx d job); try done.
    - unfold read, d.
      by rewrite (basename_join (queue_dir w) (name job) Hname).
    - by rewrite (read_text_ext _ w2).
    - by rewrite (read_text_ext _ w2). }
  split.
  - eexists. split.
    + unfold load_job, with_lock. cbn [lock_held set_lock]. fold w2.
      rewrite (bind_ok _ _ w2 (queue_dir w) w2)
        by (unfold get; f_equal; exact Hq).
      cbv zeta. fold d.
      rewrite (bind_ok _ _ w2 true w2)
        by (unfold os_path_exists; by rewrite Hr2, Hn2).
      by rewrite Hread.
    + done.
  - unfold scan_pick, is_dir, os_path_isdir, read_job_of.
    change (queue_dir (set_lock false w1)) with (queue_dir w1).
    rewrite Hq. change (queue_dir (set_lock true w)) with (queue_dir w).
    fold d. rewrite (resolve_ext w2 (set_lock false w1)) by done.
    rewrite Hr2. change (fs (set_lock false w1)) with (fs w2).
    rewrite Hn2. cbn [returned]. by rewrite Hread.
Qed.

Lemma add_job_then_load_job_witness :
  (∃ w'', load_job "A" Scenario.wAdd
          = Ok (mkJob "/home/u/proj" "/home/u/proj/data" " echo hi"
                      (Some [0; 1]%Z) "jobs/A" 1 "t1" "ready" "A") w'' ∧
          lock_held w'' = false ∧ fs w'' = fs Scenario.wAdd) ∧
  scan_pick Scenario.wAdd "A"
  = Some (mkJob "/home/u/proj" "/home/u/proj/data" " echo hi"
                (Some [0; 1]%Z) "jobs/A" 1 "t1" "ready" "A").
Proof.
  apply (add_job_then_load_job Scenario.w0 (Some "A") "proj" "proj/data"
           "echo hi" (Some "t1") (Some [0; 1]%Z)
           ["home"; "u"; "jobs"; "A"] Scenario.jobA Scenario.wAdd).
  - reflexivity.
  - apply fs_wf_check_sound. vm_compute. reflexivity.
  - vm_compute. reflexivity.
  - vm_compute. reflexivity.
  - vm_compute. reflexivity.
  - vm_compute. reflexivity.
  - by repeat split.
  - repeat split; reflexivity.
  - repeat split; reflexivity.
  - repeat split; reflexivity.
  - repeat split; reflexivity.
  - vm_compute. reflexivity.
Defined.

(** ** The first run of a new job *)

Section growth.

Implicit Types (f : gmap (list string) node) (k cur comps : list string).

(** Entries made in a free place do not change where a path to an
    existing node leads. *)
Lemma walk_with_grow_other expand expand' f f' follow k k' n :
  grown_at f f' k → node_at f k' = Some n →
  (∀ cur comps, expand cur comps = At k' → expand' cur comps = At k') →
  ∀ comps cur,
    walk_with expand f follow cur comps = At k' →
    walk_with expand' f' follow cur comps = At k'.
Proof.
  intros (Hk & Hfree & Hsame & Hnl) Hn' Hexp.
  assert (∀ cur, node_at f cur = Some Dir → node_at f' cur = Some Dir)
    as Hdir.
  { intros cur. unfold node_at. destruct (decide (cur = [])); [done|].
    intros Hc. rewrite Hsame; [done|]. intros Hp.
    by rewrite (Hfree _ Hp) in Hc. }
  induction comps as [|c0 rest IH]; intros cur; simpl; [done|].
  destruct (node_at f cur) as [[| |]|] eqn:Hcur; try done.
  rewrite (Hdir _ Hcur).
  destruct (decide (c0 = "..")); [apply IH|].
  destruct (decide (k `prefix_of` cur ++ [c0])) as [Hp|Hp].
  - rewrite (Hfree _ Hp). intros Hw. exfalso.
    assert (node_at f (cur ++ [c0]) = None) as Hnone.
    { rewrite node_at_nonroot by (by destruct cur). by apply Hfree. }
    destruct rest as [|c1 rest].
    + injection Hw as <-. congruence.
    + simpl in Hw. by rewrite Hnone in Hw.
  - rewrite (Hsame _ Hp).
    destruct (f !! (cur ++ [c0])) as [[| |t]|]; try apply IH.
    destruct (bool_decide (rest = []) && negb follow); [done|].
    apply Hexp.
Qed.

Lemma walk_grow_other links f f' follow k k' n cur comps :
  grown_at f f' k → node_at f k' = Some n →
  walk links f follow cur comps = At k' →
  walk links f' follow cur comps = At k'.
Proof.
  intros Hg Hn. revert cur comps.
  induction links as [|l IH]; intros cur comps; simpl;
    apply (walk_with_grow_other _ _ f f' _ k k' n); auto; done.
Qed.

Lemma resolve_grow_other w w' follow p k k' n :
  grown_at (fs w) (fs w') k → cwd w' = cwd w →
  resolve w follow p = At k' → node_at (fs w) k' = Some n →
  resolve w' follow p = At k' ∧ node_at (fs w') k' = Some n.
Proof.
  intros Hg Hc Hr Hn.
  assert (node_at (fs w') k' = Some n) as Hn'.
  { destruct Hg as (Hk & Hfree & Hsame & _). unfold node_at in *.
    destruct (decide (k' = [])); [done|]. rewrite Hsame; [done|].
    intros Hp. by rewrite (Hfree _ Hp) in Hn. }
  split; [|done].
  pose proof Hr as [Hp Hw]%resolve_At_walk.
  unfold resolve in *. destruct (decide (p = "")); [done|].
  rewrite Hc, (walk_grow_other 40 (fs w) (fs w') _ k k' n _ _ Hg Hn Hw).
  rewrite Hw, Hn in Hr. by rewrite Hn'.
Qed.

End growth.

Section first_run.

Context (w : world) (jd : string) (k : list string).
Hypothesis (Hwf : fs_wf (fs w)).
Hypothesis (Hr : resolve w false jd = At k).
Hypothesis (Hn : node_at (fs w) k = None).

Lemma record_rewritable wx c t :
  job_dir_made w wx k → plain_name c → endswith_char "/" c = false →
  fs wx !! (k ++ [c]) = Some (File t) →
  writable_at wx (os_path_join jd c) (k ++ [c]).
Proof.
  intros Hm Hc He Hfile. destruct (new_job_key w jd k Hr Hn) as [Hk Hjd].
  destruct (job_dir_made_resolve w jd k Hwf Hr Hn wx Hm) as [Hrx Hnx].
  destruct (os_path_join_plain jd c Hjd Hc) as (Hne & Hcomp & Hst & Hend).
  split; [|split].
  - rewrite (resolve_child wx true jd _ c k); try done.
    + by rewrite Hfile, Hend, He.
    + apply Hc.
    + intros t'. congruence.
  - by rewrite Hend.
  - split; [by destruct k|]. right. by exists t.
Qed.

Lemma snapshot_resolves wx follow :
  job_dir_made w wx k → endswith_char "/" jd = false →
  fs wx !! (k ++ ["snapshot"]) = Some Dir →
  resolve wx follow (os_path_join jd "snapshot/") = At (k ++ ["snapshot"]) ∧
  node_at (fs wx) (k ++ ["snapshot"]) = Some Dir.
Proof.
  intros Hm He Hd. destruct (new_job_key w jd k Hr Hn) as [Hk Hjd].
  destruct (job_dir_made_resolve w jd k Hwf Hr Hn wx Hm) as [Hrx Hnx].
  destruct (os_path_join_snapshot jd Hjd He) as (Hp & Hcomp & Hst & Hend & _).
  split; [|by rewrite node_at_nonroot by (by destruct k)].
  rewrite (resolve_child wx follow jd _ "snapshot" k); try done.
  - by rewrite Hd.
  - intros t. congruence.
Qed.

(** The first data binding of a job whose snapshot directory is there
    without the name of the data directory. *)
Lemma bind_data_first job wx :
  job_dir job = jd →
  job_dir_made w wx k → endswith_char "/" jd = false →
  fs wx !! (k ++ ["snapshot"]) = Some Dir →
  plain_name (os_path_split (data_dir job)).2 →
  fs wx !! (k ++ ["snapshot"; (os_path_split (data_dir job)).2]) = None →
  bind_data job wx
  = Ok tt (set_fs (<[k ++ ["snapshot"; (os_path_split (data_dir job)).2]
                     := Link (data_dir job)]> (fs wx)) wx).
Proof.
  intros Hjob Hm He Hd Hplain Hfree.
  set (dname := (os_path_split (data_dir job)).2) in *.
  destruct (new_job_key w jd k Hr Hn) as [Hk Hjd].
  destruct (os_path_join_snapshot jd Hjd He) as (Hp & Hcomp & Hst & Hend & _).
  set (sdir := os_path_join jd "snapshot/") in *.
  destruct (os_path_join_plain sdir dname Hp Hplain)
    as (Hne & Hcomp' & Hst' & Hend').
  assert (∀ follow, resolve wx follow (os_path_join sdir dname)
                    = At ((k ++ ["snapshot"]) ++ [dname])) as Hsl.
  { intros follow.
    destruct (snapshot_resolves wx true Hm He Hd) as [Hrs Hns].
    apply (resolve_new_child wx follow sdir _ dname (k ++ ["snapshot"]));
      try done.
    - apply Hplain.
    - by rewrite <- app_assoc. }
  assert (node_at (fs wx) ((k ++ ["snapshot"]) ++ [dname]) = None) as Hnone.
  { rewrite node_at_nonroot by (by destruct k). by rewrite <- app_assoc. }
  unfold bind_data. rewrite Hjob. fold sdir. fold dname.
  rewrite (bind_ok _ _ wx false wx)
    by (unfold os_path_exists; by rewrite Hsl, Hnone).
  cbn [negb]. unfold os_symlink. rewrite Hsl, Hnone.
  by rewrite <- app_assoc.
Qed.

End first_run.

Section lifecycle.

Lemma plain_output : plain_name "output.txt".
Proof. by repeat split. Qed.

Lemma is_dir_resolve w p :
  is_dir w p = true →
  ∃ ks, resolve w true p = At ks ∧ node_at (fs w) ks = Some Dir.
Proof.
  unfold is_dir, os_path_isdir. cbn [returned].
  destruct (resolve w true p) as [ks|]; [|done].
  destruct (node_at (fs w) ks) as [[| |]|] eqn:Hn; try done.
  intros _. by exists ks.
Qed.

(** The world [add_job] leaves for a new job whose code is a directory,
    and the one after the data binding of its first run. *)
Lemma added_job_bound (w : world) (job_name : option string)
    (code data cmd : string) (job_time : option string)
    (gpus : option (list Z)) (k : list string) (j : Job) (w' : world) :
  let job := added_job w job_name code data cmd job_time gpus in
  let dname := (os_path_split (data_dir job)).2 in
  let wb := set_fs (<[k ++ ["snapshot"; dname] := Link (data_dir job)]>
                      (fs w')) w' in
  lock_held w = false → fs_wf (fs w) →
  resolve w false (job_dir job) = At k → node_at (fs w) k = None →
  os_path_exists (makedirs_split (job_dir job)).1 w = Ok true w →
  is_dir w (code_dir job) = true → plain_name dname →
  add_job job_name code data cmd job_time gpus w = Ok j w' →
  j = job ∧ fs w' !! (k ++ ["snapshot"; dname]) = None ∧
  bind_data job w' = Ok tt wb ∧ lock_held wb = false ∧
  writable_at wb (output_file job) (k ++ ["output.txt"]) ∧
  writable_at wb (status_file job) (k ++ ["status.txt"]) ∧
  resolve wb true (os_path_join (job_dir job) "snapshot/")
  = At (k ++ ["snapshot"]) ∧
  node_at (fs wb) (k ++ ["snapshot"]) = Some Dir.
Proof.
  intros job dname wb Hlock Hwf Hr Hn Hpar Hdir Hplain.
  rewrite add_job_unfold, Hlock. fold job.
  set (W := set_lock true w).
  destruct (_write_job job W) as [[] w1| |] eqn:Hw; [|done..].
  intros [= <- <-].
  assert (endswith_char "/" (job_dir job) = false) as Htidy
    by (by eapply abspath_tidy).
  destruct (new_job_key w _ k Hr Hn) as [Hk Hjd].
  assert (fs_wf (fs W)) as HwfW by exact Hwf.
  assert (resolve W false (job_dir job) = At k) as HrW
    by (by rewrite (resolve_ext w W)).
  assert (node_at (fs W) k = None) as HnW by exact Hn.
  assert (os_path_exists (makedirs_split (job_dir job)).1 W = Ok true W)
    as HparW by (by apply (os_path_exists_ext _ w)).
  destruct (_write_job_fresh W job k w1 HwfW HrW HnW Htidy HparW Hw)
    as (Hmade & Hl & Hq & Hcfg & Hst & Hout & _ & Hsrc).
  apply is_dir_resolve in Hdir as (ks & Hrks & Hnks).
  assert (resolve W true (code_dir job) = At ks) as HrksW
    by (by rewrite (resolve_ext w W)).
  assert (grown_at (fs W) (<[k := Dir]> (fs W)) k) as Hg.
  { apply grown_at_insert; [done| |done].
    by apply (fs_wf_absent_below _ _ HwfW HnW). }
  destruct (Hsrc ks) as [Hsnap Hign].
  { destruct (resolve_grow_other W (set_fs (<[k := Dir]> (fs W)) W)
                true (code_dir job) k ks Dir Hg eq_refl HrksW Hnks)
      as [Hr1 Hn1].
    unfold resolve_dir. by rewrite Hr1, Hn1. }
  set (w' := set_lock false w1) in *.
  assert (job_dir_made W w' k) as Hm' by exact Hmade.
  assert (job_dir_made W wb k) as Hmb.
  { destruct Hmade as (Hc1 & Hd1 & Hfr1). split; [exact Hc1|]. split.
    - cbn [fs wb set_fs]. rewrite lookup_insert_ne; [exact Hd1|].
      apply app_cons_ne.
    - intros k' Hk'. cbn [fs wb set_fs].
      rewrite lookup_insert_ne; [by apply Hfr1|].
      intros <-. apply Hk'. by apply prefix_app_r. }
  assert (∀ c, c ≠ "snapshot" →
            fs wb !! (k ++ [c]) = fs w1 !! (k ++ [c])) as Hkeep.
  { intros c Hc. cbn [fs wb set_fs]. rewrite lookup_insert_ne; [done|].
    intros Heq. apply app_inv_head in Heq. by injection Heq as <-. }
  split; [reflexivity|]. split; [exact (Hign [])|]. split.
  { exact (bind_data_first W (job_dir job) k HwfW HrW HnW job w' eq_refl
             Hm' Htidy Hsnap Hplain (Hign [])). }
  split; [by rewrite <- Hlock|]. split.
  { apply (record_writable W _ k HwfW HrW HnW wb "output.txt"
             Hmb plain_output eq_refl).
    rewrite Hkeep by done. apply (Hout "output.txt" []).
    rewrite !elem_of_cons, elem_of_nil. by intros [|[|[|]]]. }
  split.
  { apply (record_rewritable W _ k HwfW HrW HnW wb "status.txt"
             (status_line (status job)) Hmb plain_status eq_refl).
    by rewrite Hkeep. }
  apply (snapshot_resolves W _ k HwfW HrW HnW wb true Hmb Htidy).
  cbn [fs wb set_fs]. rewrite lookup_insert_ne; [exact Hsnap|]. intros Heq.
  by apply (app_cons_ne (k ++ ["snapshot"]) dname []); rewrite <- app_assoc.
Qed.

End lifecycle.

(** X8.  The first run of a job added under a new name, with a directory of
    code: the data binding makes the link [snapshot/<data name>] to the
    data directory (the copy left that name out). *)
Theorem add_job_then_bind_data (w : world) (job_name : option string)
    (code data cmd : string) (job_time : option string)
    (gpus : option (list Z)) (k : list string) (j : Job) (w' : world) :
  let job := added_job w job_name code data cmd job_time gpus in
  let dname := (os_path_split (data_dir job)).2 in
  lock_held w = false → fs_wf (fs w) →
  resolve w false (job_dir job) = At k → node_at (fs w) k = None →
  os_path_exists (makedirs_split (job_dir job)).1 w = Ok true w →
  is_dir w (code_dir job) = true → plain_name dname →
  add_job job_name code data cmd job_time gpus w = Ok j w' →
  fs w' !! (k ++ ["snapshot"; dname]) = None ∧
  bind_data j w'
  = Ok tt (set_fs (<[k ++ ["snapshot"; dname] := Link (data_dir job)]>
                     (fs w')) w').
Proof.
  intros job dname Hlock Hwf Hr Hn Hpar Hdir Hplain Hadd.
  destruct (added_job_bound w job_name code data cmd job_time gpus k j w'
              Hlock Hwf Hr Hn Hpar Hdir Hplain Hadd)
    as (-> & Hfree & Hb & _).
  split; [exact Hfree|exact Hb].
Qed.

Lemma add_job_then_bind_data_witness :
  fs Scenario.wAdd !! ["home"; "u"; "jobs"; "A"; "snapshot"; "data"] = None ∧
  bind_data Scenario.jobA Scenario.wAdd
  = Ok tt (set_fs (<[ ["home"; "u"; "jobs"; "A"; "snapshot"; "data"]
                      := Link "/home/u/proj/data" ]> (fs Scenario.wAdd)) Scenario.wAdd).
Proof.
  apply (add_job_then_bind_data Scenario.w0 (Some "A") "proj" "proj/data"
           "echo hi" (Some "t1") (Some [0; 1]%Z)
           ["home"; "u"; "jobs"; "A"] Scenario.jobA Scenario.wAdd).
  - reflexivity.
  - apply fs_wf_check_sound. vm_compute. reflexivity.
  - vm_compute. reflexivity.
  - vm_compute. reflexivity.
  - vm_compute. reflexivity.
  - vm_compute. reflexivity.
  - by repeat split.
  - vm_compute. reflexivity.
Defined.



(** ** The paths of a new job *)

Section absolute.



Lemma split_elem_noslash s c : c ∈ split "/" s → split "/" c = [c].
Proof.
  revert c. induction s as [|x s IH]; intros c; simpl.
  - by intros ->%list_elem_of_singleton.
  - destruct (decide (x = "/"%char)) as [->|Hx].
    + intros [->|Hc]%elem_of_cons; [done|by apply IH].
    + pose proof (split_nonempty "/" s).
      destruct (split "/" s) as [|h t] eqn:Hs; [done|].
      intros [->|Hc]%elem_of_cons.
      * simpl. rewrite decide_False by done.
        rewrite (IH h) by (by left). done.
      * apply IH. by right.
Qed.

Lemma last_regular acc :
  Forall regular acc → ¬ (acc ≠ [] ∧ last acc = Some "..").
Proof.
  intros Hall H. destruct H as [_ Hl].
  apply last_Some in Hl. destruct Hl as [l' ->].
  apply Forall_app in Hall as [_ Hall]. rewrite Forall_singleton in Hall.
  destruct Hall as [_ [_ [Hdd _]]]. by apply Hdd.
Qed.

Lemma norm_step_regular n l : ∀ acc,
  n ≠ 0%nat → Forall regular acc → (∀ c, c ∈ l → split "/" c = [c]) →
  Forall regular (foldl (norm_step n) acc l).
Proof.
  induction l as [|c l IH]; intros acc Hn Hacc Hl; [done|].
  cbn [foldl]. apply IH; [done| |intros; apply Hl; by right].
  unfold norm_step. destruct (decide (c = "" ∨ c = ".")) as [|Hc]; [done|].
  destruct (decide _) as [[Hd|[[? _]|Hlast]]|Hno].
  - apply Forall_app. split; [done|]. rewrite Forall_singleton.
    split; [intros ->; apply Hc; by left|].
    split; [intros ->; apply Hc; by right|].
    split; [done|]. apply Hl. by left.
  - done.
  - by apply last_regular in Hlast.
  - by apply Forall_removelast.
Qed.

Lemma norm_step_keep n comps : ∀ acc,
  Forall regular comps → foldl (norm_step n) acc comps = acc ++ comps.
Proof.
  induction comps as [|c comps IH]; intros acc Hall.
  - by rewrite app_nil_r.
  - apply Forall_cons in Hall as [(Hne & Hdot & Hdd & _) Hall].
    cbn [foldl]. unfold norm_step at 2.
    rewrite decide_False by (by intros [|]).
    rewrite decide_True by (by left).
    rewrite IH by done. by rewrite <- app_assoc.
Qed.

Lemma split_join_regular comps :
  comps ≠ [] → Forall regular comps →
  split "/" (join "/" comps) = comps.
Proof.
  induction comps as [|c comps IH]; [done|]. intros _ Hall.
  apply Forall_cons in Hall as [(_ & _ & _ & Hc) Hall].
  destruct comps as [|c' comps]; [done|].
  change (join "/" (c :: c' :: comps))
    with (c +:+ String "/" (join "/" (c' :: comps))).
  by rewrite split_app_sep, Hc, IH.
Qed.

Lemma regular_start c : regular c → startswith "/" c = false.
Proof.
  intros (Hne & _ & _ & Hsplit). destruct c as [|x c]; [done|].
  unfold startswith. cbn [String.prefix].
  destruct (ascii_dec "/" x) as [<-|]; [|done].
  cbn [split] in Hsplit. by rewrite decide_True in Hsplit.
Qed.

Lemma join_start comps :
  Forall regular comps → startswith "/" (join "/" comps) = false.
Proof.
  destruct comps as [|c comps]; [done|]. intros Hall.
  apply Forall_cons in Hall as [Hc _]. pose proof (regular_start c Hc) as Hs.
  destruct Hc as (Hne & _). destruct c as [|x c]; [done|].
  assert (x ≠ "/"%char) as Hx.
  { intros ->. unfold startswith in Hs. cbn [String.prefix] in Hs.
    destruct (ascii_dec "/" "/"); [by destruct c|done]. }
  unfold startswith. destruct comps as [|c' comps].
  - cbn [join String.prefix]. destruct (ascii_dec "/" x); [congruence|done].
  - change (join "/" (String x c :: c' :: comps))
      with (String x (c +:+ "/" +:+ join "/" (c' :: comps))).
    cbn [String.prefix]. destruct (ascii_dec "/" x); [congruence|done].
Qed.

Lemma normpath_unfold q :
  q ≠ "" →
  let n := if startswith "/" q
           then if startswith "//" q && negb (startswith "///" q)
                then 2%nat else 1%nat
           else 0%nat in
  let p := (match n with 0%nat => "" | 1%nat => "/" | _ => "//" end)
           +:+ join "/" (foldl (norm_step n) [] (split "/" q)) in
  normpath q = if decide (p = "") then "." else p.
Proof. intros Hq. unfold normpath. by rewrite decide_False. Qed.

(** [normpath] of an absolute path: one or two slashes, then regular
    components joined by slashes. *)
Lemma normpath_absolute q :
  startswith "/" q = true →
  ∃ pre comps, (pre = "/" ∨ pre = "//") ∧ Forall regular comps ∧
               normpath q = pre +:+ join "/" comps.
Proof.
  intros Hq. assert (q ≠ "") as Hne by (by intros ->).
  rewrite (normpath_unfold q Hne). rewrite Hq. cbv zeta.
  set (n := if startswith "//" q && negb (startswith "///" q)
            then 2%nat else 1%nat).
  assert (n ≠ 0%nat) as Hn by (unfold n; by destruct (_ && _)).
  pose proof (norm_step_regular n (split "/" q) [] Hn (Forall_nil_2 _)
                (split_elem_noslash q)) as Hreg.
  set (comps := foldl (norm_step n) [] (split "/" q)) in *.
  exists (match n with 0%nat => "" | 1%nat => "/" | _ => "//" end), comps.
  split.
  { unfold n. destruct (_ && _); [by right|by left]. }
  split; [done|]. rewrite decide_False; [done|].
  unfold n. by destruct (_ && _).
Qed.

Lemma startswith_cons a p s :
  startswith (String a p) (String a s) = startswith p s.
Proof.
  unfold startswith. cbn [String.prefix]. by destruct (ascii_dec a a).
Qed.

Lemma startswith_empty s : startswith "" s = true.
Proof. by destruct s. Qed.

Lemma norm_step_empty n acc : norm_step n acc "" = acc.
Proof.
  unfold norm_step. destruct (decide ("" = "" ∨ "" = ".")) as [_|Hno]; [done|].
  destruct Hno. by left.
Qed.

Lemma normpath_normal pre comps :
  pre = "/" ∨ pre = "//" → Forall regular comps →
  normpath (pre +:+ join "/" comps) = pre +:+ join "/" comps.
Proof.
  intros Hpre Hall. pose proof (join_start comps Hall) as Hj.
  assert (split "/" (join "/" comps)
          = if decide (comps = []) then [""] else comps) as Hsplit.
  { destruct (decide (comps = [])) as [->|Hne]; [done|].
    by apply split_join_regular. }
  assert (∀ n, foldl (norm_step n) []
                 (if decide (comps = []) then [""] else comps) = comps)
    as Hfold.
  { intros n. destruct (decide (comps = [])) as [->|Hne]; [done|].
    by rewrite norm_step_keep. }
  set (j := join "/" comps) in *.
  destruct Hpre as [-> | ->].
  - rewrite normpath_unfold by done.
    change ("/" +:+ j) with (String "/" j).
    rewrite !startswith_cons, startswith_empty, Hj. cbv zeta.
    cbn [andb split].
    destruct (decide ("/"%char = "/"%char)); [|done]. rewrite Hsplit.
    cbn [foldl]. rewrite !norm_step_empty.
    rewrite Hfold. by destruct (decide _).
  - rewrite normpath_unfold by done.
    change ("//" +:+ j) with (String "/" (String "/" j)).
    rewrite !startswith_cons, !startswith_empty, Hj. cbv zeta.
    cbn [andb negb split].
    destruct (decide ("/"%char = "/"%char)); [|done]. rewrite Hsplit.
    cbn [foldl]. rewrite !norm_step_empty.
    rewrite Hfold. by destruct (decide _).
Qed.

Lemma abspath_absolute w p :
  startswith "/" (abspath w p) = true ∧
  abspath w (abspath w p) = abspath w p.
Proof.
  set (q := if startswith "/" p then p else os_path_join (getcwd w) p).
  assert (startswith "/" q = true) as Hq.
  { unfold q. destruct (startswith "/" p) eqn:Hp; [done|].
    unfold os_path_join, getcwd. rewrite Hp.
    rewrite decide_False by done.
    set (c := join "/" (cwd w)).
    destruct (endswith_char _ _).
    - change (("/" +:+ c) +:+ p) with (String "/" (c +:+ p)).
      by rewrite startswith_cons, startswith_empty.
    - change (("/" +:+ c) +:+ "/" +:+ p) with (String "/" (c +:+ "/" +:+ p)).
      by rewrite startswith_cons, startswith_empty. }
  destruct (normpath_absolute q Hq) as (pre & comps & Hpre & Hall & Hn).
  assert (abspath w p = pre +:+ join "/" comps) as Ha by exact Hn.
  assert (startswith "/" (pre +:+ join "/" comps) = true) as Hs.
  { destruct Hpre as [-> | ->].
    - change ("/" +:+ join "/" comps) with (String "/" (join "/" comps)).
      by rewrite startswith_cons, startswith_empty.
    - change ("//" +:+ join "/" comps)
        with (String "/" (String "/" (join "/" comps))).
      by rewrite startswith_cons, startswith_empty. }
  split; [by rewrite Ha|]. rewrite Ha. unfold abspath at 1. rewrite Hs.
  by apply normpath_normal.
Qed.

End absolute.

(** X17.  The paths of the job [add_job] builds are absolute, and
    [Job.__init__], which makes them absolute once more, leaves the code
    and data paths as [add_job] computed them. *)
Theorem added_job_paths_absolute (w : world) (job_name : option string)
    (code data cmd : string) (job_time : option string)
    (gpus : option (list Z)) :
  let job := added_job w job_name code data cmd job_time gpus in
  code_dir job = abspath w (expanduser w code) ∧
  data_dir job = abspath w (expanduser w data) ∧
  startswith "/" (code_dir job) = true ∧
  startswith "/" (data_dir job) = true ∧
  startswith "/" (job_dir job) = true.
Proof.
  intros job. unfold job, added_job, Job_init. cbn [code_dir data_dir job_dir].
  destruct (abspath_absolute w (expanduser w code)) as [Hc1 Hc2].
  destruct (abspath_absolute w (expanduser w data)) as [Hd1 Hd2].
  rewrite Hc2, Hd2. repeat split; try done.
  apply abspath_absolute.
Qed.

(** ** Removing a job *)

Section removal.

Implicit Types (f : gmap (list string) node) (k cur comps : list string).


Lemma pruned_lookup f k k' :
  pruned f k !! k' = if decide (k `prefix_of` k') then None else f !! k'.
Proof.
  unfold pruned. destruct (decide (k `prefix_of` k')) as [Hp|Hp].
  - apply map_lookup_filter_None. right. intros x _. simpl. by intros H.
  - destruct (f !! k') as [x|] eqn:E.
    + by apply map_lookup_filter_Some.
    + apply map_lookup_filter_None. by left.
Qed.

Lemma prefix_removelast k cur :
  k `prefix_of` removelast cur → k `prefix_of` cur.
Proof.
  destruct cur as [|x cur] using rev_ind; [done|].
  rewrite removelast_last. intros Hp. by apply prefix_app_r.
Qed.

Lemma prefix_snoc_new k cur c :
  ¬ k `prefix_of` cur → k `prefix_of` cur ++ [c] → cur ++ [c] = k.
Proof.
  intros Hn [l Hl]. destruct l as [|x l] using rev_ind.
  - by rewrite app_nil_r in Hl.
  - rewrite app_assoc in Hl. apply app_inj_tail in Hl as [-> _].
    destruct Hn. by apply prefix_app_r.
Qed.

(** Once the directory at [k] is removed, a path that led to it leads
    nowhere. *)
Lemma walk_with_pruned expand expand' f follow follow' k :
  k ≠ [] → f !! k = Some Dir → (follow = true → follow' = true) →
  (∀ cur comps, ¬ k `prefix_of` cur → expand cur comps = At k →
                expand' cur comps = At k ∨ expand' cur comps = Fail ENOENT) →
  ∀ comps cur, ¬ k `prefix_of` cur →
    walk_with expand f follow cur comps = At k →
    walk_with expand' (pruned f k) follow' cur comps = At k
    ∨ walk_with expand' (pruned f k) follow' cur comps = Fail ENOENT.
Proof.
  intros Hk Hd Hfl Hexp.
  assert (∀ cur, ¬ k `prefix_of` cur →
                 node_at (pruned f k) cur = node_at f cur) as Hsame.
  { intros cur Hc. unfold node_at. destruct (decide (cur = [])); [done|].
    by rewrite pruned_lookup, decide_False. }
  assert (node_at (pruned f k) k = None) as Hgone.
  { rewrite node_at_nonroot by done. by rewrite pruned_lookup, decide_True. }
  assert (∀ (b : bool) cur, ¬ k `prefix_of` cur →
            ¬ k `prefix_of` (if b then [] else cur)) as Hstart.
  { intros [] cur Hc; [|done]. intros Hp. by apply prefix_nil_inv in Hp. }
  induction comps as [|c0 rest IH]; intros cur Hcur; simpl.
  { intros [= ->]. by destruct Hcur. }
  rewrite (Hsame _ Hcur).
  destruct (node_at f cur) as [[| |]|]; try done.
  destruct (decide (c0 = "..")).
  { apply IH. intros Hp. by apply Hcur, prefix_removelast. }
  rewrite pruned_lookup.
  destruct (decide (k `prefix_of` cur ++ [c0])) as [Hp|Hp].
  - intros _. rewrite (prefix_snoc_new _ _ _ Hcur Hp).
    destruct rest as [|c1 rest]; [by left|]. simpl. rewrite Hgone. by right.
  - destruct (f !! (cur ++ [c0])) as [[| |t]|]; try by apply IH.
    destruct rest as [|c1 rest]; simpl.
    + destruct follow; simpl.
      * rewrite (Hfl eq_refl). simpl. apply Hexp. by apply Hstart.
      * intros [= <-]. by destruct Hp.
    + apply Hexp. by apply Hstart.
Qed.

Lemma walk_pruned links f follow follow' k cur comps :
  k ≠ [] → f !! k = Some Dir → (follow = true → follow' = true) →
  ¬ k `prefix_of` cur →
  walk links f follow cur comps = At k →
  walk links (pruned f k) follow' cur comps = At k
  ∨ walk links (pruned f k) follow' cur comps = Fail ENOENT.
Proof.
  intros Hk Hd Hfl. revert cur comps.
  induction links as [|l IH]; intros cur comps; simpl;
    apply walk_with_pruned; auto; done.
Qed.

Lemma walk_pruned_any links f follow follow' k cur comps :
  k ≠ [] → f !! k = Some Dir → (follow = true → follow' = true) →
  walk links f follow cur comps = At k →
  walk links (pruned f k) follow' cur comps = At k
  ∨ walk links (pruned f k) follow' cur comps = Fail ENOENT.
Proof.
  intros Hk Hd Hfl Hw.
  destruct (decide (k `prefix_of` cur)) as [Hp|Hp];
    [|by apply (walk_pruned links f follow)].
  assert (cur ≠ []) as Hcur by (intros ->; by apply prefix_nil_inv in Hp).
  destruct comps as [|c rest].
  - left. destruct links; simpl in *; done.
  - right. destruct links; simpl;
      by rewrite node_at_nonroot, pruned_lookup, decide_True.
Qed.

(** [shutil.rmtree] when it returns: the directory and all below it are
    gone, nothing else has changed, and the path no longer exists. *)
Lemma shutil_rmtree_inv p w w' :
  shutil_rmtree p w = Ok tt w' →
  ∃ k, resolve w false p = At k ∧ node_at (fs w) k = Some Dir ∧
       w' = set_fs (pruned (fs w) k) w ∧
       (k ≠ [] → os_path_exists p w' = Ok false w').
Proof.
  unfold shutil_rmtree.
  destruct (resolve w false p) as [k|] eqn:Hr; [|done].
  destruct (node_at (fs w) k) as [[| |]|] eqn:Hn; try done.
  intros [= <-]. exists k. split; [done|]. split; [done|].
  split; [done|]. intros Hk.
  rewrite node_at_nonroot in Hn by done.
  apply resolve_At_walk in Hr as [Hp Hw].
  unfold os_path_exists, resolve. destruct (decide (p = "")); [done|].
  cbn [fs cwd set_fs orb]. fold (pruned (fs w) k).
  destruct (walk_pruned_any 40 (fs w) (false || endswith_char "/" p) true
              k _ _ Hk Hn ltac:(done) Hw) as [Hw'|Hw']; rewrite Hw'; [|done].
  assert (node_at (pruned (fs w) k) k = None) as Hgone.
  { rewrite node_at_nonroot by done.
    by rewrite pruned_lookup, decide_True by reflexivity. }
  by rewrite !Hgone.
Qed.

End removal.

(** X10.  [rm_job], when it returns, has removed the directory of the job and
    everything under it and nothing else; the path of the job no longer
    exists, and a job removed by name can no longer be loaded:
    [load_job] raises its [ValueError]. *)
Theorem rm_job_removes (job : string + Job) (w w' : world) :
  let p := match job with
           | inl n => os_path_join (queue_dir w) n
           | inr j => job_dir j
           end in
  rm_job job w = Ok tt w' →
  ∃ k, resolve w false p = At k ∧ node_at (fs w) k = Some Dir ∧
       (∀ k', fs w' !! k' = if decide (k `prefix_of` k') then None
                            else fs w !! k') ∧
       (k ≠ [] →
        os_path_exists p w' = Ok false w' ∧
        ∀ n, job = inl n → lock_held w = false →
             load_job n w'
             = Raise (ValueError "Job does not exist with that name!") w').
Proof.
  intros p Hrm.
  assert (shutil_rmtree p w = Ok tt w') as Hrt by (by destruct job).
  apply shutil_rmtree_inv in Hrt as (k & Hr & Hn & -> & Hex).
  exists k. split; [done|]. split; [done|].
  split; [intros k'; apply pruned_lookup|].
  intros Hk. specialize (Hex Hk). split; [done|].
  intros n -> Hlock. unfold load_job, with_lock. cbn [lock_held set_fs].
  rewrite Hlock.
  set (w0 := set_fs (pruned (fs w) k) w) in *.
  set (w1 := set_lock true w0).
  rewrite (bind_ok _ _ w1 (queue_dir w) w1) by reflexivity.
  cbv zeta. fold p.
  rewrite (bind_ok _ _ w1 false w1).
  - unfold raise. f_equal. unfold w1, w0.
    destruct w. simpl in *. by rewrite Hlock.
  - by apply (os_path_exists_ext p w0 w1).
Qed.

Lemma rm_job_removes_witness :
  ∃ k, resolve Scenario.wQ false "jobs/good" = At k ∧
       node_at (fs Scenario.wQ) k = Some Dir ∧
       (∀ k', fs (Scenario.after (rm_job (inl "good")) Scenario.wQ) !! k'
              = if decide (k `prefix_of` k') then None
                else fs Scenario.wQ !! k') ∧
       (k ≠ [] →
        os_path_exists "jobs/good"
          (Scenario.after (rm_job (inl "good")) Scenario.wQ)
        = Ok false (Scenario.after (rm_job (inl "good")) Scenario.wQ) ∧
        ∀ n, @inl string Job "good" = inl n →
             lock_held Scenario.wQ = false →
             load_job n (Scenario.after (rm_job (inl "good")) Scenario.wQ)
             = Raise (ValueError "Job does not exist with that name!")
                     (Scenario.after (rm_job (inl "good")) Scenario.wQ)).
Proof.
  apply (rm_job_removes (inl "good") Scenario.wQ
           (Scenario.after (rm_job (inl "good")) Scenario.wQ)).
  vm_compute. reflexivity.
Defined.

(** ** Replacing a job *)

Section replacing.

Implicit Types (f : gmap (list string) node) (k cur comps : list string).

Lemma fs_wf_pruned f k : fs_wf f → fs_wf (pruned f k).
Proof.
  intros Hwf k' c n. rewrite pruned_lookup.
  destruct (decide (k `prefix_of` k' ++ [c])) as [|Hp]; [done|].
  intros Hk'. apply Hwf in Hk'. unfold node_at in *.
  destruct (decide (k' = [])); [done|].
  rewrite pruned_lookup, decide_False; [done|].
  intros Hp'. apply Hp. by apply prefix_app_r.
Qed.

(** A path that leads to a directory leads there whether or not a final
    link is followed. *)
Lemma walk_with_follow_dir expand expand' f k :
  node_at f k = Some Dir →
  (∀ cur comps, expand cur comps = At k → expand' cur comps = At k) →
  ∀ comps cur,
    walk_with expand f false cur comps = At k →
    walk_with expand' f true cur comps = At k.
Proof.
  intros Hnl Hexp. induction comps as [|c0 rest IH]; intros cur; simpl;
    [done|].
  destruct (node_at f cur) as [[| |]|]; try done.
  destruct (decide (c0 = "..")); [apply IH|].
  destruct (f !! (cur ++ [c0])) as [[| |t]|] eqn:E; try apply IH.
  rewrite andb_false_r. destruct rest as [|c1 rest]; simpl.
  - intros [= <-]. rewrite node_at_nonroot in Hnl by (by destruct cur).
    congruence.
  - apply Hexp.
Qed.

Lemma walk_follow_dir links f k cur comps :
  node_at f k = Some Dir →
  walk links f false cur comps = At k →
  walk links f true cur comps = At k.
Proof.
  intros Hnl. revert cur comps.
  induction links as [|l IH]; intros cur comps; simpl;
    apply walk_with_follow_dir; auto; done.
Qed.

Lemma resolve_follow_dir w p k :
  resolve w false p = At k → node_at (fs w) k = Some Dir →
  resolve w true p = At k.
Proof.
  intros Hr Hn. pose proof Hr as [Hp Hw]%resolve_At_walk.
  unfold resolve. destruct (decide (p = "")); [done|].
  destruct (endswith_char "/" p) eqn:He.
  - cbn [orb] in *. by rewrite Hw, Hn.
  - cbn [orb] in *.
    by rewrite (walk_follow_dir 40 (fs w) k _ _ Hn Hw), Hn.
Qed.

(** [_write_job] on an existing job directory removes it and goes on as
    for a new one. *)
Lemma _write_job_replace job w w1 :
  os_path_exists (job_dir job) w = Ok true w →
  shutil_rmtree (job_dir job) w = Ok tt w1 →
  os_path_exists (job_dir job) w1 = Ok false w1 →
  _write_job job w = _write_job job w1.
Proof.
  intros Hex Hrm Hgone. unfold _write_job.
  rewrite (bind_ok _ _ w true w) by exact Hex.
  rewrite (bind_ok _ _ w tt w1) by exact Hrm.
  rewrite (bind_ok _ _ w1 false w1) by exact Hgone.
  cbv beta iota.
  by rewrite (bind_ok (mret tt) _ w1 tt w1) by reflexivity.
Qed.

End replacing.

(** X18.  [add_job] under the name of an existing job directory, when it
    returns: the old directory has been removed with all it held; the new
    one holds the config and status records of the new job and, apart from
    them, at most [snapshot]; nothing outside the job directory has
    changed.  (The path of the job directory is assumed to still lead to
    its place once the directory is removed.) *)
Theorem add_job_replaces_existing (w : world) (job_name : option string)
    (code data cmd : string) (job_time : option string)
    (gpus : option (list Z)) (k : list string) (j : Job) (w' : world) :
  let job := added_job w job_name code data cmd job_time gpus in
  let w1 := set_fs (pruned (fs w) k) w in
  lock_held w = false → fs_wf (fs w) →
  resolve w false (job_dir job) = At k → node_at (fs w) k = Some Dir →
  k ≠ [] →
  resolve w1 false (job_dir job) = At k →
  os_path_exists (makedirs_split (job_dir job)).1 w1 = Ok true w1 →
  add_job job_name code data cmd job_time gpus w = Ok j w' →
  j = job ∧ lock_held w' = false ∧ fs w' !! k = Some Dir ∧
  (∀ k', ¬ k `prefix_of` k' → fs w' !! k' = fs w !! k') ∧
  (∀ c l, c ∉ ["snapshot"; "config.txt"; "status.txt"] →
          fs w' !! (k ++ c :: l) = None) ∧
  read_text (config_file (job_dir job)) w' = Some (config_text job) ∧
  read_text (status_file job) w' = Some (status_line "ready").
Proof.
  intros job w1 Hlock Hwf Hr Hn Hk Hr1 Hpar.
  rewrite add_job_unfold, Hlock. fold job.
  set (W := set_lock true w). set (W1 := set_fs (pruned (fs W) k) W).
  assert (resolve W false (job_dir job) = At k) as HrW
    by (by rewrite (resolve_ext w W)).
  assert (node_at (fs W) k = Some Dir) as HnW by exact Hn.
  assert (os_path_exists (job_dir job) W = Ok true W) as Hex.
  { unfold os_path_exists.
    by rewrite (resolve_follow_dir W _ k HrW HnW), HnW. }
  assert (shutil_rmtree (job_dir job) W = Ok tt W1) as Hrm
    by (unfold shutil_rmtree; by rewrite HrW, HnW).
  pose proof Hrm as (k0 & Hk0 & _ & _ & Hgone)%shutil_rmtree_inv.
  rewrite HrW in Hk0. injection Hk0 as <-. specialize (Hgone Hk).
  rewrite (_write_job_replace job W W1 Hex Hrm Hgone).
  destruct (_write_job job W1) as [[] w2| |] eqn:Hw; [|done..].
  intros [= <- <-].
  assert (fs_wf (fs W1)) as HwfW1 by (by apply fs_wf_pruned).
  assert (resolve W1 false (job_dir job) = At k) as HrW1
    by (by rewrite (resolve_ext w1 W1)).
  assert (node_at (fs W1) k = None) as HnW1.
  { rewrite node_at_nonroot by done. cbn [fs W1 set_fs].
    by rewrite pruned_lookup, decide_True by reflexivity. }
  assert (os_path_exists (makedirs_split (job_dir job)).1 W1 = Ok true W1)
    as HparW1 by (by apply (os_path_exists_ext _ w1)).
  assert (endswith_char "/" (job_dir job) = false) as Htidy
    by (by apply (abspath_tidy W1 (os_path_join (queue_dir w) (name job)) k)).
  destruct (_write_job_fresh W1 job k w2 HwfW1 HrW1 HnW1 Htidy HparW1 Hw)
    as (Hmade & Hl & _ & Hcfg & Hst & Hrest & _).
  split; [done|]. split; [done|].
  destruct Hmade as (Hcwd & Hd & Hfr). split; [exact Hd|]. split.
  { intros k' Hk'. cbn [fs set_lock]. rewrite (Hfr k' Hk').
    cbn [fs W1 set_fs]. by rewrite pruned_lookup, decide_False. }
  split; [exact Hrest|].
  assert (job_dir_made W1 (set_lock false w2) k) as Hm by done.
  split.
  - apply (record_readable W1 (job_dir job) k HwfW1 HrW1 HnW1
             (set_lock false w2) "config.txt" _ Hm plain_config eq_refl Hcfg).
  - apply (record_readable W1 (job_dir job) k HwfW1 HrW1 HnW1
             (set_lock false w2) "status.txt" _ Hm plain_status eq_refl Hst).
Qed.

Lemma add_job_replaces_existing_witness :
  let w' := Scenario.after (add_job (Some "A") "proj" "proj/data" "echo again"
                                    (Some "t9") None) Scenario.wRun in
  fs Scenario.wRun !! ["home"; "u"; "jobs"; "A"; "output.txt"]
  = Some (File ("hi" +:+ nl)) ∧
  Scenario.jobA2 = added_job Scenario.wRun (Some "A") "proj" "proj/data" "echo again"
                  (Some "t9") None ∧
  lock_held w' = false ∧
  fs w' !! ["home"; "u"; "jobs"; "A"] = Some Dir ∧
  (∀ k', ¬ ["home"; "u"; "jobs"; "A"] `prefix_of` k' →
         fs w' !! k' = fs Scenario.wRun !! k') ∧
  (∀ c l, c ∉ ["snapshot"; "config.txt"; "status.txt"] →
          fs w' !! (["home"; "u"; "jobs"; "A"] ++ c :: l) = None) ∧
  read_text "/home/u/jobs/A/config.txt" w' = Some (config_text Scenario.jobA2) ∧
  read_text "/home/u/jobs/A/status.txt" w' = Some (status_line "ready").
Proof.
  intros w'. split; [vm_compute; reflexivity|].
  apply (add_job_replaces_existing Scenario.wRun (Some "A") "proj" "proj/data"
           "echo again" (Some "t9") None ["home"; "u"; "jobs"; "A"]
           Scenario.jobA2 w').
  - reflexivity.
  - apply fs_wf_check_sound. vm_compute. reflexivity.
  - vm_compute. reflexivity.
  - vm_compute. reflexivity.
  - done.
  - vm_compute. reflexivity.
  - vm_compute. reflexivity.
  - vm_compute. reflexivity.
Defined.

(** ** The options of the command line *)

Section specs.

Lemma split_comma_joined l :
  l ≠ [] → split "," (join "," (map str_of_int l)) = map str_of_int l.
Proof.
  induction l as [|g l IH]; [done|]. intros _.
  assert (split "," (str_of_int g) = [str_of_int g]) as Hg.
  { apply split_no_sep.
    apply (all_chars_impl numeral_char); [|apply str_of_int_chars].
    intros c (_ & Hc & _)%numeral_char_facts.
    by rewrite negb_true_iff, bool_decide_eq_false. }
  destruct l as [|g' l]; [done|].
  change (join "," (map str_of_int (g :: g' :: l)))
    with (str_of_int g +:+ String "," (join "," (map str_of_int (g' :: l)))).
  by rewrite split_app_sep, Hg, IH.
Qed.

Lemma stripped_ints_of_strs l :
  stripped_ints_of (map str_of_int l) = inr l.
Proof.
  induction l as [|g l IH]; [done|]. cbn [map stripped_ints_of].
  rewrite decide_False by apply str_of_int_nonempty.
  rewrite (strip_all_chars numeral_char) by
    (apply str_of_int_chars || (by intros c (? & _)%numeral_char_facts)).
  by rewrite int_of_str_of_int, IH.
Qed.

End specs.

(** X11.  [load_job_specs]: without one of [--code], [--data], [--cmd] the
    result is [None], whatever [--gpus] holds; with the three of them, a
    [--gpus] value made of integers separated by commas gives the list of
    these integers (the empty string the empty list), and without [--gpus]
    the GPU list is [None]. *)
Theorem load_job_specs_cases (opt : options) (w : world) :
  (opt_code opt = None ∨ opt_data opt = None ∨ opt_cmd opt = None →
   load_job_specs opt w = Ok None w)
  ∧ (∀ code data cmd,
       opt_code opt = Some code → opt_data opt = Some data →
       opt_cmd opt = Some cmd →
       (opt_gpus opt = None →
        load_job_specs opt w = Ok (Some (code, data, cmd, None)) w)
       ∧ (∀ l, opt_gpus opt = Some (join "," (map str_of_int l)) →
               load_job_specs opt w = Ok (Some (code, data, cmd, Some l)) w)).
Proof.
  unfold load_job_specs. split.
  - intros [H|[H|H]]; rewrite H; try done.
    + by destruct (opt_code opt).
    + by destruct (opt_code opt), (opt_data opt).
  - intros code data cmd -> -> ->. split; [by intros ->|].
    intros l ->. destruct l as [|g l]; [done|].
    by rewrite split_comma_joined, stripped_ints_of_strs.
Qed.

Lemma load_job_specs_cases_witness :
  load_job_specs
    (mkOptions (Some "add") None false (Some "proj") (Some "proj/data")
               (Some [["echo"; "hi"]]) (Some "0,-1,12") false None)
    Scenario.w0
  = Ok (Some ("proj", "proj/data", [["echo"; "hi"]], Some [0; -1; 12]%Z))
       Scenario.w0.
Proof.
  eapply (load_job_specs_cases
            (mkOptions (Some "add") None false (Some "proj")
                       (Some "proj/data") (Some [["echo"; "hi"]])
                       (Some "0,-1,12") false None) Scenario.w0);
    reflexivity.
Defined.

(** ** The action [list] *)

Section listing_jobs.

Lemma for_each_print {A} (l : list A) (g : A → string) w :
  for_each l (λ x, print (g x)) w
  = Ok tt (set_stdout (stdout w ++ map (λ x, g x +:+ nl) l) w).
Proof.
  revert w. induction l as [|x l IH]; intros w.
  - simpl. rewrite app_nil_r. by destruct w.
  - cbn [for_each]. unfold mbind, M_bind, print at 1. rewrite IH.
    cbn [stdout set_stdout map]. by rewrite <- app_assoc.
Qed.

End listing_jobs.

(** X12.  The action [list], once [update] has returned with the index [d]:
    after the heading, it prints "No jobs to list" when no job of the index
    has the status asked for; otherwise it prints the table of all the jobs
    of the index, those with another status included. *)
Theorem list_action_table (opt : options) (w w1 : world) :
  update w = Ok tt w1 →
  let d := jobs w1 in
  let heading := match opt_status opt with
                 | Some s => if decide (s = "all") then "Listing all jobs"
                             else "Listing jobs of type: " +:+ s
                 | None => "Listing jobs of type: ready"
                 end in
  ∃ w', list_action opt w = Ok tt w' ∧ fs w' = fs w1 ∧
    stdout w'
    = stdout w1 ++ [heading +:+ nl]
      ++ (if decide (listed opt d = []) then ["No jobs to list" +:+ nl]
          else [table_row "Status" "Time Submitted" "Job Name" +:+ nl;
                table_row "-----" "-----" "-----" +:+ nl]
               ++ map (λ job, table_row (status job) (time job) (name job)
                              +:+ nl) (index_jobs d)).
Proof.
  intros Hu d heading. unfold list_action.
  rewrite (bind_ok _ _ w tt w1) by exact Hu.
  rewrite (bind_ok _ _ w1 (jobs w1) (log_access IndexRead w1)) by reflexivity.
  fold d. cbv zeta.
  set (w2 := log_access IndexRead w1).
  assert (∀ (h : string) (sel : list Job),
    (print h;;
     if decide (List.length sel = 0%nat) then print "No jobs to list"
     else print (table_row "Status" "Time Submitted" "Job Name");;
          print (table_row "-----" "-----" "-----");;
          d0 ← read_index;
          for_each (index_jobs d0)
            (λ job, print (table_row (status job) (time job) (name job))))
      w2
    = Ok tt
        (set_stdout
           (stdout w1 ++ [h +:+ nl]
            ++ (if decide (sel = []) then ["No jobs to list" +:+ nl]
                else [table_row "Status" "Time Submitted" "Job Name" +:+ nl;
                      table_row "-----" "-----" "-----" +:+ nl]
                     ++ map (λ job, table_row (status job) (time job)
                                              (name job) +:+ nl)
                            (index_jobs d)))
           (if decide (sel = []) then w2 else log_access IndexRead w2)))
    as Hprint.
  { intros h sel. unfold mbind, M_bind at 1. unfold print at 1.
    destruct sel as [|j sel].
    - rewrite decide_True by done. rewrite (decide_True (P := [] = [])) by done.
      unfold print. cbn [stdout set_stdout]. by rewrite <- app_assoc.
    - rewrite decide_False by done.
      rewrite (decide_False (P := j :: sel = [])) by done.
      unfold M_bind at 1, print at 1. unfold M_bind at 1, print at 1.
      unfold M_bind at 1, read_index. rewrite for_each_print.
      cbn [stdout set_stdout log_access jobs]. fold d.
      by rewrite <- !app_assoc. }
  unfold listed, heading.
  destruct (opt_status opt) as [s|].
  - destruct (decide (s = "all")).
    + rewrite Hprint. eexists. split; [reflexivity|].
      split; [by destruct (decide (index_jobs d = []))|done].
    + rewrite Hprint. eexists. split; [reflexivity|].
      split; [by destruct (decide (filter _ (index_jobs d) = []))|done].
  - rewrite Hprint. eexists. split; [reflexivity|].
    split; [by destruct (decide (filter _ (index_jobs d) = []))|done].
Qed.

Lemma list_action_table_witness :
  ∃ w', list_action (mkOptions (Some "ls") None false None None None None
                               false None) Scenario.wQ = Ok tt w' ∧
    fs w' = fs (Scenario.after update Scenario.wQ) ∧
    stdout w'
    = stdout (Scenario.after update Scenario.wQ)
      ++ ["Listing jobs of type: ready" +:+ nl]
      ++ (if decide (listed (mkOptions (Some "ls") None false None None None
                                       None false None)
                            (jobs (Scenario.after update Scenario.wQ)) = [])
          then ["No jobs to list" +:+ nl]
          else [table_row "Status" "Time Submitted" "Job Name" +:+ nl;
                table_row "-----" "-----" "-----" +:+ nl]
               ++ map (λ job, table_row (status job) (time job) (name job)
                              +:+ nl)
                      (index_jobs (jobs (Scenario.after update Scenario.wQ)))).
Proof.
  apply (list_action_table
           (mkOptions (Some "ls") None false None None None None false None)
           Scenario.wQ (Scenario.after update Scenario.wQ)).
  vm_compute. reflexivity.
Defined.

(** ** One turn of the runner *)

(** X13.  One turn of the loop of [start], when it returns: [update] has
    returned; if the index holds no ready job nothing is run and nothing
    printed; otherwise the job [oldest] selects, a ready one, has been run
    and its status record says ['finished'] or ['crashed'], so that the
    next turn does not select it again. *)
Theorem runner_cycle_settles_oldest (sh : shell) (w w' : world) :
  runner_cycle sh w = Ok tt w' →
  ∃ w1, update w = Ok tt w1 ∧
    match oldest_in (jobs w1) with
    | None => w' = log_access IndexRead w1
    | Some j =>
        status j = "ready" ∧ lock_held w' = false ∧
        ∃ s, (s = "finished" ∨ s = "crashed") ∧
             read_text (status_file j) w' = Some (status_line s) ∧
             returned (read_status (with_status s j) w')
             = Some (with_status s j, s)
    end.
Proof.
  unfold runner_cycle, mbind, M_bind at 1.
  destruct (update w) as [[] w1| |]; [|done..].
  intros Hrun. exists w1. split; [done|]. revert Hrun.
  unfold M_bind at 1, oldest. unfold mbind, M_bind at 1, read_index.
  cbn [mret M_ret].
  destruct (oldest_in (jobs w1)) as [j|] eqn:Hold.
  - unfold M_bind at 1, print. unfold M_bind at 1.
    destruct (run_job sh j _) as [j' w2| |] eqn:Hrun; [|done..].
    intros [= <-].
    apply run_job_settled in Hrun as (s & Hs & -> & Hl & Hr & Hrs).
    split.
    + unfold oldest_in in Hold.
      destruct (sorted time _) as [|x r] eqn:Hsort; [done|].
      injection Hold as ->.
      apply sorted_head in Hsort as [Hin _].
      by apply elem_of_ready_jobs in Hin as (n & _ & Hready).
    + split; [done|]. by exists s.
  - by intros [= <-].
Qed.

Lemma runner_cycle_settles_oldest_witness :
  ∃ w1, update Scenario.wAdd = Ok tt w1 ∧
    match oldest_in (jobs w1) with
    | None => Scenario.after (runner_cycle Scenario.sh0) Scenario.wAdd
              = log_access IndexRead w1
    | Some j =>
        status j = "ready" ∧
        lock_held (Scenario.after (runner_cycle Scenario.sh0) Scenario.wAdd)
        = false ∧
        ∃ s, (s = "finished" ∨ s = "crashed") ∧
             read_text (status_file j)
               (Scenario.after (runner_cycle Scenario.sh0) Scenario.wAdd)
             = Some (status_line s) ∧
             returned (read_status (with_status s j)
                         (Scenario.after (runner_cycle Scenario.sh0)
                                         Scenario.wAdd))
             = Some (with_status s j, s)
    end.
Proof.
  apply (runner_cycle_settles_oldest Scenario.sh0 Scenario.wAdd
           (Scenario.after (runner_cycle Scenario.sh0) Scenario.wAdd)).
  vm_compute. reflexivity.
Defined.
